(** * fetch_census_data.py: B18105 ambulatory-difficulty annotation of tracts

    A shallow embedding of [src/fetch_census_data.py].

    - A pandas column cell is an IEEE 754 binary64 number, given by the
      Standard Library's executable specification [spec_float] with
      [prec = 53] and [emax = 1024]: this is the dtype pandas gives to a
      column that holds a missing value, and on an all-integer column the
      same results come out as long as the sums stay below 2^53.
    - A DataFrame is the list of its rows, a row is a record of its cells.
    - [main] is a program in a small trace-and-exception monad: every
      [print], the HTTP request and the CSV write are events of one trace,
      [sys.exit] and uncaught exceptions end the run. *)

From Stdlib Require Import ZArith List String Ascii Bool Lia.
From Stdlib Require Import SpecFloat.
Import ListNotations.

Local Open Scope string_scope.
Local Open Scope Z_scope.
Local Open Scope list_scope.

(** ** Binary64 cells *)

Module F64.

Definition prec : Z := 53.
Definition emax : Z := 1024.

Definition cell := spec_float.

Definition nan : cell := S754_nan.
Definition inf : cell := S754_infinity false.

(** An integer literal of the source, as the float pandas computes with. *)
Definition of_Z (z : Z) : cell := binary_normalize prec emax z 0 false.

Definition add : cell -> cell -> cell := SFadd prec emax.
Definition mul : cell -> cell -> cell := SFmul prec emax.
Definition div : cell -> cell -> cell := SFdiv prec emax.

(** [a < b], [a > b], [a <= b] as numpy evaluates them: false on NaN. *)
Definition ltb : cell -> cell -> bool := SFltb.
Definition gtb (a b : cell) : bool := SFltb b a.
Definition leb : cell -> cell -> bool := SFleb.

Definition isna (x : cell) : bool :=
  match x with S754_nan => true | _ => false end.

(** A number that is neither NaN nor infinite. *)
Definition is_finite (x : cell) : bool :=
  match x with S754_zero _ | S754_finite _ _ _ => true | _ => false end.

Definition is_zero (x : cell) : bool :=
  match x with S754_zero _ => true | _ => false end.

(** [numpy.rint]: the nearest integral value, ties to even.  A finite
    number with a negative exponent loses its [-e] low bits; the round and
    sticky bits of the shift decide the direction. *)
Definition rint (x : cell) : cell :=
  match x with
  | S754_finite s m (Zneg p) =>
      let mrs := iter_pos shr_1 p (Build_shr_record (Zpos m) false false) in
      match round_nearest_even (shr_m mrs) (loc_of_shr_record mrs) with
      | Zpos m' => binary_round prec emax s m' 0
      | _ => S754_zero s
      end
  | _ => x
  end.

(** [Series.round(decimals)] on a float column is [numpy.round], which is
    [rint(x * 10**decimals) / 10**decimals]. *)
Definition round (decimals : nat) (x : cell) : cell :=
  let f := of_Z (10 ^ Z.of_nat decimals) in
  div (rint (mul x f)) f.

(** [Series.fillna(value)]: only NaN is replaced, an infinity is kept. *)
Definition fillna (value x : cell) : cell :=
  if isna x then value else x.

End F64.

Import F64.

Declare Scope f64_scope.
Delimit Scope f64_scope with f64.
Bind Scope f64_scope with cell.
Infix "+" := add : f64_scope.
Infix "*" := mul : f64_scope.
Infix "/" := div : f64_scope.

(** ** Tables *)

(** The fifteen requested variables of one API row, in a cell type [A]. *)
Record variables (A : Type) := {
B18105_001E : A;
B18105_004E : A; B18105_007E : A; B18105_010E : A;
B18105_013E : A; B18105_016E : A;
B18105_020E : A; B18105_023E : A; B18105_026E : A;
B18105_029E : A; B18105_032E : A;
B18105_012E : A; B18105_015E : A;
B18105_028E : A; B18105_031E : A
}.

Arguments B18105_001E {A}. Arguments B18105_004E {A}.
Arguments B18105_007E {A}. Arguments B18105_010E {A}.
Arguments B18105_013E {A}. Arguments B18105_016E {A}.
Arguments B18105_020E {A}. Arguments B18105_023E {A}.
Arguments B18105_026E {A}. Arguments B18105_029E {A}.
Arguments B18105_032E {A}. Arguments B18105_012E {A}.
Arguments B18105_015E {A}. Arguments B18105_028E {A}.
Arguments B18105_031E {A}.

(** The names of [variables] in the order of the source list. *)
Definition variable_names : list string :=
[ "B18105_001E";
  "B18105_004E"; "B18105_007E"; "B18105_010E"; "B18105_013E"; "B18105_016E";
  "B18105_020E"; "B18105_023E"; "B18105_026E"; "B18105_029E"; "B18105_032E";
  "B18105_012E"; "B18105_015E";
  "B18105_028E"; "B18105_031E" ].

(** [for col in variables: df[col] = f(df[col])], on one row. *)
Definition map_variables {A B : Type} (f : A -> B) (v : variables A)
  : variables B :=
{| B18105_001E := f (B18105_001E v);
   B18105_004E := f (B18105_004E v); B18105_007E := f (B18105_007E v);
   B18105_010E := f (B18105_010E v); B18105_013E := f (B18105_013E v);
   B18105_016E := f (B18105_016E v);
   B18105_020E := f (B18105_020E v); B18105_023E := f (B18105_023E v);
   B18105_026E := f (B18105_026E v); B18105_029E := f (B18105_029E v);
   B18105_032E := f (B18105_032E v);
   B18105_012E := f (B18105_012E v); B18105_015E := f (B18105_015E v);
   B18105_028E := f (B18105_028E v); B18105_031E := f (B18105_031E v) |}.

(** The cells of a row as a list, in the order of [variable_names]. *)
Definition cells {A : Type} (v : variables A) : list A :=
[ B18105_001E v;
  B18105_004E v; B18105_007E v; B18105_010E v; B18105_013E v; B18105_016E v;
  B18105_020E v; B18105_023E v; B18105_026E v; B18105_029E v; B18105_032E v;
  B18105_012E v; B18105_015E v;
  B18105_028E v; B18105_031E v ].

(** A cell of the decoded JSON response: the API sends every value as text,
    or [null].  Which number a text denotes is taken as given. *)
Inductive api_cell :=
| Null
| Numeral (x : cell)
| Garbage (s : string).

(** [pd.to_numeric(_, errors='coerce')] on one cell, as a binary64 number.
    pandas gives a column the type float64 when one of its cells is missing
    or no whole number, and int64 when all its cells are whole numbers of
    that range: the arithmetic of int64 columns is written out in
    [calculate_metrics_row_int64], and it agrees with the binary64
    arithmetic on whole numbers whose sums stay below [2 ^ 53]. *)
Definition to_numeric (c : api_cell) : cell :=
match c with
| Numeral x => x
| Null | Garbage _ => nan
end.

(** A data row of the response ([data[1:]], read under the headers
    [data[0]]). *)
Record api_row := {
api_NAME : string;
api_state : string;
api_county : string;
api_tract : string;
api_variables : variables api_cell
}.

(** A row of the DataFrame returned by [fetch_b18105_data]. *)
Record census_row := {
census_GEOID : string;
census_variables :> variables cell
}.

(** The six derived columns. *)
Record metrics := {
total_pop_5plus : cell;
total_amb_diff : cell;
total_amb_diff_pct : cell;
pop_65plus : cell;
pop_65plus_amb_diff : cell;
pop_65plus_amb_diff_pct : cell
}.

(** A row of the DataFrame returned by [calculate_metrics]. *)
Record metrics_row := {
metrics_GEOID : string;
metrics_columns :> metrics
}.

(** A row of [generated/tracts_within_1mile.csv]: the identifier read as
    text, the name, and the columns that are passed through. *)
Record tract := {
tract_GEOID : string;
NAMELSAD : string;
tract_columns : list string
}.

(** A row of [tracts_df.merge(metrics_df, on='GEOID', how='left')]. *)
Record annotated_row := {
annotated_tract : tract;
annotated_columns :> metrics
}.

(** ** calculate_metrics *)

Section CalculateMetrics.
Local Open Scope f64_scope.

(** The row-wise content of [calculate_metrics] on float64 columns;
    Python's [+] chains associate to the left. *)
Definition calculate_metrics_row (df : census_row) : metrics_row :=
let total_pop_5plus := B18105_001E df in
let total_amb_diff :=
  B18105_004E df + B18105_007E df + B18105_010E df +
  B18105_013E df + B18105_016E df +
  B18105_020E df + B18105_023E df + B18105_026E df +
  B18105_029E df + B18105_032E df in
let total_amb_diff_pct :=
  round 2 (total_amb_diff / total_pop_5plus * of_Z 100) in
let pop_65plus :=
  B18105_012E df + B18105_015E df +
  B18105_028E df + B18105_031E df in
let pop_65plus_amb_diff :=
  B18105_013E df + B18105_016E df +
  B18105_029E df + B18105_032E df in
let pop_65plus_amb_diff_pct :=
  round 2 (pop_65plus_amb_diff / pop_65plus * of_Z 100) in
{| metrics_GEOID := census_GEOID df;
   metrics_columns :=
     {| total_pop_5plus := total_pop_5plus;
        total_amb_diff := total_amb_diff;
        total_amb_diff_pct := fillna (of_Z 0) total_amb_diff_pct;
        pop_65plus := pop_65plus;
        pop_65plus_amb_diff := pop_65plus_amb_diff;
        pop_65plus_amb_diff_pct := fillna (of_Z 0) pop_65plus_amb_diff_pct |}
|}.

Definition calculate_metrics (df : list census_row) : list metrics_row :=
map calculate_metrics_row df.

End CalculateMetrics.

(** ** calculate_metrics on columns of whole numbers *)

(** numpy adds two int64 numbers modulo [2 ^ 64]. *)
Definition wrap_int64 (z : Z) : Z := (z + 2 ^ 63) mod 2 ^ 64 - 2 ^ 63.

Definition add_int64 (a b : Z) : Z := wrap_int64 (a + b).

(** The six derived columns of a frame whose variables are int64 columns:
    the counts are whole numbers, the percentages binary64 numbers. *)
Record int64_metrics := {
int64_total_pop_5plus : Z;
int64_total_amb_diff : Z;
int64_total_amb_diff_pct : cell;
int64_pop_65plus : Z;
int64_pop_65plus_amb_diff : Z;
int64_pop_65plus_amb_diff_pct : cell
}.

Declare Scope int64_scope.
Delimit Scope int64_scope with int64.
Infix "+" := add_int64 : int64_scope.

Section CalculateMetricsInt64.
Local Open Scope int64_scope.

(** The row-wise content of [calculate_metrics] when the fourteen
    variables it adds are int64 columns: the sums wrap around, and [/]
    converts both columns to float64 before it divides.  The universe is
    only divided by, so the same holds when it is a uint64 column. *)
Definition calculate_metrics_row_int64 (v : variables Z) : int64_metrics :=
let total_pop_5plus := B18105_001E v in
let total_amb_diff :=
  B18105_004E v + B18105_007E v + B18105_010E v +
  B18105_013E v + B18105_016E v +
  B18105_020E v + B18105_023E v + B18105_026E v +
  B18105_029E v + B18105_032E v in
let total_amb_diff_pct :=
  round 2 (of_Z total_amb_diff / of_Z total_pop_5plus * of_Z 100)%f64 in
let pop_65plus :=
  B18105_012E v + B18105_015E v +
  B18105_028E v + B18105_031E v in
let pop_65plus_amb_diff :=
  B18105_013E v + B18105_016E v +
  B18105_029E v + B18105_032E v in
let pop_65plus_amb_diff_pct :=
  round 2 (of_Z pop_65plus_amb_diff / of_Z pop_65plus * of_Z 100)%f64 in
{| int64_total_pop_5plus := total_pop_5plus;
   int64_total_amb_diff := total_amb_diff;
   int64_total_amb_diff_pct := fillna (of_Z 0) total_amb_diff_pct;
   int64_pop_65plus := pop_65plus;
   int64_pop_65plus_amb_diff := pop_65plus_amb_diff;
   int64_pop_65plus_amb_diff_pct :=
     fillna (of_Z 0) pop_65plus_amb_diff_pct |}.

End CalculateMetricsInt64.

(** ** The left join *)

(** The columns of a tract that found no metrics row. *)
Definition missing_columns : metrics :=
{| total_pop_5plus := nan; total_amb_diff := nan; total_amb_diff_pct := nan;
   pop_65plus := nan; pop_65plus_amb_diff := nan;
   pop_65plus_amb_diff_pct := nan |}.

(** The rows of the right table with the key of [t], in their order. *)
Definition matching (t : tract) (right : list metrics_row) : list metrics_row :=
filter (fun m => String.eqb (metrics_GEOID m) (tract_GEOID t)) right.

(** [left.merge(right, on='GEOID', how='left')]: the left rows in their
    order, each once per matching right row, or once with missing columns
    when no right row matches. *)
Definition merge (left : list tract) (right : list metrics_row)
  : list annotated_row :=
flat_map
  (fun t =>
     match matching t right with
     | [] => [ {| annotated_tract := t; annotated_columns := missing_columns |} ]
     | ms => map (fun m : metrics_row =>
                    {| annotated_tract := t; annotated_columns := m |}) ms
     end)
  left.

(** ** Data quality checks *)

Definition numeric_cols : list (string * (metrics -> cell)) :=
[ ("total_pop_5plus", total_pop_5plus);
  ("total_amb_diff", total_amb_diff);
  ("pop_65plus", pop_65plus);
  ("pop_65plus_amb_diff", pop_65plus_amb_diff) ].

(** [(mask).any()] over the rows of the table. *)
Definition any (mask : annotated_row -> bool) (df : list annotated_row) : bool :=
existsb mask df.

(** [if cond: errors.append(msg)], as the list it adds to [errors]. *)
Definition append_if (cond : bool) (msg : string) : list string :=
if cond then [msg] else [].

(** The list [errors] after the last check. *)
Definition data_quality_checks (annotated_df : list annotated_row)
  : list string :=
flat_map
  (fun '((col, column) : string * (metrics -> cell)) =>
     append_if
       (any (fun r : annotated_row => ltb (column r) (of_Z 0)) annotated_df)
       ("ERROR: Negative values found in " ++ col)%string)
  numeric_cols
 ++ append_if
      (any (fun r => gtb (total_amb_diff r) (total_pop_5plus r)) annotated_df)
      "ERROR: Total ambulatory difficulty exceeds total population"
 ++ append_if
      (any (fun r => gtb (pop_65plus_amb_diff r) (pop_65plus r)) annotated_df)
      "ERROR: 65+ ambulatory difficulty exceeds 65+ population"
 ++ append_if
      (any (fun r => gtb (pop_65plus r) (total_pop_5plus r)) annotated_df)
      "ERROR: 65+ population exceeds total population"
 ++ append_if
      (any (fun r => gtb (total_amb_diff_pct r) (of_Z 100)) annotated_df)
      "ERROR: Total ambulatory difficulty percentage exceeds 100%"
 ++ append_if
      (any (fun r => gtb (pop_65plus_amb_diff_pct r) (of_Z 100)) annotated_df)
      "ERROR: 65+ ambulatory difficulty percentage exceeds 100%".

(** ** The outside world *)

Inductive exn :=
| FileNotFoundError (path : string)
| IndexError
| KeyError (key : string)
| TypeError
| ValueError
| RequestException (msg : string)
| HTTPError (status_code : Z) (reason url : string)
| JSONDecodeError.

(** [except requests.exceptions.RequestException]: [HTTPError] and the
    [JSONDecodeError] of [response.json()] are among its subclasses. *)
Definition is_RequestException (e : exn) : bool :=
match e with
| RequestException _ | HTTPError _ _ _ | JSONDecodeError => true
| FileNotFoundError _ | IndexError | KeyError _ | TypeError | ValueError =>
    false
end.

(** Why a decoded body is not the table the code reads, by the statement
    that fails on it. *)
Inductive table_error :=
| EmptyList                      (* [data[0]] on [[]] *)
| NotSubscriptable               (* [data[0]] on a number, [true] or [null] *)
| RaggedRows                     (* [pd.DataFrame(rows, columns=headers)] *)
| MissingColumn (col : string).  (* [df['state']], ..., [df[col]] *)

(** The exception of each: none is a [RequestException]. *)
Definition table_exn (e : table_error) : exn :=
match e with
| EmptyList => IndexError
| NotSubscriptable => TypeError
| RaggedRows => ValueError
| MissingColumn col => KeyError col
end.

(** The body of a response: text that is no JSON, JSON that is not a table
    with the header row and the columns the code reads, or such a table,
    given by its data rows. *)
Inductive body :=
| NotJson
| NotTable (e : table_error)
| Table (data : list api_row).

(** What [requests.get] returns. *)
Record response := {
status_code : Z;
reason : string;
response_body : body
}.

(** The data rows of the body, when it is a table. *)
Definition json (r : response) : list api_row :=
match response_body r with
| Table data => data
| NotJson | NotTable _ => []
end.

(** What the program reads: the input CSV if it can be read, and what the
    API does with a request, an exception of the transport or a response. *)
Record env := {
tracts_csv : option (list tract);
census_api : string -> exn + response
}.

(** What [print] is given.  Literal texts are kept as they are, an f-string
    is kept as its kind and the values it formats. *)
Inductive message :=
| Line (text : string)
| Found (n : nat)
| Tracts (geoids : list string)
| FetchingFor (state_fips county_fips : string)
| ApiUrl (url : string)
| Fetched (n : nat)
| WarningMissing (n : nat)
| MissingRows (rows : list (string * string))
| SummaryStatistics (annotated_df : list annotated_row)
| FirstRows (rows : list annotated_row)
| Saved (output_file : string)
| ErrorFetching (e : exn)
| Traceback (e : exn).

Inductive event :=
| Mkdir (path : string)
| ReadCsv (path : string)
| Get (url : string)
| Print (m : message)
| PrintErr (m : message)
| ToCsv (path : string) (df : list annotated_row).

(** ** Programs: a trace of events and how the run goes on *)

Inductive outcome (A : Type) :=
| Return (a : A)
| Raise (e : exn)
| SysExit (code : Z).

Arguments Return {A}. Arguments Raise {A}. Arguments SysExit {A}.

Definition prog (A : Type) : Type := list event * outcome A.

Definition ret {A} (a : A) : prog A := ([], Return a).

Definition bind {A B} (c : prog A) (k : A -> prog B) : prog B :=
match c with
| (t, Return a) => let (t', o) := k a in (t ++ t', o)
| (t, Raise e) => (t, Raise e)
| (t, SysExit code) => (t, SysExit code)
end.

Notation "x <- c ;; k" := (bind c (fun x => k))
  (at level 61, c at next level, right associativity).
Notation "c ;; k" := (bind c (fun _ => k))
  (at level 61, right associativity).

Definition emit (e : event) : prog unit := ([e], Return tt).
Definition print (m : message) : prog unit := emit (Print m).
Definition print_err (m : message) : prog unit := emit (PrintErr m).
Definition raise {A} (e : exn) : prog A := ([], Raise e).
Definition sys_exit {A} (code : Z) : prog A := ([], SysExit code).

(** [try: body except <caught> as e: handler e]. *)
Definition try_except {A} (body : prog A) (caught : exn -> bool)
  (handler : exn -> prog A) : prog A :=
match body with
| (t, Raise e) =>
    if caught e then let (t', o) := handler e in (t ++ t', o)
    else (t, Raise e)
| _ => body
end.

(** [pd.read_csv(path, dtype={'GEOID': str})]. *)
Definition read_csv (w : env) (path : string) : prog (list tract) :=
emit (ReadCsv path) ;;
match tracts_csv w with
| Some df => ret df
| None => raise (FileNotFoundError path)
end.

(** [requests.get(url)]. *)
Definition requests_get (w : env) (url : string) : prog response :=
emit (Get url) ;;
match census_api w url with
| inl e => raise e
| inr r => ret r
end.

(** [response.raise_for_status()]: the statuses 400 to 599 raise. *)
Definition raise_for_status (r : response) (url : string) : prog unit :=
if (400 <=? status_code r) && (status_code r <? 600)
then raise (HTTPError (status_code r) (reason r) url)
else ret tt.

(** [data = response.json()], then [headers = data[0]], [rows = data[1:]],
    [pd.DataFrame(rows, columns=headers)] and the lookups of its columns:
    the data rows of the table, or the exception of the first statement
    that fails. *)
Definition response_table (r : response) : prog (list api_row) :=
match response_body r with
| NotJson => raise JSONDecodeError
| NotTable e => raise (table_exn e)
| Table data => ret data
end.

(** [df.to_csv(path, index=False)]. *)
Definition to_csv (path : string) (df : list annotated_row) : prog unit :=
emit (ToCsv path df).

(** ** fetch_b18105_data *)

Definition CENSUS_API_BASE : string :=
"https://api.census.gov/data/2023/acs/acs5".

Definition GENERATED_DIR : string := "generated".

(** [values.isin(tract_geoids)] on one value. *)
Definition isin (v : string) (values : list string) : bool :=
existsb (String.eqb v) values.

(** [df['state'] + df['county'] + df['tract']] on one row. *)
Definition api_GEOID (r : api_row) : string :=
api_state r ++ api_county r ++ api_tract r.

(** The DataFrame built from the response: [GEOID] from state, county and
    tract, the rows of the requested tracts, the variables made numeric. *)
Definition census_frame (data : list api_row) (tract_geoids : list string)
  : list census_row :=
let df := map (fun r => (api_GEOID r, r)) data in
let df := filter (fun gr => isin (fst gr) tract_geoids) df in
map (fun gr =>
       {| census_GEOID := fst gr;
          census_variables := map_variables to_numeric (api_variables (snd gr)) |})
    df.

(** The request URL for a state and a county. *)
Definition api_url (state_fips county_fips : string) : string :=
let var_string := String.concat "," variable_names in
(CENSUS_API_BASE ++ "?get=NAME," ++ var_string
 ++ "&for=tract:*&in=state:" ++ state_fips
 ++ "&in=county:" ++ county_fips)%string.

Definition fetch_b18105_data (w : env) (tract_geoids : list string)
  : prog (list census_row) :=
first_geoid <- match tract_geoids with
               | g :: _ => ret g
               | [] => raise IndexError
               end ;;
let state_fips := substring 0 2 first_geoid in
let county_fips := substring 2 3 first_geoid in
print (FetchingFor state_fips county_fips) ;;
let url := api_url state_fips county_fips in
print (ApiUrl url) ;;
try_except
  (response <- requests_get w url ;;
   raise_for_status response url ;;
   data <- response_table response ;;
   let df := census_frame data tract_geoids in
   print (Fetched (List.length df)) ;;
   ret df)
  is_RequestException
  (fun e => print_err (ErrorFetching e) ;; sys_exit 1).

(** ** main *)

Definition newline : string := String "010" EmptyString.

Definition output_file : string :=
(GENERATED_DIR ++ "/" ++ "tracts_within_1mile_annotated.csv")%string.

Definition main (w : env) : prog unit :=
print (Line "Reading generated/tracts_within_1mile.csv...") ;;
tracts_df <- read_csv w "generated/tracts_within_1mile.csv" ;;
print (Found (List.length tracts_df)) ;;
print (Tracts (map tract_GEOID tracts_df)) ;;
print (Line (newline ++ "Fetching Census B18105 data...")) ;;
census_df <- fetch_b18105_data w (map tract_GEOID tracts_df) ;;
print (Line (newline ++ "Calculating metrics...")) ;;
let metrics_df := calculate_metrics census_df in
print (Line (newline ++ "Merging data...")) ;;
let annotated_df := merge tracts_df metrics_df in
let missing :=
  filter (fun r : annotated_row => isna (total_pop_5plus r)) annotated_df in
(if (0 <? List.length missing)%nat
 then print (WarningMissing (List.length missing)) ;;
      print (MissingRows
               (map (fun r => (tract_GEOID (annotated_tract r),
                               NAMELSAD (annotated_tract r))) missing))
 else ret tt) ;;
print (Line (newline ++ "=== Summary Statistics ===")) ;;
print (SummaryStatistics annotated_df) ;;
print (Line (newline ++ "=== First 3 rows of annotated data ===")) ;;
print (FirstRows (firstn 3 annotated_df)) ;;
to_csv output_file annotated_df ;;
print (Saved output_file) ;;
print (Line (newline ++ "=== Data Quality Checks ===")) ;;
let errors := data_quality_checks annotated_df in
match errors with
| _ :: _ =>
    print (Line (String.concat newline errors)) ;;
    sys_exit 1
| [] =>
    print (Line "✓ All data quality checks passed!") ;;
    print (Line "✓ No errors found in the data")
end.

(** Running the script: the module body makes the output directory and
    calls [main]; an uncaught exception prints its traceback and the
    interpreter exits with status 1. *)
Definition run (w : env) : list event * Z :=
match (emit (Mkdir GENERATED_DIR) ;; main w) with
| (t, Return _) => (t, 0)
| (t, SysExit code) => (t, code)
| (t, Raise e) => (t ++ [PrintErr (Traceback e)], 1)
end.

(** ** Notions of the specification *)

(** [x1 + x2 + ... + xn], associated to the left as Python does. *)
Definition sum (xs : list cell) : cell :=
match xs with
| [] => of_Z 0
| x :: xs => fold_left add xs x
end.

(** The ten with-difficulty variables: five age bands, male then female. *)
Definition with_difficulty (v : variables cell) : list cell :=
[ B18105_004E v; B18105_007E v; B18105_010E v; B18105_013E v; B18105_016E v;
  B18105_020E v; B18105_023E v; B18105_026E v; B18105_029E v; B18105_032E v ].

(** The totals of the two oldest age bands, male then female. *)
Definition senior_totals (v : variables cell) : list cell :=
[ B18105_012E v; B18105_015E v; B18105_028E v; B18105_031E v ].

(** The with-difficulty variables of the two oldest age bands. *)
Definition senior_with_difficulty (v : variables cell) : list cell :=
[ B18105_013E v; B18105_016E v; B18105_029E v; B18105_032E v ].

(** [round(count / denominator * 100, 2)]. *)
Definition percentage (count denominator : cell) : cell :=
round 2 (div count denominator * of_Z 100)%f64.

(** A defined field: a number, neither missing nor infinite. *)
Definition defined (x : cell) : Prop := is_finite x = true.

Definition nonzero (x : cell) : Prop :=
is_finite x = true /\ is_zero x = false.

(** A row of the fetched table from integer values, in the order of
    [variable_names]. *)
Definition census_row_of (geoid : string) (v : list Z) : census_row :=
let n i := of_Z (nth i v 0) in
{| census_GEOID := geoid;
   census_variables :=
     {| B18105_001E := n 0%nat;
        B18105_004E := n 1%nat; B18105_007E := n 2%nat;
        B18105_010E := n 3%nat; B18105_013E := n 4%nat;
        B18105_016E := n 5%nat;
        B18105_020E := n 6%nat; B18105_023E := n 7%nat;
        B18105_026E := n 8%nat; B18105_029E := n 9%nat;
        B18105_032E := n 10%nat;
        B18105_012E := n 11%nat; B18105_015E := n 12%nat;
        B18105_028E := n 13%nat; B18105_031E := n 14%nat |} |}.

(** The example row of the specification: universe 1000, ten with-difficulty
    counts summing to 150, senior totals summing to 200, senior
    with-difficulty counts summing to 40. *)
Definition example_row : census_row :=
census_row_of "06075010800"
  [1000; 20; 20; 20; 10; 10; 20; 15; 15; 10; 10; 50; 50; 50; 50].

(** The example row when the API sends no estimate of the men of 65 to 74
    with a difficulty. *)
Definition missing_cell_row : census_row :=
{| census_GEOID := census_GEOID example_row;
   census_variables :=
     map_variables to_numeric
       {| B18105_001E := Numeral (of_Z 1000);
          B18105_004E := Numeral (of_Z 20); B18105_007E := Numeral (of_Z 20);
          B18105_010E := Numeral (of_Z 20); B18105_013E := Null;
          B18105_016E := Numeral (of_Z 10);
          B18105_020E := Numeral (of_Z 20); B18105_023E := Numeral (of_Z 15);
          B18105_026E := Numeral (of_Z 15); B18105_029E := Numeral (of_Z 10);
          B18105_032E := Numeral (of_Z 10);
          B18105_012E := Numeral (of_Z 50); B18105_015E := Numeral (of_Z 50);
          B18105_028E := Numeral (of_Z 50);
          B18105_031E := Numeral (of_Z 50) |} |}.

(** A tract in which nobody lives. *)
Definition empty_tract_row : census_row :=
census_row_of "06075980401" [0; 0; 0; 0; 0; 0; 0; 0; 0; 0; 0; 0; 0; 0; 0].

(** A row with an empty universe and five people with a difficulty. *)
Definition zero_universe_row : census_row :=
census_row_of "06075980401" [0; 5; 0; 0; 0; 0; 0; 0; 0; 0; 0; 0; 0; 0; 0].

(** A row without seniors and five seniors with a difficulty. *)
Definition zero_seniors_row : census_row :=
census_row_of "06075980401" [1000; 0; 0; 0; 5; 0; 0; 0; 0; 0; 0; 0; 0; 0; 0].

(** ** Notions of the numbers *)

(** A binary64 number: a mantissa of at most 53 bits at its exponent. *)
Definition valid (x : cell) : Prop := valid_binary prec emax x = true.

(** Not below zero, as the comparison sees it: not NaN either. *)
Definition nonneg (x : spec_float) : Prop :=
SFleb (S754_zero false) x = true.

(** A percentage between 0 and 100, as the comparisons of the source
    see it. *)
Definition in_range (p : cell) : Prop :=
leb (of_Z 0) p = true /\ leb p (of_Z 100) = true.

(** A number of a format to compare with: positive and canonical. *)
Definition format_bound (prec emax : Z) (mb : positive) (eb : Z) : Prop :=
fexp prec emax (Zdigits2 (Zpos mb) + eb) = eb /\ eb <= emax - prec.

(** [x] is zero, or positive and at most [mb * 2 ^ eb]. *)
Definition below (x : spec_float) (mb : positive) (eb : Z) : Prop :=
match x with
| S754_zero _ => True
| S754_finite false m e => e <= eb /\ Zpos m <= Zpos mb * 2 ^ (eb - e)
| _ => False
end.

(** Nothing but zeros has been shifted out. *)
Definition exact_record (mrs : shr_record) : Prop :=
shr_r mrs = false /\ shr_s mrs = false.

(** ** Notions of a run *)

(** The URL [main] requests for the tracts of the input table: the state
    and the county are those of the first identifier. *)
Definition request_url (tracts_df : list tract) : string :=
match tracts_df with
| t :: _ =>
    api_url (substring 0 2 (tract_GEOID t)) (substring 2 3 (tract_GEOID t))
| [] => ""
end.

(** The merged table of a run that read [tracts_df] and was answered with
    the rows [data]. *)
Definition annotate (tracts_df : list tract) (data : list api_row)
  : list annotated_row :=
merge tracts_df
  (calculate_metrics (census_frame data (map tract_GEOID tracts_df))).

(** The statuses on which [raise_for_status] raises. *)
Definition error_status (status : Z) : bool :=
(400 <=? status) && (status <? 600).

(** The run reads [tracts_df] and its request is answered by [r], which is
    not an HTTP error and whose body is the table of the rows [json r]. *)
Definition fetches (w : env) (tracts_df : list tract) (r : response) : Prop :=
tracts_csv w = Some tracts_df /\
tracts_df <> [] /\
census_api w (request_url tracts_df) = inr r /\
error_status (status_code r) = false /\
response_body r = Table (json r).

(** The request of the run fails with the exception [e]: the transport
    raises a [RequestException], or the response has an error status. *)
Inductive request_fails (w : env) (url : string) : exn -> Prop :=
| transport_failure e :
    census_api w url = inl e ->
    is_RequestException e = true ->
    request_fails w url e
| http_failure r :
    census_api w url = inr r ->
    error_status (status_code r) = true ->
    request_fails w url (HTTPError (status_code r) (reason r) url).

Definition is_Get (e : event) : bool :=
match e with Get _ => true | _ => false end.

Definition is_ToCsv (e : event) : bool :=
match e with ToCsv _ _ => true | _ => false end.

(** The nine checks of [main] in their order, each with its message and
    the condition [any] looks for in a row. *)
Definition checks : list (string * (annotated_row -> bool)) :=
map (fun '((col, column) : string * (metrics -> cell)) =>
       (("ERROR: Negative values found in " ++ col)%string,
        fun r : annotated_row => ltb (column r) (of_Z 0)))
    numeric_cols
++ [ ("ERROR: Total ambulatory difficulty exceeds total population",
      fun r : annotated_row => gtb (total_amb_diff r) (total_pop_5plus r));
     ("ERROR: 65+ ambulatory difficulty exceeds 65+ population",
      fun r : annotated_row => gtb (pop_65plus_amb_diff r) (pop_65plus r));
     ("ERROR: 65+ population exceeds total population",
      fun r : annotated_row => gtb (pop_65plus r) (total_pop_5plus r));
     ("ERROR: Total ambulatory difficulty percentage exceeds 100%",
      fun r : annotated_row => gtb (total_amb_diff_pct r) (of_Z 100));
     ("ERROR: 65+ ambulatory difficulty percentage exceeds 100%",
      fun r : annotated_row => gtb (pop_65plus_amb_diff_pct r) (of_Z 100)) ].

(** A row whose six derived columns are all missing. *)
Definition is_missing (r : annotated_row) : bool :=
isna (total_pop_5plus r) && isna (total_amb_diff r)
&& isna (total_amb_diff_pct r) && isna (pop_65plus r)
&& isna (pop_65plus_amb_diff r) && isna (pop_65plus_amb_diff_pct r).

(** An API row from integer values, in the order of [variable_names]. *)
Definition api_row_of (state county tract : string) (v : list Z) : api_row :=
{| api_NAME := "Census Tract";
   api_state := state; api_county := county; api_tract := tract;
   api_variables :=
     map_variables Numeral (census_row_of "" v) |}.

(** An API that answers every request with status 200 and the rows
    [data]. *)
Definition env_of (tracts_df : list tract) (data : list api_row) : env :=
{| tracts_csv := Some tracts_df;
   census_api := fun _ =>
     inr {| status_code := 200; reason := "OK";
            response_body := Table data |} |}.

(** An API that answers every request with status 500. *)
Definition env_500 (tracts_df : list tract) : env :=
{| tracts_csv := Some tracts_df;
   census_api := fun _ =>
     inr {| status_code := 500; reason := "Internal Server Error";
            response_body := Table [] |} |}.

(** An API that answers every request with status 304 and the rows
    [data]. *)
Definition env_304 (tracts_df : list tract) (data : list api_row) : env :=
{| tracts_csv := Some tracts_df;
   census_api := fun _ =>
     inr {| status_code := 304; reason := "Not Modified";
            response_body := Table data |} |}.

Definition tract_108 : tract :=
{| tract_GEOID := "06075010800";
   NAMELSAD := "Census Tract 108";
   tract_columns := [] |}.

Definition tract_109 : tract :=
{| tract_GEOID := "06075010900";
   NAMELSAD := "Census Tract 109";
   tract_columns := [] |}.

(** The response row of the example of the specification. *)
Definition example_api_row : api_row :=
api_row_of "06" "075" "010800"
  [1000; 20; 20; 20; 10; 10; 20; 15; 15; 10; 10; 50; 50; 50; 50].

(** A response row with 50 seniors with a difficulty among 40 seniors. *)
Definition senior_excess_row : api_row :=
api_row_of "06" "075" "010800"
  [1000; 0; 0; 0; 50; 0; 0; 0; 0; 0; 0; 40; 0; 0; 0].

(** A response row with negative estimates in all four count columns. *)
Definition negative_row : api_row :=
api_row_of "06" "075" "010800"
  [-3; 0; 0; 0; -1; 0; 0; 0; 0; 0; 0; -2; 0; 0; 0].

(** A response row with more people with a difficulty than people. *)
Definition excess_row : api_row :=
api_row_of "06" "075" "010900"
  [1; 0; 0; 0; 2; 0; 0; 0; 0; 0; 0; 1; 0; 0; 0].

(** The merged table of the run on [senior_excess_row]. *)
Definition senior_excess_df : list annotated_row :=
annotate [tract_108] [senior_excess_row].

(** The merged table of the run on [negative_row] and [excess_row]. *)
Definition nine_errors_df : list annotated_row :=
annotate [tract_108; tract_109] [negative_row; excess_row].

(** The first event of the checks. *)
Definition checks_header : event :=
Print (Line (newline ++ "=== Data Quality Checks ===")).

(** The events of a run in the order of the source, stage by stage. *)
Definition events_load (tracts_df : list tract) : list event :=
[ Mkdir GENERATED_DIR;
  Print (Line "Reading generated/tracts_within_1mile.csv...");
  ReadCsv "generated/tracts_within_1mile.csv";
  Print (Found (List.length tracts_df));
  Print (Tracts (map tract_GEOID tracts_df));
  Print (Line (newline ++ "Fetching Census B18105 data..."));
  Print (FetchingFor (substring 0 2 (hd "" (map tract_GEOID tracts_df)))
                     (substring 2 3 (hd "" (map tract_GEOID tracts_df))));
  Print (ApiUrl (request_url tracts_df)) ].

Definition events_fetch (tracts_df : list tract) (data : list api_row)
  : list event :=
[ Get (request_url tracts_df);
  Print (Fetched
           (List.length (census_frame data (map tract_GEOID tracts_df))));
  Print (Line (newline ++ "Calculating metrics..."));
  Print (Line (newline ++ "Merging data...")) ].

Definition missing_rows (annotated_df : list annotated_row)
  : list annotated_row :=
filter (fun r : annotated_row => isna (total_pop_5plus r)) annotated_df.

Definition events_warning (annotated_df : list annotated_row) : list event :=
match missing_rows annotated_df with
| [] => []
| missing =>
    [ Print (WarningMissing (List.length missing));
      Print (MissingRows
               (map (fun r => (tract_GEOID (annotated_tract r),
                               NAMELSAD (annotated_tract r))) missing)) ]
end.

Definition events_summary (annotated_df : list annotated_row) : list event :=
[ Print (Line (newline ++ "=== Summary Statistics ==="));
  Print (SummaryStatistics annotated_df);
  Print (Line (newline ++ "=== First 3 rows of annotated data ==="));
  Print (FirstRows (firstn 3 annotated_df)) ].

Definition events_save (annotated_df : list annotated_row) : list event :=
[ ToCsv output_file annotated_df;
  Print (Saved output_file) ].

Definition events_checks (annotated_df : list annotated_row) : list event :=
Print (Line (newline ++ "=== Data Quality Checks ==="))
:: match data_quality_checks annotated_df with
   | [] => [ Print (Line "✓ All data quality checks passed!");
             Print (Line "✓ No errors found in the data") ]
   | errors => [ Print (Line (String.concat newline errors)) ]
   end.

(** The exit status after the checks. *)
Definition status_of_checks (annotated_df : list annotated_row) : Z :=
match data_quality_checks annotated_df with
| [] => 0
| _ => 1
end.

(** ** Notions of the further properties *)

(** An event on the error stream. *)
Definition is_PrintErr (e : event) : bool :=
match e with PrintErr _ => true | _ => false end.

(** A response cell as the checks expect it: missing, or a non-negative
    binary64 number. *)
Definition count_cell (x : cell) : Prop :=
isna x = true \/ (valid x /\ nonneg x).

(** The response cell [c] is missing or unreadable, counted as 0, or it is
    the non-negative whole number [z]. *)
Definition whole_cell (c : api_cell) (z : Z) : Prop :=
match c with
| Null | Garbage _ => z = 0
| Numeral x => 0 <= z /\ x = of_Z z
end.

(** A response row whose fifteen cells are missing, unreadable or
    non-negative binary64 numbers. *)
Definition count_cells (a : api_row) : Prop :=
Forall count_cell (cells (map_variables to_numeric (api_variables a))).

(** [z1 + z2 + ... + zn] on whole numbers. *)
Definition Zsum (zs : list Z) : Z := fold_left Z.add zs 0.

(** A response row whose fifteen cells are missing, unreadable or
    non-negative whole numbers that add up to less than [2 ^ 53]. *)
Definition plausible (a : api_row) : Prop :=
exists v : variables Z,
  Forall2 whole_cell (cells (api_variables a)) (cells v) /\
  Zsum (cells v) < 2 ^ 53.

(** The selections of [calculate_metrics] on a row of whole numbers. *)
Definition whole_with_difficulty (v : variables Z) : list Z :=
[ B18105_004E v; B18105_007E v; B18105_010E v; B18105_013E v; B18105_016E v;
  B18105_020E v; B18105_023E v; B18105_026E v; B18105_029E v; B18105_032E v ].

Definition whole_senior_totals (v : variables Z) : list Z :=
[ B18105_012E v; B18105_015E v; B18105_028E v; B18105_031E v ].

Definition whole_senior_with_difficulty (v : variables Z) : list Z :=
[ B18105_013E v; B18105_016E v; B18105_029E v; B18105_032E v ].

(** The fetched row of the tract [geoid] whose cells are the whole numbers
    [v]. *)
Definition whole_row (geoid : string) (v : variables Z) : census_row :=
{| census_GEOID := geoid; census_variables := map_variables of_Z v |}.

(** A response row of whole numbers in which every count with a difficulty
    is at most its population, and the seniors are at most the universe. *)
Definition consistent (a : api_row) : Prop :=
exists v : variables Z,
  api_variables a = map_variables (fun z => Numeral (of_Z z)) v /\
  Forall (fun z => 0 <= z) (cells v) /\
  B18105_001E v < 2 ^ 53 /\
  Zsum (whole_with_difficulty v) <= B18105_001E v /\
  Zsum (whole_senior_with_difficulty v) <= Zsum (whole_senior_totals v) /\
  Zsum (whole_senior_totals v) <= B18105_001E v.

(** A response row whose universe cell is a number. *)
Definition universe_known (a : api_row) : Prop :=
isna (to_numeric (B18105_001E (api_variables a))) = false.

(** The whole numbers of the example row. *)
Definition example_counts : variables Z :=
{| B18105_001E := 1000;
   B18105_004E := 20; B18105_007E := 20; B18105_010E := 20;
   B18105_013E := 10; B18105_016E := 10;
   B18105_020E := 20; B18105_023E := 15; B18105_026E := 15;
   B18105_029E := 10; B18105_032E := 10;
   B18105_012E := 50; B18105_015E := 50;
   B18105_028E := 50; B18105_031E := 50 |}.

(** The whole numbers of [senior_excess_row]. *)
Definition senior_excess_counts : variables Z :=
{| B18105_001E := 1000;
   B18105_004E := 0; B18105_007E := 0; B18105_010E := 0;
   B18105_013E := 50; B18105_016E := 0;
   B18105_020E := 0; B18105_023E := 0; B18105_026E := 0;
   B18105_029E := 0; B18105_032E := 0;
   B18105_012E := 40; B18105_015E := 0;
   B18105_028E := 0; B18105_031E := 0 |}.

(** A tract of another county. *)
Definition tract_6001 : tract :=
{| tract_GEOID := "06081600100";
   NAMELSAD := "Census Tract 6001";
   tract_columns := [] |}.

(** A row of whole numbers whose ten with-difficulty counts add up to
    [2 ^ 63], among [10 ^ 19] people. *)
Definition wrapped_row : variables Z :=
{| B18105_001E := 10 ^ 19;
   B18105_004E := 2 ^ 62; B18105_007E := 2 ^ 62; B18105_010E := 0;
   B18105_013E := 0; B18105_016E := 0;
   B18105_020E := 0; B18105_023E := 0; B18105_026E := 0;
   B18105_029E := 0; B18105_032E := 0;
   B18105_012E := 0; B18105_015E := 0;
   B18105_028E := 0; B18105_031E := 0 |}.

(** * Properties *)

(** ** Rounding never makes a NaN *)

Section NotNaN.
Variables prec emax : Z.

Lemma shr_1_nonneg mrs : 0 <= shr_m mrs -> 0 <= shr_m (shr_1 mrs).
Proof.
  destruct mrs as [m r s]; simpl.
  destruct m as [|[p|p|]|[p|p|]]; simpl; lia.
Qed.

Lemma iter_shr_1_nonneg p :
  forall mrs, 0 <= shr_m mrs -> 0 <= shr_m (iter_pos shr_1 p mrs).
Proof.
  induction p as [p IH|p IH|]; intros mrs H; simpl.
  - apply IH, IH, shr_1_nonneg, H.
  - apply IH, IH, H.
  - apply shr_1_nonneg, H.
Qed.

Lemma shr_fexp_nonneg m e l :
  0 <= m -> 0 <= shr_m (fst (shr_fexp prec emax m e l)).
Proof.
  intros H. unfold shr_fexp, shr.
  assert (H0 : 0 <= shr_m (shr_record_of_loc m l))
    by (destruct l as [|[| |]]; exact H).
  destruct (fexp prec emax (Zdigits2 m + e) - e); simpl; auto.
  apply iter_shr_1_nonneg, H0.
Qed.

Lemma round_nearest_even_nonneg m l : 0 <= m -> 0 <= round_nearest_even m l.
Proof.
  intros H. destruct l as [|[| |]]; simpl; try lia.
  destruct (Z.even m); lia.
Qed.

Lemma binary_round_aux_not_nan s mx ex lx :
  0 <= mx -> binary_round_aux prec emax s mx ex lx <> S754_nan.
Proof.
  intros H. unfold binary_round_aux.
  pose proof (shr_fexp_nonneg mx ex lx H) as H1.
  destruct (shr_fexp prec emax mx ex lx) as [mrs' e']. simpl in H1.
  pose proof (shr_fexp_nonneg _ e' loc_Exact
                (round_nearest_even_nonneg _ (loc_of_shr_record mrs') H1)) as H2.
  destruct (shr_fexp prec emax _ e' loc_Exact) as [mrs'' e'']. simpl in H2.
  destruct (shr_m mrs'') as [|m|m]; try discriminate; try lia.
  destruct (e'' <=? emax - prec); discriminate.
Qed.

Lemma binary_round_not_nan s m e : binary_round prec emax s m e <> S754_nan.
Proof.
  unfold binary_round.
  destruct (shl_align m e _) as [mz ez].
  apply binary_round_aux_not_nan. lia.
Qed.

Lemma binary_normalize_not_nan m e s :
  binary_normalize prec emax m e s <> S754_nan.
Proof.
  destruct m; simpl; try discriminate; apply binary_round_not_nan.
Qed.

Lemma SFadd_not_nan x y :
  x <> S754_nan -> is_finite y = true -> SFadd prec emax x y <> S754_nan.
Proof.
  intros Hx Hy.
  destruct x as [sx|sx| |sx mx ex], y as [sy|sy| |sy my ey];
    try discriminate; try congruence; simpl.
  - destruct sx, sy; discriminate.
  - apply binary_normalize_not_nan.
Qed.

Lemma SFmul_not_nan x y :
  x <> S754_nan -> nonzero y -> SFmul prec emax x y <> S754_nan.
Proof.
  intros Hx [Hy Hy0].
  destruct x as [sx|sx| |sx mx ex], y as [sy|sy| |sy my ey];
    try discriminate; try congruence; simpl.
  apply binary_round_aux_not_nan. lia.
Qed.

Lemma SFdiv_not_nan x y :
  x <> S754_nan -> nonzero y -> SFdiv prec emax x y <> S754_nan.
Proof.
  intros Hx [Hy Hy0].
  destruct x as [sx|sx| |sx mx ex], y as [sy|sy| |sy my ey];
    try discriminate; try congruence; simpl.
  unfold SFdiv_core_binary.
  set (m' := match _ - _ - _ with Z0 => _ | Zpos _ => _ | Zneg _ => _ end).
  assert (Hm : 0 <= m').
  { subst m'. destruct (_ - _ - _); try lia. apply Z.shiftl_nonneg. lia. }
  pose proof (Z.div_pos m' (Zpos my) Hm eq_refl) as Hq.
  unfold Z.div in Hq.
  destruct (Z.div_eucl m' (Zpos my)) as [q r]. simpl in Hq.
  apply binary_round_aux_not_nan, Hq.
Qed.

End NotNaN.

Lemma rint_not_nan x : x <> nan -> rint x <> nan.
Proof.
  intros H. destruct x as [s|s| |s m [|p|p]]; try exact H; try discriminate.
  simpl.
  destruct (round_nearest_even _ _); try discriminate.
  apply binary_round_not_nan.
Qed.

Lemma nonzero_100 : nonzero (of_Z 100).
Proof. split; reflexivity. Qed.

Lemma round_2_not_nan x : x <> nan -> round 2 x <> nan.
Proof.
  intros H. unfold round.
  change (of_Z (10 ^ Z.of_nat 2)) with (of_Z 100).
  apply SFdiv_not_nan; [|exact nonzero_100].
  apply rint_not_nan, SFmul_not_nan; [exact H|exact nonzero_100].
Qed.

Lemma percentage_not_nan count denominator :
  count <> nan -> nonzero denominator -> percentage count denominator <> nan.
Proof.
  intros Hc Hd. unfold percentage.
  apply round_2_not_nan, SFmul_not_nan; [|exact nonzero_100].
  apply SFdiv_not_nan; assumption.
Qed.

Lemma fillna_not_nan v x : x <> nan -> fillna v x = x.
Proof. intros H. destruct x; try reflexivity. now elim H. Qed.

Lemma sum_not_nan x xs :
  Forall defined (x :: xs) -> sum (x :: xs) <> nan.
Proof.
  simpl. intros H. inversion H as [|? ? Hx Hxs]; subst. clear H.
  assert (Hx' : x <> nan) by (destruct x; discriminate).
  clear Hx. revert x Hx'.
  induction Hxs as [|y ys Hy _ IH]; intros x Hx; simpl; [exact Hx|].
  apply IH, SFadd_not_nan; assumption.
Qed.

(** ** NaN is absorbing *)

Lemma add_nan_r x : add x nan = nan.
Proof. destruct x; reflexivity. Qed.

Lemma div_nan_r x : div x nan = nan.
Proof. destruct x; reflexivity. Qed.

Lemma isna_nan x : isna x = true -> x = nan.
Proof. destruct x; try discriminate; reflexivity. Qed.

Lemma fold_add_nan xs : fold_left add xs nan = nan.
Proof. induction xs as [|x xs IH]; simpl; auto. Qed.

Lemma sum_nan xs : Exists (fun x => isna x = true) xs -> sum xs = nan.
Proof.
  destruct xs as [|x xs]; intros H; [inversion H|]. simpl.
  revert x H. induction xs as [|y ys IH]; intros x H.
  - inversion H as [? ? Hx|? ? Hx]; subst; [apply isna_nan, Hx|inversion Hx].
  - simpl. inversion H as [? ? Hx|? ? Hx]; subst.
    + apply isna_nan in Hx. subst x. apply fold_add_nan.
    + apply IH. inversion Hx as [? ? Hy|? ? Hy]; subst.
      * apply isna_nan in Hy. subst y. rewrite add_nan_r. now left.
      * now right.
Qed.

Lemma percentage_nan_r c : percentage c nan = nan.
Proof. unfold percentage. rewrite div_nan_r. reflexivity. Qed.

(** ** calculate_metrics *)

(** The columns of [calculate_metrics_row], read off its definition. *)
Lemma calculate_metrics_row_columns (df : census_row) :
  let m := calculate_metrics_row df in
  metrics_GEOID m = census_GEOID df /\
  total_pop_5plus m = B18105_001E df /\
  total_amb_diff m = sum (with_difficulty df) /\
  total_amb_diff_pct m =
    fillna (of_Z 0) (percentage (total_amb_diff m) (total_pop_5plus m)) /\
  pop_65plus m = sum (senior_totals df) /\
  pop_65plus_amb_diff m = sum (senior_with_difficulty df) /\
  pop_65plus_amb_diff_pct m =
    fillna (of_Z 0) (percentage (pop_65plus_amb_diff m) (pop_65plus m)).
Proof.
  unfold calculate_metrics_row, percentage, sum, with_difficulty,
    senior_totals, senior_with_difficulty.
  cbn -[add mul div round fillna of_Z].
  repeat (split; [reflexivity|]). reflexivity.
Qed.

Lemma metrics_eta (c : metrics) :
  c = {| total_pop_5plus := total_pop_5plus c;
         total_amb_diff := total_amb_diff c;
         total_amb_diff_pct := total_amb_diff_pct c;
         pop_65plus := pop_65plus c;
         pop_65plus_amb_diff := pop_65plus_amb_diff c;
         pop_65plus_amb_diff_pct := pop_65plus_amb_diff_pct c |}.
Proof. destruct c; reflexivity. Qed.

Lemma cells_Forall (P : cell -> Prop) (df : census_row) :
  Forall P (cells df) ->
  P (B18105_001E df) /\
  Forall P (with_difficulty df) /\
  Forall P (senior_totals df) /\
  Forall P (senior_with_difficulty df).
Proof.
  intros H. unfold cells in H.
  repeat match goal with
         | H : Forall _ (_ :: _) |- _ => inversion_clear H
         end.
  unfold with_difficulty, senior_totals, senior_with_difficulty.
  split; [assumption|]. repeat split; repeat constructor; assumption.
Qed.

(** C1, as the specification states it, fails on a tract in which nobody
    lives: every field of the row is defined, the percentage the source
    returns is 0, and [round(0 / 0 * 100, 2)] is NaN. *)
Lemma percentage_formula_fails_on_empty_tract :
  Forall defined (cells empty_tract_row) /\
  let m := calculate_metrics_row empty_tract_row in
  total_amb_diff_pct m = of_Z 0 /\
  percentage (total_amb_diff m) (total_pop_5plus m) = nan /\
  total_amb_diff_pct m <> percentage (total_amb_diff m) (total_pop_5plus m).
Proof.
  split.
  - repeat constructor.
  - vm_compute. repeat split. discriminate.
Qed.

(** On float64 columns with all fields defined the counts are the binary64
    sums; each percentage is [round(count / denominator * 100, 2)] when its
    denominator is a non-zero number, and 0 when count and denominator are
    both 0. *)
Lemma calculate_metrics_row_float64 (df : census_row) :
  Forall defined (cells df) ->
  let m := calculate_metrics_row df in
  total_pop_5plus m = B18105_001E df /\
  total_amb_diff m = sum (with_difficulty df) /\
  pop_65plus m = sum (senior_totals df) /\
  pop_65plus_amb_diff m = sum (senior_with_difficulty df) /\
  (nonzero (total_pop_5plus m) ->
   total_amb_diff_pct m = percentage (total_amb_diff m) (total_pop_5plus m)) /\
  (nonzero (pop_65plus m) ->
   pop_65plus_amb_diff_pct m =
     percentage (pop_65plus_amb_diff m) (pop_65plus m)) /\
  (is_zero (total_amb_diff m) = true -> is_zero (total_pop_5plus m) = true ->
   total_amb_diff_pct m = of_Z 0) /\
  (is_zero (pop_65plus_amb_diff m) = true -> is_zero (pop_65plus m) = true ->
   pop_65plus_amb_diff_pct m = of_Z 0) /\
  (B18105_001E df = of_Z 1000 ->
   sum (with_difficulty df) = of_Z 150 ->
   sum (senior_totals df) = of_Z 200 ->
   sum (senior_with_difficulty df) = of_Z 40 ->
   metrics_columns m =
     {| total_pop_5plus := of_Z 1000;
        total_amb_diff := of_Z 150;
        total_amb_diff_pct := of_Z 15;
        pop_65plus := of_Z 200;
        pop_65plus_amb_diff := of_Z 40;
        pop_65plus_amb_diff_pct := of_Z 20 |}).
Proof.
  intros Hdef m.
  destruct (cells_Forall _ df Hdef) as (_ & Hwd & Hst & Hswd).
  destruct (calculate_metrics_row_columns df)
    as (_ & Htp & Hta & Htpct & Hsp & Hsa & Hspct).
  fold m in Htp, Hta, Htpct, Hsp, Hsa, Hspct.
  do 4 (split; [assumption|]).
  split; [|split; [|split; [|split]]].
  - intros Hnz. rewrite Htpct. apply fillna_not_nan, percentage_not_nan.
    + rewrite Hta. apply sum_not_nan, Hwd.
    + exact Hnz.
  - intros Hnz. rewrite Hspct. apply fillna_not_nan, percentage_not_nan.
    + rewrite Hsa. apply sum_not_nan, Hswd.
    + exact Hnz.
  - intros Hc Hd. rewrite Htpct.
    destruct (total_amb_diff m); try discriminate.
    destruct (total_pop_5plus m); try discriminate. vm_compute. reflexivity.
  - intros Hc Hd. rewrite Hspct.
    destruct (pop_65plus_amb_diff m); try discriminate.
    destruct (pop_65plus m); try discriminate. vm_compute. reflexivity.
  - intros H1 H2 H3 H4.
    rewrite (metrics_eta m), Htpct, Hspct, Htp, Hta, Hsp, Hsa, H1, H2, H3, H4.
    vm_compute. reflexivity.
Qed.

(** C2 at its failing inputs: with an empty universe and five people with a
    difficulty the percentage is [inf], and so is the percentage of seniors
    with five seniors with a difficulty among no seniors; [fillna] keeps an
    infinity, and the check of percentages above 100 sees it. *)
Theorem division_by_zero_gives_inf :
  (let m := calculate_metrics_row zero_universe_row in
   is_zero (total_pop_5plus m) = true /\
   total_amb_diff m = of_Z 5 /\
   total_amb_diff_pct m = inf /\
   total_amb_diff_pct m <> of_Z 0 /\
   gtb (total_amb_diff_pct m) (of_Z 100) = true) /\
  (let m := calculate_metrics_row zero_seniors_row in
   is_zero (pop_65plus m) = true /\
   pop_65plus_amb_diff m = of_Z 5 /\
   pop_65plus_amb_diff_pct m = inf /\
   pop_65plus_amb_diff_pct m <> of_Z 0 /\
   gtb (pop_65plus_amb_diff_pct m) (of_Z 100) = true).
Proof. vm_compute. repeat split; discriminate. Qed.

(** C7: a count with an undefined summand is undefined, not zero-filled, and
    only its percentage is resolved to 0; a missing or unreadable response
    cell is undefined; the result is a function of the row alone. *)
Theorem undefined_counts_propagate (df : census_row) :
  let m := calculate_metrics_row df in
  let undefined x := isna x = true in
  (undefined (B18105_001E df) ->
   total_pop_5plus m = nan /\ total_amb_diff_pct m = of_Z 0) /\
  (Exists undefined (with_difficulty df) ->
   total_amb_diff m = nan /\ total_amb_diff_pct m = of_Z 0) /\
  (Exists undefined (senior_totals df) ->
   pop_65plus m = nan /\ pop_65plus_amb_diff_pct m = of_Z 0) /\
  (Exists undefined (senior_with_difficulty df) ->
   pop_65plus_amb_diff m = nan /\ pop_65plus_amb_diff_pct m = of_Z 0) /\
  to_numeric Null = nan /\
  (forall s, to_numeric (Garbage s) = nan) /\
  (forall df', df' = df -> calculate_metrics_row df' = m).
Proof.
  intros m undefined.
  destruct (calculate_metrics_row_columns df)
    as (_ & Htp & Hta & Htpct & Hsp & Hsa & Hspct).
  fold m in Htp, Hta, Htpct, Hsp, Hsa, Hspct.
  split; [|split; [|split; [|split; [|split; [|split]]]]].
  - intros H. split.
    + rewrite Htp. apply isna_nan, H.
    + rewrite Htpct, Htp, (isna_nan _ H), percentage_nan_r. reflexivity.
  - intros H. split.
    + rewrite Hta. apply sum_nan, H.
    + rewrite Htpct, Hta, (sum_nan _ H). reflexivity.
  - intros H. split.
    + rewrite Hsp. apply sum_nan, H.
    + rewrite Hspct, Hsp, (sum_nan _ H), percentage_nan_r. reflexivity.
  - intros H. split.
    + rewrite Hsa. apply sum_nan, H.
    + rewrite Hspct, Hsa, (sum_nan _ H). reflexivity.
  - reflexivity.
  - reflexivity.
  - intros df' ->. reflexivity.
Qed.

Lemma undefined_counts_propagate_witness :
  let m := calculate_metrics_row missing_cell_row in
  (total_amb_diff m = nan /\ total_amb_diff_pct m = of_Z 0) /\
  (pop_65plus_amb_diff m = nan /\ pop_65plus_amb_diff_pct m = of_Z 0).
Proof.
  destruct (undefined_counts_propagate missing_cell_row)
    as (_ & Hw & _ & Hs & _).
  split.
  - apply Hw. do 3 apply Exists_cons_tl. apply Exists_cons_hd. reflexivity.
  - apply Hs. apply Exists_cons_hd. reflexivity.
Defined.

(** ** Digits and shifts *)

Lemma digits2_pos_size p : digits2_pos p = Pos.size p.
Proof. induction p; simpl; congruence. Qed.

Lemma Zdigits2_bounds m :
  0 < m -> 2 ^ (Zdigits2 m - 1) <= m < 2 ^ Zdigits2 m.
Proof.
  destruct m as [|p|p]; try lia. intros _. cbn [Zdigits2].
  rewrite digits2_pos_size. split.
  - pose proof (Pos.size_le p) as H.
    assert (H' : (2 ^ Pos.size p <= 2 * p)%positive) by exact H.
    apply Pos2Z.pos_le_pos in H'. rewrite Pos2Z.inj_mul, Pos2Z.inj_pow in H'.
    replace (Zpos (Pos.size p)) with (Zpos (Pos.size p) - 1 + 1) in H' by lia.
    rewrite Z.pow_add_r in H' by lia. change (2 ^ 1) with 2 in H'.
    lia.
  - pose proof (Pos.size_gt p) as H.
    apply Pos2Z.pos_lt_pos in H. rewrite Pos2Z.inj_pow in H. exact H.
Qed.

Lemma Zdigits2_nonneg m : 0 <= Zdigits2 m.
Proof. destruct m; simpl; lia. Qed.

Lemma Zdigits2_pos m : 0 < m -> 0 < Zdigits2 m.
Proof. destruct m; simpl; lia. Qed.

(** A positive number below [2 ^ k] has at most [k] digits. *)
Lemma Zdigits2_le_of_lt m k : 0 <= m -> m < 2 ^ k -> 0 <= k -> Zdigits2 m <= k.
Proof.
  intros Hm Hlt Hk.
  destruct (Z.eq_dec m 0) as [->|Hne]; [exact Hk|].
  destruct (Zdigits2_bounds m ltac:(lia)) as [Hlo _].
  destruct (Z_le_gt_dec (Zdigits2 m) k) as [|Hgt]; [assumption|].
  assert (2 ^ k <= 2 ^ (Zdigits2 m - 1)) by (apply Z.pow_le_mono_r; lia).
  lia.
Qed.

(** A number from [2 ^ k] on has more than [k] digits. *)
Lemma Zdigits2_gt_of_le m k : 0 <= k -> 2 ^ k <= m -> k < Zdigits2 m.
Proof.
  intros Hk Hle.
  assert (Hm : 0 < m) by (pose proof (Z.pow_pos_nonneg 2 k); lia).
  destruct (Zdigits2_bounds m Hm) as [_ Hhi].
  destruct (Z_lt_le_dec k (Zdigits2 m)) as [|Hge]; [assumption|].
  assert (2 ^ Zdigits2 m <= 2 ^ k)
    by (apply Z.pow_le_mono_r; [lia|exact Hge]).
  lia.
Qed.

Lemma Zdigits2_mono a b : 0 <= a -> a <= b -> Zdigits2 a <= Zdigits2 b.
Proof.
  intros Ha Hab.
  destruct (Z.eq_dec a 0) as [->|Hne]; [apply Zdigits2_nonneg|].
  destruct (Zdigits2_bounds b ltac:(lia)) as [_ Hhi].
  apply Zdigits2_le_of_lt; [lia|lia|apply Zdigits2_nonneg].
Qed.

(** The digits of a quotient by a power of two, when it is not zero. *)
Lemma Zdigits2_div_pow2 m n :
  0 <= n -> 0 < m / 2 ^ n -> Zdigits2 (m / 2 ^ n) = Zdigits2 m - n.
Proof.
  intros Hn Hq.
  assert (Hp : 0 < 2 ^ n) by (apply Z.pow_pos_nonneg; lia).
  assert (Hm : 0 < m).
  { destruct (Z_lt_le_dec 0 m) as [|Hle]; [assumption|].
    assert (m / 2 ^ n <= 0) by (apply Z.div_le_upper_bound; lia). lia. }
  destruct (Zdigits2_bounds m Hm) as [Hlo Hhi].
  assert (Hdn : n < Zdigits2 m).
  { destruct (Z_lt_le_dec n (Zdigits2 m)) as [|Hge]; [assumption|].
    assert (2 ^ Zdigits2 m <= 2 ^ n)
      by (apply Z.pow_le_mono_r; [lia|exact Hge]).
    rewrite Z.div_small in Hq by lia. lia. }
  apply Z.le_antisymm.
  - apply Zdigits2_le_of_lt; [lia| |lia].
    apply Z.div_lt_upper_bound; [exact Hp|].
    rewrite <- Z.pow_add_r by lia.
    replace (n + (Zdigits2 m - n)) with (Zdigits2 m) by lia. exact Hhi.
  - assert (Zdigits2 m - n - 1 < Zdigits2 (m / 2 ^ n)); [|lia].
    apply Zdigits2_gt_of_le; [lia|].
    apply Z.div_le_lower_bound; [exact Hp|].
    rewrite <- Z.pow_add_r by lia.
    replace (n + (Zdigits2 m - n - 1)) with (Zdigits2 m - 1) by lia.
    exact Hlo.
Qed.

Lemma Zdigits2_mul_pow2 m n :
  0 < m -> 0 <= n -> Zdigits2 (m * 2 ^ n) = Zdigits2 m + n.
Proof.
  intros Hm Hn.
  assert (Hp : 0 < 2 ^ n) by (apply Z.pow_pos_nonneg; lia).
  destruct (Zdigits2_bounds m Hm) as [Hlo Hhi].
  pose proof (Zdigits2_pos m Hm) as Hd.
  apply Z.le_antisymm.
  - apply Zdigits2_le_of_lt; [nia| |lia].
    rewrite Z.pow_add_r by lia. nia.
  - assert (Zdigits2 m + n - 1 < Zdigits2 (m * 2 ^ n)); [|lia].
    apply Zdigits2_gt_of_le; [lia|].
    replace (Zdigits2 m + n - 1) with (Zdigits2 m - 1 + n) by lia.
    rewrite Z.pow_add_r by lia. nia.
Qed.

Lemma pow2_xO p : 2 ^ Zpos p~0 = 2 ^ Zpos p * 2 ^ Zpos p.
Proof.
  rewrite <- Z.pow_add_r by lia. f_equal. lia.
Qed.

Lemma pow2_xI p : 2 ^ Zpos p~1 = 2 * (2 ^ Zpos p * 2 ^ Zpos p).
Proof.
  rewrite <- Z.pow_add_r, <- Z.pow_succ_r by lia. f_equal. lia.
Qed.

Lemma shr_1_m mrs : 0 <= shr_m mrs -> shr_m (shr_1 mrs) = shr_m mrs / 2.
Proof.
  destruct mrs as [m r s]. cbn [shr_m shr_1].
  destruct m as [|[p|p|]|p]; intros H; cbn [shr_m]; try lia.
  - reflexivity.
  - apply Z.div_unique with (r := 1); lia.
  - apply Z.div_unique with (r := 0); lia.
  - reflexivity.
Qed.

Lemma iter_shr_1_m p :
  forall mrs, 0 <= shr_m mrs ->
  shr_m (iter_pos shr_1 p mrs) = shr_m mrs / 2 ^ Zpos p.
Proof.
  induction p as [p IH|p IH|]; intros mrs H; cbn [iter_pos].
  - pose proof (shr_1_nonneg mrs H) as H1.
    pose proof (iter_shr_1_nonneg p _ H1) as H2.
    rewrite (IH _ H2), (IH _ H1), (shr_1_m _ H).
    assert (Hp : 0 < 2 ^ Zpos p) by (apply Z.pow_pos_nonneg; lia).
    rewrite !Z.div_div by lia. f_equal.
    rewrite pow2_xI. lia.
  - pose proof (iter_shr_1_nonneg p _ H) as H2.
    rewrite (IH _ H2), (IH _ H).
    assert (Hp : 0 < 2 ^ Zpos p) by (apply Z.pow_pos_nonneg; lia).
    rewrite !Z.div_div by lia. f_equal.
    rewrite pow2_xO. lia.
  - rewrite (shr_1_m _ H). reflexivity.
Qed.

Lemma shr_1_exact mrs k :
  exact_record mrs -> 0 <= shr_m mrs -> shr_m mrs = 2 * k ->
  exact_record (shr_1 mrs).
Proof.
  destruct mrs as [m r s]. unfold exact_record. cbn [shr_m shr_r shr_s].
  intros [-> ->] Hm Hk.
  destruct m as [|[p|p|]|p]; cbn; try lia; auto.
Qed.

Lemma iter_shr_1_exact p :
  forall mrs k,
  exact_record mrs -> 0 <= shr_m mrs -> shr_m mrs = k * 2 ^ Zpos p ->
  exact_record (iter_pos shr_1 p mrs).
Proof.
  induction p as [p IH|p IH|]; intros mrs k He Hm Hk; cbn [iter_pos].
  - assert (Hp : 0 < 2 ^ Zpos p) by (apply Z.pow_pos_nonneg; lia).
    rewrite pow2_xI in Hk.
    pose proof (shr_1_nonneg mrs Hm) as H1.
    pose proof (iter_shr_1_nonneg p _ H1) as H2.
    assert (E1 : exact_record (shr_1 mrs))
      by (apply (shr_1_exact mrs (k * 2 ^ Zpos p * 2 ^ Zpos p)); auto; lia).
    assert (M1 : shr_m (shr_1 mrs) = k * 2 ^ Zpos p * 2 ^ Zpos p).
    { rewrite (shr_1_m _ Hm), Hk. symmetry.
      apply Z.div_unique with (r := 0); lia. }
    assert (E2 : exact_record (iter_pos shr_1 p (shr_1 mrs)))
      by (apply (IH _ (k * 2 ^ Zpos p)); auto).
    apply (IH _ k); auto.
    rewrite (iter_shr_1_m p _ H1), M1. apply Z.div_mul. lia.
  - assert (Hp : 0 < 2 ^ Zpos p) by (apply Z.pow_pos_nonneg; lia).
    rewrite pow2_xO in Hk.
    pose proof (iter_shr_1_nonneg p _ Hm) as H2.
    assert (E2 : exact_record (iter_pos shr_1 p mrs))
      by (apply (IH _ (k * 2 ^ Zpos p)); auto; lia).
    apply (IH _ k); auto.
    rewrite (iter_shr_1_m p _ Hm), Hk, Z.mul_assoc. apply Z.div_mul. lia.
  - apply (shr_1_exact mrs k); auto. rewrite Hk. change (2 ^ 1) with 2. lia.
Qed.

Lemma loc_of_exact_record mrs :
  exact_record mrs -> loc_of_shr_record mrs = loc_Exact.
Proof. destruct mrs as [m r s]. intros [H1 H2]. cbn in *. now subst. Qed.

Lemma shr_record_of_loc_m m l : shr_m (shr_record_of_loc m l) = m.
Proof. destruct l as [|[| |]]; reflexivity. Qed.

Lemma loc_of_shr_record_of_loc m l :
  loc_of_shr_record (shr_record_of_loc m l) = l.
Proof. destruct l as [|[| |]]; reflexivity. Qed.

Lemma round_nearest_even_le m l : round_nearest_even m l <= m + 1.
Proof.
  destruct l as [|[| |]]; cbn; try lia. destruct (Z.even m); lia.
Qed.

Lemma round_nearest_even_ge m l : m <= round_nearest_even m l.
Proof.
  destruct l as [|[| |]]; cbn; try lia. destruct (Z.even m); lia.
Qed.

(** Shifting [m] right by [n] bits and rounding to nearest even stays below
    an integer [K] when [m] is below [K * 2 ^ n]. *)
Lemma shr_round_le m l e n K :
  0 <= m -> 0 <= n -> m <= K * 2 ^ n ->
  (m = K * 2 ^ n -> l = loc_Exact) ->
  let mrs := fst (shr (shr_record_of_loc m l) e n) in
  snd (shr (shr_record_of_loc m l) e n) = e + n /\
  shr_m mrs = m / 2 ^ n /\
  round_nearest_even (shr_m mrs) (loc_of_shr_record mrs) <= K.
Proof.
  intros Hm Hn Hle Hex.
  assert (Hm' : 0 <= shr_m (shr_record_of_loc m l))
    by (rewrite shr_record_of_loc_m; exact Hm).
  destruct n as [|p|p]; try lia; cbn [shr fst snd].
  - rewrite Z.add_0_r, shr_record_of_loc_m, loc_of_shr_record_of_loc.
    change (2 ^ 0) with 1 in *. rewrite Z.div_1_r. repeat split.
    destruct (Z.eq_dec m K) as [E|E].
    + rewrite Hex by lia. cbn. lia.
    + pose proof (round_nearest_even_le m l). lia.
  - assert (Hp : 0 < 2 ^ Zpos p) by (apply Z.pow_pos_nonneg; lia).
    rewrite (iter_shr_1_m p _ Hm'), shr_record_of_loc_m.
    repeat split.
    assert (Hq : m / 2 ^ Zpos p <= K) by (apply Z.div_le_upper_bound; lia).
    destruct (Z.eq_dec (m / 2 ^ Zpos p) K) as [E|E].
    + assert (Hmk : m = K * 2 ^ Zpos p).
      { pose proof (Z.mul_div_le m (2 ^ Zpos p) Hp). nia. }
      rewrite loc_of_exact_record; [cbn; lia|].
      apply (iter_shr_1_exact p _ K); auto.
      * rewrite (Hex Hmk). split; reflexivity.
      * now rewrite shr_record_of_loc_m.
    + pose proof (round_nearest_even_le (m / 2 ^ Zpos p)
                    (loc_of_shr_record
                       (iter_pos shr_1 p (shr_record_of_loc m l)))).
      lia.
Qed.

Lemma shr_spec mrs e n :
  0 <= shr_m mrs -> 0 <= n ->
  snd (shr mrs e n) = e + n /\
  shr_m (fst (shr mrs e n)) = shr_m mrs / 2 ^ n.
Proof.
  intros Hm Hn. destruct n as [|p|p]; try lia; cbn [shr fst snd].
  - rewrite Z.add_0_r. change (2 ^ 0) with 1. now rewrite Z.div_1_r.
  - split; [reflexivity|]. now apply iter_shr_1_m.
Qed.

Lemma pow2_pos n : 0 <= n -> 0 < 2 ^ n.
Proof. intros H. apply Z.pow_pos_nonneg; lia. Qed.

Lemma pow2_split a b : 0 <= a -> 0 <= b -> 2 ^ (a + b) = 2 ^ a * 2 ^ b.
Proof. intros. apply Z.pow_add_r; assumption. Qed.

(** ** Rounding to the format *)

Section Rounding.
Variables prec emax : Z.
Hypothesis Hprec : 0 < prec.

Local Abbreviation fexp := (fexp prec emax).
Local Abbreviation emin := (emin prec emax).
Local Abbreviation format_bound := (format_bound prec emax).

Lemma fexp_mono a b : a <= b -> fexp a <= fexp b.
Proof. unfold SpecFloat.fexp. lia. Qed.

Lemma fexp_ge_emin a : emin <= fexp a.
Proof. unfold SpecFloat.fexp. lia. Qed.

Lemma shr_fexp_spec m e l :
  0 <= m -> e <= fexp (Zdigits2 m + e) ->
  snd (shr_fexp prec emax m e l) = fexp (Zdigits2 m + e) /\
  shr_m (fst (shr_fexp prec emax m e l)) =
    m / 2 ^ (fexp (Zdigits2 m + e) - e).
Proof.
  intros Hm He. unfold shr_fexp.
  destruct (shr_spec (shr_record_of_loc m l) e
              (fexp (Zdigits2 m + e) - e)) as [H1 H2].
  - now rewrite shr_record_of_loc_m.
  - lia.
  - rewrite H1, H2, shr_record_of_loc_m. split; [lia|reflexivity].
Qed.

(** The two shifts of [binary_round_aux], written out. *)
Lemma binary_round_aux_steps s mx ex lx :
  0 <= mx -> ex <= fexp (Zdigits2 mx + ex) ->
  let e1 := fexp (Zdigits2 mx + ex) in
  let mrs1 := fst (shr_fexp prec emax mx ex lx) in
  let m2 := round_nearest_even (shr_m mrs1) (loc_of_shr_record mrs1) in
  let e3 := fexp (Zdigits2 m2 + e1) in
  let m3 := m2 / 2 ^ (e3 - e1) in
  e1 <= e3 /\ 0 <= m2 /\ 0 <= m3 /\
  (0 < m3 -> fexp (Zdigits2 m3 + e3) = e3) /\
  binary_round_aux prec emax s mx ex lx =
    match m3 with
    | Z0 => S754_zero s
    | Zpos m => if e3 <=? emax - prec then S754_finite s m e3
                else S754_infinity s
    | Zneg _ => S754_nan
    end.
Proof.
  intros Hmx Hex e1 mrs1 m2 e3 m3.
  destruct (shr_fexp_spec mx ex lx Hmx Hex) as [Hs1 Hm1].
  fold e1 in Hs1, Hm1. fold mrs1 in Hm1.
  assert (Hm1' : 0 <= shr_m mrs1).
  { rewrite Hm1. apply Z.div_pos; [exact Hmx|]. apply pow2_pos. lia. }
  assert (Hm2 : 0 <= m2).
  { unfold m2. pose proof (round_nearest_even_ge (shr_m mrs1)
                             (loc_of_shr_record mrs1)). lia. }
  assert (He13 : e1 <= e3).
  { unfold e3. destruct (Z.eq_dec (shr_m mrs1) 0) as [E0|E0].
    - (* the first shift left nothing: the exponent is [emin] *)
      assert (Hd : Zdigits2 mx <= e1 - ex).
      { apply Zdigits2_le_of_lt; [exact Hmx| |lia].
        destruct (Z_lt_le_dec mx (2 ^ (e1 - ex))) as [|Hge]; [assumption|].
        assert (1 <= mx / 2 ^ (e1 - ex)).
        { apply Z.div_le_lower_bound; [apply pow2_pos|]; lia. }
        lia. }
      assert (e1 = emin).
      { unfold e1 in *. unfold SpecFloat.fexp in *. lia. }
      pose proof (fexp_ge_emin (Zdigits2 m2 + e1)). lia.
    - assert (Hd : Zdigits2 (shr_m mrs1) = Zdigits2 mx - (e1 - ex)).
      { rewrite Hm1. apply Zdigits2_div_pow2; [lia|]. rewrite <- Hm1. lia. }
      assert (Hle : Zdigits2 (shr_m mrs1) <= Zdigits2 m2).
      { apply Zdigits2_mono; [exact Hm1'|].
        apply round_nearest_even_ge. }
      assert (fexp (Zdigits2 mx + ex) <= fexp (Zdigits2 m2 + e1))
        by (apply fexp_mono; lia).
      exact H. }
  assert (Hm3 : 0 <= m3).
  { unfold m3. apply Z.div_pos; [exact Hm2|]. apply pow2_pos. lia. }
  split; [exact He13|]. split; [exact Hm2|]. split; [exact Hm3|]. split.
  - intros Hpos. unfold m3 in *.
    rewrite Zdigits2_div_pow2 by lia.
    replace (Zdigits2 m2 - (e3 - e1) + e3) with (Zdigits2 m2 + e1) by lia.
    reflexivity.
  - unfold binary_round_aux.
    destruct (shr_fexp prec emax mx ex lx) as [mrs' e'] eqn:E1.
    cbn [fst snd] in *. subst mrs1. subst e'.
    fold m2.
    destruct (shr_fexp_spec m2 e1 loc_Exact Hm2 He13) as [Hs3 Hm3'].
    fold e3 in Hs3, Hm3'. fold m3 in Hm3'.
    destruct (shr_fexp prec emax m2 e1 loc_Exact) as [mrs'' e''].
    cbn [fst snd] in *. subst e''. rewrite Hm3'. reflexivity.
Qed.

Lemma binary_round_aux_valid s mx ex lx :
  0 <= mx -> ex <= fexp (Zdigits2 mx + ex) ->
  valid_binary prec emax (binary_round_aux prec emax s mx ex lx) = true.
Proof.
  intros Hmx Hex.
  destruct (binary_round_aux_steps s mx ex lx Hmx Hex)
    as (_ & _ & Hm3 & Hcan & ->).
  match goal with |- context [match ?m3 with _ => _ end] =>
    destruct m3 as [|m|m] eqn:E end; try reflexivity.
  destruct (_ <=? emax - prec) eqn:Hb; [|reflexivity].
  cbn [valid_binary]. unfold bounded, canonical_mantissa.
  rewrite Hb, andb_true_r. apply Z.eqb_eq.
  apply (Hcan ltac:(lia)).
Qed.

(** Rounding is monotone at a number of the format: what is at most the
    bound before rounding is at most the bound after it. *)
Lemma binary_round_aux_below mx ex lx mb eb :
  0 <= mx -> ex <= fexp (Zdigits2 mx + ex) ->
  format_bound mb eb ->
  ex <= eb -> mx <= Zpos mb * 2 ^ (eb - ex) ->
  (mx = Zpos mb * 2 ^ (eb - ex) -> lx = loc_Exact) ->
  below (binary_round_aux prec emax false mx ex lx) mb eb.
Proof.
  intros Hmx Hex [Hcan Hmax] Hle Hbound Hexact.
  destruct (binary_round_aux_steps false mx ex lx Hmx Hex)
    as (He13 & Hm2 & Hm3 & _ & ->).
  set (e1 := fexp (Zdigits2 mx + ex)) in *.
  set (mrs1 := fst (shr_fexp prec emax mx ex lx)) in *.
  set (m2 := round_nearest_even (shr_m mrs1) (loc_of_shr_record mrs1)) in *.
  set (e3 := fexp (Zdigits2 m2 + e1)) in *.
  destruct (Zdigits2_bounds (Zpos mb) eq_refl) as [_ Hmb].
  set (db := Zdigits2 (Zpos mb)) in *.
  assert (Hdb : 0 < db) by (apply Zdigits2_pos; lia).
  (* the exponent of the first shift is at most the exponent of the bound *)
  assert (He1 : e1 <= eb).
  { rewrite <- Hcan. apply fexp_mono.
    assert (Zdigits2 mx <= db + eb - ex); [|lia].
    apply Zdigits2_le_of_lt; [exact Hmx| |lia].
    replace (db + eb - ex) with (db + (eb - ex)) by lia.
    rewrite pow2_split by lia.
    pose proof (pow2_pos (eb - ex) ltac:(lia)). nia. }
  (* the rounded mantissa is at most the bound at that exponent *)
  assert (Hk : m2 <= Zpos mb * 2 ^ (eb - e1)).
  { unfold m2, mrs1, shr_fexp. fold e1.
    apply (shr_round_le mx lx ex (e1 - ex) (Zpos mb * 2 ^ (eb - e1)));
      try lia.
    - rewrite <- Z.mul_assoc, <- pow2_split by lia.
      replace (eb - e1 + (e1 - ex)) with (eb - ex) by lia. exact Hbound.
    - intros E. apply Hexact. rewrite E.
      rewrite <- Z.mul_assoc, <- pow2_split by lia.
      f_equal. f_equal. lia. }
  assert (He3 : e3 <= eb).
  { rewrite <- Hcan. apply fexp_mono.
    assert (Zdigits2 m2 <= db + eb - e1); [|lia].
    apply Zdigits2_le_of_lt; [exact Hm2| |lia].
    replace (db + eb - e1) with (db + (eb - e1)) by lia.
    rewrite pow2_split by lia.
    pose proof (pow2_pos (eb - e1) ltac:(lia)). nia. }
  assert (H3 : m2 / 2 ^ (e3 - e1) <= Zpos mb * 2 ^ (eb - e3)).
  { apply Z.div_le_upper_bound; [apply pow2_pos; lia|].
    rewrite Z.mul_comm, <- Z.mul_assoc, <- pow2_split by lia.
    replace (eb - e3 + (e3 - e1)) with (eb - e1) by lia. exact Hk. }
  destruct (m2 / 2 ^ (e3 - e1)) as [|m|m] eqn:E; [exact I| |lia].
  - assert (Hb : (e3 <=? emax - prec) = true) by (apply Z.leb_le; lia).
    rewrite Hb. split; [exact He3|exact H3].
Qed.

Lemma binary_round_aux_sign s mx ex lx :
  0 <= mx -> ex <= fexp (Zdigits2 mx + ex) ->
  match binary_round_aux prec emax s mx ex lx with
  | S754_zero s' | S754_infinity s' | S754_finite s' _ _ => s' = s
  | S754_nan => False
  end.
Proof.
  intros Hmx Hex.
  destruct (binary_round_aux_steps s mx ex lx Hmx Hex)
    as (_ & _ & Hm3 & _ & ->).
  match goal with |- context [match ?m3 with _ => _ end] =>
    destruct m3 as [|m|m] eqn:E end; [reflexivity| |lia].
  destruct (_ <=? emax - prec); reflexivity.
Qed.

Lemma iter_xO mx d : Zpos (Pos.iter xO mx d) = Zpos mx * 2 ^ Zpos d.
Proof.
  induction d as [|d IH] using Pos.peano_ind.
  - cbn [Pos.iter]. rewrite Pos2Z.inj_xO. change (2 ^ 1) with 2. lia.
  - rewrite Pos.iter_succ, Pos2Z.inj_xO, IH, Pos2Z.inj_succ.
    rewrite Z.pow_succ_r by lia. lia.
Qed.

(** [binary_round] aligns the mantissa so that [binary_round_aux] does not
    lose digits it needs. *)
Lemma binary_round_aligned s mx ex :
  exists mz ez,
    binary_round prec emax s mx ex =
      binary_round_aux prec emax s (Zpos mz) ez loc_Exact /\
    ez <= fexp (Zdigits2 (Zpos mz) + ez) /\
    ez <= ex /\
    ez = Z.min ex (fexp (Zdigits2 (Zpos mx) + ex)) /\
    Zpos mz = Zpos mx * 2 ^ (ex - ez).
Proof.
  unfold binary_round, shl_align.
  change (Zpos (digits2_pos mx)) with (Zdigits2 (Zpos mx)).
  set (ex' := fexp (Zdigits2 (Zpos mx) + ex)).
  destruct (ex' - ex) as [|d|d] eqn:E.
  - exists mx, ex. rewrite Z.sub_diag. change (2 ^ 0) with 1.
    repeat split; fold ex'; lia.
  - exists mx, ex. rewrite Z.sub_diag. change (2 ^ 0) with 1.
    repeat split; fold ex'; lia.
  - exists (Pos.iter xO mx d), ex'.
    assert (Hd : ex - ex' = Zpos d) by lia.
    rewrite iter_xO, Hd. split; [reflexivity|].
    rewrite Zdigits2_mul_pow2 by lia.
    replace (Zdigits2 (Zpos mx) + Zpos d + ex')
      with (Zdigits2 (Zpos mx) + ex) by lia.
    fold ex'. repeat split; lia.
Qed.

Lemma binary_round_valid s mx ex :
  valid_binary prec emax (binary_round prec emax s mx ex) = true.
Proof.
  destruct (binary_round_aligned s mx ex) as (mz & ez & -> & Hz & _).
  apply binary_round_aux_valid; [lia|exact Hz].
Qed.

Lemma binary_round_sign s mx ex :
  match binary_round prec emax s mx ex with
  | S754_zero s' | S754_infinity s' | S754_finite s' _ _ => s' = s
  | S754_nan => False
  end.
Proof.
  destruct (binary_round_aligned s mx ex) as (mz & ez & -> & Hz & _).
  apply binary_round_aux_sign; [lia|exact Hz].
Qed.

Lemma binary_round_below mx ex mb eb :
  format_bound mb eb ->
  Zdigits2 (Zpos mx) + ex <= Zdigits2 (Zpos mb) + eb ->
  (forall k, k <= ex -> k <= eb ->
     Zpos mx * 2 ^ (ex - k) <= Zpos mb * 2 ^ (eb - k)) ->
  below (binary_round prec emax false mx ex) mb eb.
Proof.
  intros Hb Hmag Hval.
  destruct (binary_round_aligned false mx ex)
    as (mz & ez & -> & Hz & Hle & Hez & Hmz).
  assert (Hezb : ez <= eb).
  { destruct Hb as [Hcan _]. rewrite <- Hcan.
    pose proof (fexp_mono _ _ Hmag). lia. }
  apply binary_round_aux_below; try assumption; try lia.
  - rewrite Hmz. apply Hval; lia.
  - reflexivity.
Qed.

(** ** Sums of non-negative numbers *)

Lemma nonneg_cases x :
  nonneg x <->
  match x with
  | S754_zero _ | S754_infinity false | S754_finite false _ _ => True
  | _ => False
  end.
Proof.
  unfold nonneg. destruct x as [s|[|]| |[|] m e]; cbn; intuition discriminate.
Qed.

Lemma SFadd_valid x y :
  valid_binary prec emax x = true -> valid_binary prec emax y = true ->
  valid_binary prec emax (SFadd prec emax x y) = true.
Proof.
  intros Hx Hy.
  destruct x as [sx|sx| |sx mx ex], y as [sy|sy| |sy my ey];
    try reflexivity; try assumption; cbn [SFadd].
  - destruct sx, sy; reflexivity.
  - destruct sx, sy; reflexivity.
  - unfold binary_normalize.
    destruct (_ + _); [reflexivity|apply binary_round_valid..].
Qed.

Lemma SFadd_nonneg x y :
  nonneg x -> nonneg y -> nonneg (SFadd prec emax x y).
Proof.
  rewrite !nonneg_cases.
  destruct x as [sx|[|]| |[|] mx ex], y as [sy|[|]| |[|] my ey];
    try contradiction; intros _ _; cbn [SFadd]; try exact I.
  - destruct sx, sy; exact I.
  - unfold cond_Zopp. cbn [Z.add binary_normalize].
    pose proof (binary_round_sign false
                  (fst (shl_align mx ex (Z.min ex ey))
                   + fst (shl_align my ey (Z.min ex ey)))
                  (Z.min ex ey)) as H.
    destruct (binary_round _ _ _ _ _) as [s|s| |s m e]; subst; auto.
Qed.

(** ** Products and quotients below a bound *)

(** The product with a positive normal number [mc * 2 ^ ec] stays below the
    product of the bounds, [mb' * 2 ^ eb' = (mb * 2 ^ eb) * (mc * 2 ^ ec)]. *)
Lemma SFmul_below x mc ec mb eb mb' eb' :
  below x mb eb ->
  Zdigits2 (Zpos mc) = prec ->
  format_bound mb' eb' ->
  eb + ec <= eb' ->
  Zpos mb * Zpos mc = Zpos mb' * 2 ^ (eb' - (eb + ec)) ->
  below (SFmul prec emax x (S754_finite false mc ec)) mb' eb'.
Proof.
  intros Hx Hmc Hb' Hle Hprod.
  destruct x as [s|s| |[|] m e]; try contradiction; [exact I|].
  destruct Hx as [He Hm]. cbn [SFmul xorb].
  apply binary_round_aux_below; try assumption; try lia.
  - (* the product has at least [prec] digits *)
    assert (prec - 1 < Zdigits2 (Zpos (m * mc))).
    { apply Zdigits2_gt_of_le; [lia|].
      destruct (Zdigits2_bounds (Zpos mc) eq_refl) as [Hlo _].
      rewrite Hmc in Hlo. rewrite Pos2Z.inj_mul. nia. }
    unfold SpecFloat.fexp. lia.
  - rewrite Pos2Z.inj_mul.
    replace (eb' - (e + ec)) with (eb' - (eb + ec) + (eb - e)) by lia.
    rewrite pow2_split by lia.
    pose proof (pow2_pos (eb - e) ltac:(lia)).
    pose proof (pow2_pos (eb' - (eb + ec)) ltac:(lia)).
    nia.
  - reflexivity.
Qed.

Lemma new_location_0 n : new_location n 0 = loc_Exact.
Proof.
  unfold new_location, new_location_even, new_location_odd.
  destruct (Z.even n); reflexivity.
Qed.

(** The quotient of two positive numbers stays below a bound of the format
    that the exact quotient does not exceed. *)
Lemma SFdiv_below m1 e1 m2 e2 mb eb :
  format_bound mb eb ->
  Zdigits2 (Zpos m1) + e1 - (Zdigits2 (Zpos m2) + e2)
    <= Zdigits2 (Zpos mb) + eb ->
  (forall e', e' <= eb -> e' <= e1 - e2 ->
     Zpos m1 * 2 ^ (e1 - e2 - e') <= Zpos mb * Zpos m2 * 2 ^ (eb - e')) ->
  below (SFdiv prec emax (S754_finite false m1 e1) (S754_finite false m2 e2))
        mb eb.
Proof.
  intros Hb Hmag Hval. cbn [SFdiv xorb]. unfold SFdiv_core_binary.
  set (d1 := Zdigits2 (Zpos m1)) in *. set (d2 := Zdigits2 (Zpos m2)) in *.
  set (e' := Z.min (fexp (d1 + e1 - (d2 + e2))) (e1 - e2)).
  set (s := e1 - e2 - e').
  assert (Hs : 0 <= s) by (unfold s, e'; lia).
  set (m' := match s with Z0 => Zpos m1 | Zpos _ => Z.shiftl (Zpos m1) s
                        | Zneg _ => 0 end).
  assert (Hm' : m' = Zpos m1 * 2 ^ s).
  { unfold m'. destruct s as [|p|p] eqn:Es; [|apply Z.shiftl_mul_pow2|]; lia. }
  clearbody m'.
  pose proof (Z.div_eucl_eq m' (Zpos m2) ltac:(lia)) as Heq.
  pose proof (Z.mod_pos_bound m' (Zpos m2) eq_refl) as Hr.
  unfold Z.modulo in Hr.
  destruct (Z.div_eucl m' (Zpos m2)) as [q r].
  assert (He'b : e' <= eb).
  { destruct Hb as [Hcan _]. rewrite <- Hcan.
    pose proof (fexp_mono _ _ Hmag). unfold e'. lia. }
  pose proof (pow2_pos s Hs) as Hps.
  pose proof (pow2_pos (eb - e') ltac:(lia)) as Hpb.
  assert (Hbound : m' <= Zpos mb * Zpos m2 * 2 ^ (eb - e')).
  { rewrite Hm'. apply Hval; [exact He'b|unfold e'; lia]. }
  assert (Hq0 : 0 <= q) by nia.
  assert (Hq : q <= Zpos mb * 2 ^ (eb - e')) by nia.
  apply binary_round_aux_below; try assumption.
  - (* the quotient has the digits the format needs *)
    assert (Hd : d1 + s - d2 <= Zdigits2 q).
    { destruct (Z_le_gt_dec (d1 + s - d2) 0) as [|Hpos];
        [pose proof (Zdigits2_nonneg q); lia|].
      assert (d1 + s - d2 - 1 < Zdigits2 q); [|lia].
      apply Zdigits2_gt_of_le; [lia|].
      destruct (Zdigits2_bounds (Zpos m1) eq_refl) as [Hlo1 _].
      destruct (Zdigits2_bounds (Zpos m2) eq_refl) as [_ Hhi2].
      fold d1 in Hlo1. fold d2 in Hhi2.
      assert (Hd1 : 0 < d1) by (apply Zdigits2_pos; lia).
      assert (Hd2 : 0 < d2) by (apply Zdigits2_pos; lia).
      assert (Hlow : 2 ^ (d1 + s - d2 - 1) * 2 ^ d2 <= m').
      { rewrite <- pow2_split by lia.
        replace (d1 + s - d2 - 1 + d2) with (d1 - 1 + s) by lia.
        rewrite pow2_split by lia. rewrite Hm'. nia. }
      pose proof (pow2_pos (d1 + s - d2 - 1) ltac:(lia)).
      destruct (Z_le_gt_dec (2 ^ (d1 + s - d2 - 1)) q) as [|Hlt];
        [assumption|]. nia. }
    assert (fexp (d1 + e1 - (d2 + e2)) <= fexp (Zdigits2 q + e'))
      by (apply fexp_mono; unfold s in Hd; lia).
    unfold e' in *. lia.
  - intros E. assert (r = 0) by nia. subst r. apply new_location_0.
Qed.

(** ** Comparisons *)

Lemma below_leb x mb eb :
  below x mb eb -> SFleb x (S754_finite false mb eb) = true.
Proof.
  destruct x as [s|s| |[|] m e]; try contradiction; [reflexivity|].
  intros [He Hm]. unfold SFleb. cbn [SFcompare].
  destruct (Z.compare_spec e eb) as [E|E|E]; try reflexivity; [|lia].
  subst e. rewrite Z.sub_diag in Hm. change (2 ^ 0) with 1 in Hm.
  rewrite Z.mul_1_r in Hm.
  change (Pos.compare_cont Eq m mb) with (Pos.compare m mb).
  destruct (Pos.compare_spec m mb); try reflexivity. lia.
Qed.

Lemma below_nonneg x mb eb : below x mb eb -> nonneg x.
Proof.
  destruct x as [s|s| |[|] m e]; try contradiction; reflexivity.
Qed.

Lemma valid_finite_canonical s m e :
  valid_binary prec emax (S754_finite s m e) = true ->
  fexp (Zdigits2 (Zpos m) + e) = e /\ e <= emax - prec.
Proof.
  cbn [valid_binary]. unfold bounded, canonical_mantissa.
  intros H. apply andb_prop in H as [H1 H2].
  apply Z.eqb_eq in H1. apply Z.leb_le in H2. auto.
Qed.

(** The order of two positive numbers of the format, on their mantissas. *)
Lemma leb_finite_inv m1 e1 m2 e2 :
  valid_binary prec emax (S754_finite false m1 e1) = true ->
  valid_binary prec emax (S754_finite false m2 e2) = true ->
  SFleb (S754_finite false m1 e1) (S754_finite false m2 e2) = true ->
  e1 <= e2 /\ Zpos m1 <= Zpos m2 * 2 ^ (e2 - e1).
Proof.
  intros H1 H2 Hle.
  apply valid_finite_canonical in H1 as [Hc1 _].
  apply valid_finite_canonical in H2 as [Hc2 _].
  unfold SFleb in Hle. cbn [SFcompare] in Hle.
  destruct (Z.compare_spec e1 e2) as [E|E|E]; try discriminate.
  - subst e2. split; [lia|]. rewrite Z.sub_diag. change (2 ^ 0) with 1.
    change (Pos.compare_cont Eq m1 m2) with (Pos.compare m1 m2) in Hle.
    destruct (Pos.compare_spec m1 m2); try discriminate; lia.
  - split; [lia|].
    destruct (Zdigits2_bounds (Zpos m1) eq_refl) as [_ Hhi1].
    destruct (Zdigits2_bounds (Zpos m2) eq_refl) as [Hlo2 _].
    set (d1 := Zdigits2 (Zpos m1)) in *. set (d2 := Zdigits2 (Zpos m2)) in *.
    assert (Hd1 : 0 < d1) by (apply Zdigits2_pos; lia).
    assert (Hd2 : 0 < d2) by (apply Zdigits2_pos; lia).
    unfold SpecFloat.fexp in Hc1, Hc2.
    assert (Hd : d1 <= d2 - 1 + (e2 - e1)) by lia.
    assert (2 ^ d1 <= 2 ^ (d2 - 1 + (e2 - e1)))
      by (apply Z.pow_le_mono_r; lia).
    rewrite pow2_split in H by lia.
    pose proof (pow2_pos (e2 - e1) ltac:(lia)). nia.
Qed.

End Rounding.

(** ** Percentages of binary64 counts *)

Lemma prec_pos : 0 < prec.
Proof. reflexivity. Qed.

(** The numbers 1, 100 and 10000 in the format. *)
Lemma format_bound_1 : format_bound prec emax 4503599627370496 (-52).
Proof. split; [reflexivity|discriminate]. Qed.

Lemma format_bound_100 : format_bound prec emax 7036874417766400 (-46).
Proof. split; [reflexivity|discriminate]. Qed.

Lemma format_bound_10000 : format_bound prec emax 5497558138880000 (-39).
Proof. split; [reflexivity|discriminate]. Qed.

Lemma of_Z_100 : of_Z 100 = S754_finite false 7036874417766400 (-46).
Proof. reflexivity. Qed.

Lemma rint_below y mb eb K :
  format_bound prec emax mb eb -> eb <= 0 -> Zpos mb = K * 2 ^ (- eb) ->
  below y mb eb -> below (rint y) mb eb.
Proof.
  intros Hb Heb HK Hy.
  destruct y as [s|s| |[|] m [|p|p]]; try contradiction; try exact Hy.
  destruct Hy as [He Hm]. cbn [rint].
  pose proof (pow2_pos (- eb) ltac:(lia)) as Hpe.
  pose proof (pow2_pos (Zpos p) ltac:(lia)) as Hpp.
  assert (HmK : Zpos m <= K * 2 ^ Zpos p).
  { rewrite HK, <- Z.mul_assoc, <- pow2_split in Hm by lia.
    replace (- eb + (eb - Zneg p)) with (Zpos p) in Hm by lia. exact Hm. }
  destruct (shr_round_le (Zpos m) loc_Exact 0 (Zpos p) K)
    as (_ & _ & Hr); try lia; [reflexivity|].
  cbn [shr fst shr_record_of_loc] in Hr.
  destruct (round_nearest_even _ _) as [|m'|m'] eqn:E; [exact I| |exact I].
  destruct (Zdigits2_bounds (Zpos mb) eq_refl) as [_ Hmb].
  set (db := Zdigits2 (Zpos mb)) in *.
  assert (Hdb : 0 <= db + eb).
  { destruct (Z_le_gt_dec 0 (db + eb)) as [|Hneg]; [assumption|].
    assert (2 ^ db < 2 ^ (- eb))
      by (apply Z.pow_lt_mono_r; [lia| |]; unfold db;
          pose proof (Zdigits2_nonneg (Zpos mb)); lia).
    nia. }
  apply binary_round_below; [exact prec_pos|exact Hb| |].
  - fold db. assert (Zdigits2 (Zpos m') <= db + eb); [|lia].
    apply Zdigits2_le_of_lt; [lia| |exact Hdb].
    replace db with (db + eb + - eb) in Hmb by lia.
    rewrite pow2_split in Hmb by lia.
    pose proof (pow2_pos (db + eb) Hdb). nia.
  - intros k Hk0 Hkb.
    rewrite HK, <- Z.mul_assoc, <- pow2_split by lia.
    replace (- eb + (eb - k)) with (0 - k) by lia.
    pose proof (pow2_pos (0 - k) ltac:(lia)). nia.
Qed.

(** The quotient of a positive count by a count that is not smaller is at
    most 1. *)
Lemma div_below_1 m1 e1 m2 e2 :
  valid (S754_finite false m1 e1) -> valid (S754_finite false m2 e2) ->
  leb (S754_finite false m1 e1) (S754_finite false m2 e2) = true ->
  below (div (S754_finite false m1 e1) (S754_finite false m2 e2))
        4503599627370496 (-52).
Proof.
  intros H1 H2 Hle.
  destruct (leb_finite_inv prec emax prec_pos m1 e1 m2 e2 H1 H2 Hle)
    as [He Hm].
  pose proof (pow2_pos (e2 - e1) ltac:(lia)) as Hp.
  apply SFdiv_below; [exact prec_pos|exact format_bound_1| |].
  - change (Zdigits2 4503599627370496) with 53.
    destruct (Zdigits2_bounds (Zpos m2) eq_refl) as [_ Hhi].
    set (d2 := Zdigits2 (Zpos m2)) in *.
    assert (Hd2 : 0 < d2) by (apply Zdigits2_pos; lia).
    assert (Zdigits2 (Zpos m1) <= d2 + (e2 - e1)); [|lia].
    apply Zdigits2_le_of_lt; [lia| |lia].
    rewrite pow2_split by lia. nia.
  - intros e' He' He12.
    assert (Huv : 2 ^ (e1 - e2 - e') * 2 ^ (e2 - e1)
                  = 4503599627370496 * 2 ^ (-52 - e')).
    { change 4503599627370496 with (2 ^ 52).
      rewrite <- !pow2_split by lia. f_equal. lia. }
    pose proof (pow2_pos (e1 - e2 - e') ltac:(lia)).
    pose proof (pow2_pos (-52 - e') ltac:(lia)).
    nia.
Qed.

Lemma mul_100_below_100 x :
  below x 4503599627370496 (-52) ->
  below (mul x (of_Z 100)) 7036874417766400 (-46).
Proof.
  intros H. rewrite of_Z_100.
  apply (SFmul_below prec emax prec_pos x _ _ 4503599627370496 (-52));
    [exact H|reflexivity|exact format_bound_100|discriminate|reflexivity].
Qed.

Lemma mul_100_below_10000 x :
  below x 7036874417766400 (-46) ->
  below (mul x (of_Z 100)) 5497558138880000 (-39).
Proof.
  intros H. rewrite of_Z_100.
  apply (SFmul_below prec emax prec_pos x _ _ 7036874417766400 (-46));
    [exact H|reflexivity|exact format_bound_10000|discriminate|reflexivity].
Qed.

Lemma rint_below_10000 y :
  below y 5497558138880000 (-39) -> below (rint y) 5497558138880000 (-39).
Proof.
  apply (rint_below y _ _ 10000);
    [exact format_bound_10000|discriminate|reflexivity].
Qed.

Lemma div_100_below_100 z :
  below z 5497558138880000 (-39) ->
  below (div z (of_Z 100)) 7036874417766400 (-46).
Proof.
  rewrite of_Z_100.
  destruct z as [s|s| |[|] m e]; try contradiction; [intros _; exact I|].
  intros [He Hm].
  pose proof (pow2_pos (-39 - e) ltac:(lia)) as Hp.
  apply SFdiv_below; [exact prec_pos|exact format_bound_100| |].
  - change (Zdigits2 7036874417766400) with 53.
    assert (Zdigits2 (Zpos m) <= 53 + (-39 - e)); [|lia].
    apply Zdigits2_le_of_lt; [lia| |lia].
    rewrite pow2_split by lia. change (2 ^ 53) with 9007199254740992. nia.
  - intros e' He' He12.
    assert (Huv : 5497558138880000 * (2 ^ (-39 - e) * 2 ^ (e - -46 - e'))
                  = 7036874417766400 * 7036874417766400 * 2 ^ (-46 - e')).
    { rewrite <- pow2_split by lia.
      replace (-39 - e + (e - -46 - e')) with (53 + (-46 - e')) by lia.
      rewrite pow2_split by lia. change (2 ^ 53) with 9007199254740992.
      lia. }
    pose proof (pow2_pos (e - -46 - e') ltac:(lia)).
    pose proof (pow2_pos (-46 - e') ltac:(lia)).
    nia.
Qed.

(** The percentage of a count among a count that is not smaller. *)
Lemma percentage_below_100 m1 e1 m2 e2 :
  valid (S754_finite false m1 e1) -> valid (S754_finite false m2 e2) ->
  leb (S754_finite false m1 e1) (S754_finite false m2 e2) = true ->
  below (percentage (S754_finite false m1 e1) (S754_finite false m2 e2))
        7036874417766400 (-46).
Proof.
  intros H1 H2 Hle. unfold percentage, round.
  change (of_Z (10 ^ Z.of_nat 2)) with (of_Z 100).
  apply div_100_below_100, rint_below_10000, mul_100_below_10000,
    mul_100_below_100, div_below_1; assumption.
Qed.

Lemma percentage_in_range c d :
  valid c -> valid d -> nonneg c -> leb c d = true ->
  in_range (fillna (of_Z 0) (percentage c d)).
Proof.
  intros Hc Hd Hn Hle. apply nonneg_cases in Hn.
  destruct c as [sc|[|]| |[|] mc ec]; try contradiction;
    destruct d as [sd|[|]| |[|] md ed]; try discriminate Hle;
    try (split; reflexivity).
  pose proof (percentage_below_100 mc ec md ed Hc Hd Hle) as Hb.
  assert (Hf : fillna (of_Z 0) (percentage (S754_finite false mc ec)
                                    (S754_finite false md ed))
                 = percentage (S754_finite false mc ec)
                     (S754_finite false md ed)).
  { destruct (percentage _ _); try contradiction; reflexivity. }
  rewrite Hf. split.
  - exact (below_nonneg _ _ _ Hb).
  - rewrite of_Z_100. exact (below_leb _ _ _ Hb).
Qed.

Lemma sum_valid_nonneg x xs :
  Forall valid (x :: xs) -> Forall nonneg (x :: xs) ->
  valid (sum (x :: xs)) /\ nonneg (sum (x :: xs)).
Proof.
  cbn [sum]. intros Hv Hn.
  inversion Hv as [|? ? Hvx Hvxs]; subst.
  inversion Hn as [|? ? Hnx Hnxs]; subst. clear Hv Hn.
  revert x Hvx Hnx Hnxs.
  induction Hvxs as [|y ys Hvy _ IH]; intros x Hvx Hnx Hnxs; cbn [fold_left].
  - split; assumption.
  - inversion Hnxs as [|? ? Hny Hnys]; subst.
    apply IH.
    + apply SFadd_valid; try assumption; exact prec_pos.
    + apply SFadd_nonneg; try assumption; exact prec_pos.
    + assumption.
Qed.

(** On float64 columns: when the fifteen variables of a row are
    non-negative binary64 numbers and each count with a difficulty is at
    most its population, the two percentages are between 0 and 100 after
    rounding. *)
Lemma percentages_in_range_float64 (df : census_row) :
  Forall valid (cells df) ->
  Forall nonneg (cells df) ->
  let m := calculate_metrics_row df in
  leb (total_amb_diff m) (total_pop_5plus m) = true ->
  leb (pop_65plus_amb_diff m) (pop_65plus m) = true ->
  in_range (total_amb_diff_pct m) /\ in_range (pop_65plus_amb_diff_pct m).
Proof.
  intros Hv Hn m.
  destruct (cells_Forall _ df Hv) as (Hv1 & Hvw & Hvs & Hvsw).
  destruct (cells_Forall _ df Hn) as (_ & Hnw & Hns & Hnsw).
  destruct (calculate_metrics_row_columns df)
    as (_ & Htp & Hta & Htpct & Hsp & Hsa & Hspct).
  fold m in Htp, Hta, Htpct, Hsp, Hsa, Hspct.
  rewrite Htpct, Hspct, Htp, Hta, Hsp, Hsa. intros Ht Hs.
  destruct (sum_valid_nonneg _ _ Hvw Hnw) as [Hvt Hnt].
  destruct (sum_valid_nonneg _ _ Hvs Hns) as [Hvp _].
  destruct (sum_valid_nonneg _ _ Hvsw Hnsw) as [Hva Hna].
  split; apply percentage_in_range; assumption.
Qed.

(** ** The trace of a run *)

Ltac step :=
  cbv beta iota zeta delta
    [bind ret emit print print_err raise sys_exit try_except to_csv app];
  cbn [map].

Lemma length_pos_cons {A} (l : list A) :
  (0 <? List.length l)%nat = match l with [] => false | _ => true end.
Proof. destruct l; reflexivity. Qed.

Lemma run_fetches w tracts_df r :
  fetches w tracts_df r ->
  let annotated_df := annotate tracts_df (json r) in
  run w =
  (events_load tracts_df ++ events_fetch tracts_df (json r)
   ++ events_warning annotated_df ++ events_summary annotated_df
   ++ events_save annotated_df ++ events_checks annotated_df,
   status_of_checks annotated_df).
Proof.
  intros (Hcsv & Hne & Hapi & Hst & Hbody) annotated_df.
  destruct tracts_df as [|t ts]; [congruence|].
  unfold run, main, read_csv, fetch_b18105_data, requests_get,
    raise_for_status, response_table.
  rewrite Hcsv.
  unfold request_url in Hapi. unfold error_status in Hst.
  step. step. rewrite Hapi. step. rewrite Hst. step. rewrite Hbody. step.
  change (merge (t :: ts) (calculate_metrics (census_frame (json r) (tract_GEOID t :: map tract_GEOID ts)))) with annotated_df.
  unfold events_warning, events_checks, status_of_checks, missing_rows.
  rewrite length_pos_cons.
  destruct (filter _ annotated_df) as [|m ms];
  destruct (data_quality_checks annotated_df) as [|e es]; step.
  all: reflexivity.
Qed.

Lemma run_request_fails w tracts_df e :
  tracts_csv w = Some tracts_df ->
  tracts_df <> [] ->
  request_fails w (request_url tracts_df) e ->
  run w =
  (events_load tracts_df
   ++ [Get (request_url tracts_df); PrintErr (ErrorFetching e)], 1).
Proof.
  intros Hcsv Hne Hfail.
  destruct tracts_df as [|t ts]; [congruence|].
  unfold run, main, read_csv, fetch_b18105_data, requests_get, raise_for_status.
  rewrite Hcsv. unfold request_url in *.
  step. step.
  destruct Hfail as [e Hapi He|r Hapi Hst]; rewrite Hapi; step.
  - rewrite He. step. reflexivity.
  - unfold error_status in Hst. rewrite Hst. step. reflexivity.
Qed.

(** An answer without an error status: the run goes on when its body is a
    table, reports a body that is no JSON like a failed request, and ends
    with the traceback of the failing statement on any other body. *)
Lemma run_answered w tracts_df r :
  tracts_csv w = Some tracts_df ->
  tracts_df <> [] ->
  census_api w (request_url tracts_df) = inr r ->
  error_status (status_code r) = false ->
  match response_body r with
  | NotJson =>
      run w =
      (events_load tracts_df
       ++ [Get (request_url tracts_df);
           PrintErr (ErrorFetching JSONDecodeError)], 1)
  | NotTable e =>
      run w =
      (events_load tracts_df
       ++ [Get (request_url tracts_df);
           PrintErr (Traceback (table_exn e))], 1)
  | Table _ => fetches w tracts_df r
  end.
Proof.
  intros Hcsv Hne Hapi Hst.
  destruct (response_body r) as [|e|data] eqn:Hbody.
  - destruct tracts_df as [|t ts]; [congruence|].
    unfold run, main, read_csv, fetch_b18105_data, requests_get,
      raise_for_status, response_table.
    rewrite Hcsv. unfold request_url in *. unfold error_status in Hst.
    step. step. rewrite Hapi. step. rewrite Hst. step. rewrite Hbody. step.
    reflexivity.
  - destruct tracts_df as [|t ts]; [congruence|].
    unfold run, main, read_csv, fetch_b18105_data, requests_get,
      raise_for_status, response_table.
    rewrite Hcsv. unfold request_url in *. unfold error_status in Hst.
    step. step. rewrite Hapi. step. rewrite Hst. step. rewrite Hbody. step.
    destruct e; reflexivity.
  - repeat split; try assumption. unfold json. now rewrite Hbody.
Qed.

(** ** The data quality checks *)

Lemma data_quality_checks_checks df :
  data_quality_checks df =
  flat_map (fun c => append_if (any (snd c) df) (fst c)) checks.
Proof.
  unfold data_quality_checks, checks, numeric_cols.
  cbn [map flat_map app fst snd]. rewrite !app_nil_r, <- !app_assoc.
  reflexivity.
Qed.

Lemma flat_map_append_if {A} (cond : A -> bool) (msg : A -> string) l :
  flat_map (fun c => append_if (cond c) (msg c)) l = map msg (filter cond l).
Proof.
  induction l as [|c l IH]; simpl; [reflexivity|].
  unfold append_if at 1. destruct (cond c); simpl; now rewrite IH.
Qed.

(** The errors are the messages of the violated checks, in check order. *)
Lemma data_quality_checks_violated df :
  data_quality_checks df =
  map fst (filter (fun c => any (snd c) df) checks).
Proof.
  rewrite data_quality_checks_checks. apply flat_map_append_if.
Qed.

Lemma NoDup_messages : NoDup (map fst checks).
Proof.
  cbv [checks numeric_cols map app fst]. simpl String.append.
  repeat constructor; simpl; intuition discriminate.
Qed.

Lemma NoDup_map_filter {A B} (f : A -> B) (p : A -> bool) l :
  NoDup (map f l) -> NoDup (map f (filter p l)).
Proof.
  induction l as [|a l IH]; simpl; intros H; [constructor|].
  inversion H as [|? ? Hn Hl]; subst.
  destruct (p a); simpl; [constructor|]; auto.
  intros Hin. apply Hn. apply in_map_iff in Hin as (x & Hx & Hin).
  apply filter_In in Hin as [Hin _]. apply in_map_iff. eauto.
Qed.

Lemma In_map_filter_NoDup {A B} (f : A -> B) (p : A -> bool) l a :
  NoDup (map f l) -> In a l ->
  (In (f a) (map f (filter p l)) <-> p a = true).
Proof.
  intros Hnd Ha. split.
  - intros Hin. apply in_map_iff in Hin as (x & Hx & Hin).
    apply filter_In in Hin as [Hin Hp].
    assert (x = a); [|congruence].
    clear Hp. induction l as [|b l IH]; [inversion Ha|].
    simpl in Hnd. inversion Hnd as [|? ? Hn Hl]; subst.
    destruct Ha as [->|Ha], Hin as [->|Hin]; auto.
    + elim Hn. rewrite <- Hx. now apply in_map.
    + elim Hn. rewrite Hx. now apply in_map.
  - intros Hp. apply in_map, filter_In. auto.
Qed.

Lemma any_exists mask df :
  any mask df = true <-> exists r, In r df /\ mask r = true.
Proof. apply existsb_exists. Qed.

(** C6 (amended): when the request of a run fails, by an exception of the
    transport or by an HTTP error status, one from 400 to 599 such as 500,
    the run prints the failure on the error stream as its last event and
    exits with status 1; it has made one request and has not written the
    output file. *)
Theorem failed_request_exits w tracts_df e :
  tracts_csv w = Some tracts_df ->
  tracts_df <> [] ->
  request_fails w (request_url tracts_df) e ->
  snd (run w) = 1 /\
  last (fst (run w)) (Mkdir "") = PrintErr (ErrorFetching e) /\
  filter is_Get (fst (run w)) = [Get (request_url tracts_df)] /\
  filter is_ToCsv (fst (run w)) = [].
Proof.
  intros Hcsv Hne Hfail.
  rewrite (run_request_fails w tracts_df e Hcsv Hne Hfail).
  cbn [fst snd]. split; [reflexivity|]. split; [|split].
  - change [Get (request_url tracts_df); PrintErr (ErrorFetching e)]
      with ([Get (request_url tracts_df)] ++ [PrintErr (ErrorFetching e)]).
    rewrite app_assoc. apply last_last.
  - rewrite filter_app. reflexivity.
  - rewrite filter_app. reflexivity.
Qed.

Lemma failed_request_exits_witness :
  let w := env_500 [tract_108] in
  let url := request_url [tract_108] in
  snd (run w) = 1 /\
  last (fst (run w)) (Mkdir "") =
    PrintErr (ErrorFetching (HTTPError 500 "Internal Server Error" url)) /\
  filter is_Get (fst (run w)) = [Get url] /\
  filter is_ToCsv (fst (run w)) = [].
Proof.
  intros w url.
  apply (failed_request_exits w [tract_108]).
  - reflexivity.
  - discriminate.
  - apply (http_failure w url
             {| status_code := 500; reason := "Internal Server Error";
                response_body := Table [] |}); reflexivity.
Defined.

(** C6, as the specification states it, fails on a status that is not 2xx
    and no error status either: [raise_for_status] raises from 400 to 599
    only, so on an answer with status 304 the run reads the body, writes
    the output file, prints nothing on the error stream and exits with
    status 0. *)
Lemma non_2xx_answer_goes_on :
  let w := env_304 [tract_108] [example_api_row] in
  let df := annotate [tract_108] [example_api_row] in
  (exists r, census_api w (request_url [tract_108]) = inr r /\
             status_code r = 304 /\
             (200 <=? status_code r) && (status_code r <? 300) = false) /\
  snd (run w) = 0 /\
  filter is_ToCsv (fst (run w)) = [ToCsv output_file df] /\
  filter is_PrintErr (fst (run w)) = [].
Proof.
  intros w df. split.
  - eexists. split; [reflexivity|]. split; reflexivity.
  - vm_compute. repeat split.
Qed.

Lemma events_checks_last df e es :
  data_quality_checks df = e :: es ->
  events_checks df =
  [ Print (Line (newline ++ "=== Data Quality Checks ==="));
    Print (Line (String.concat newline (e :: es))) ].
Proof. intros H. unfold events_checks. rewrite H. reflexivity. Qed.

Lemma run_fetches_fails w tracts_df r :
  fetches w tracts_df r ->
  let df := annotate tracts_df (json r) in
  data_quality_checks df <> [] ->
  snd (run w) = 1 /\
  last (fst (run w)) (Mkdir "") =
    Print (Line (String.concat newline (data_quality_checks df))).
Proof.
  intros Hf df Hne. rewrite (run_fetches w tracts_df r Hf). cbn [fst snd].
  fold df. unfold status_of_checks.
  destruct (data_quality_checks df) as [|e es] eqn:E; [congruence|].
  split; [reflexivity|].
  rewrite (events_checks_last df e es E).
  change [Print (Line (newline ++ "=== Data Quality Checks ==="));
          Print (Line (String.concat newline (e :: es)))]
    with ([Print (Line (newline ++ "=== Data Quality Checks ==="))]
          ++ [Print (Line (String.concat newline (e :: es)))]).
  rewrite !app_assoc. apply last_last.
Qed.

(** C5: every check is evaluated over all rows of the merged table,
    whatever the other checks found; the errors are the messages of all
    violated checks; when there is one, the run prints them all as its last
    output and exits with status 1.  A row with 50 seniors with a difficulty
    among 40 seniors gives the error of that check. *)
Theorem checks_accumulate (df : list annotated_row) :
  let errors := data_quality_checks df in
  (forall c, In c checks ->
     (In (fst c) errors <-> exists r, In r df /\ snd c r = true)) /\
  errors = map fst (filter (fun c => any (snd c) df) checks) /\
  (forall w tracts_df r,
     fetches w tracts_df r -> annotate tracts_df (json r) = df ->
     errors <> [] ->
     snd (run w) = 1 /\
     last (fst (run w)) (Mkdir "") =
       Print (Line (String.concat newline errors))) /\
  (forall r, In r df ->
     pop_65plus_amb_diff r = of_Z 50 -> pop_65plus r = of_Z 40 ->
     In "ERROR: 65+ ambulatory difficulty exceeds 65+ population" errors).
Proof.
  intros errors.
  assert (Hall : forall c, In c checks ->
            (In (fst c) errors <-> exists r, In r df /\ snd c r = true)).
  { intros c Hc. unfold errors. rewrite data_quality_checks_violated.
    rewrite (In_map_filter_NoDup fst _ checks c NoDup_messages Hc).
    apply any_exists. }
  split; [exact Hall|]. split; [apply data_quality_checks_violated|]. split.
  - intros w tracts_df r Hf <- Hne. apply run_fetches_fails; assumption.
  - intros r Hr H50 H40.
    apply (Hall ("ERROR: 65+ ambulatory difficulty exceeds 65+ population",
                 fun r : annotated_row =>
                   gtb (pop_65plus_amb_diff r) (pop_65plus r))).
    + unfold checks. apply in_or_app. right. simpl. auto.
    + exists r. split; [exact Hr|]. cbn [snd]. rewrite H50, H40. reflexivity.
Qed.

Lemma checks_accumulate_witness :
  In "ERROR: 65+ ambulatory difficulty exceeds 65+ population"
     (data_quality_checks senior_excess_df).
Proof.
  destruct (checks_accumulate senior_excess_df) as (_ & _ & _ & H).
  apply (H (hd {| annotated_tract := tract_108;
                  annotated_columns := missing_columns |} senior_excess_df)).
  - left. reflexivity.
  - reflexivity.
  - reflexivity.
Defined.

(** The run on the response with 50 seniors with a difficulty among 40. *)
Example senior_excess_run :
  let w := env_of [tract_108] [senior_excess_row] in
  data_quality_checks (annotate [tract_108] [senior_excess_row]) =
    [ "ERROR: 65+ ambulatory difficulty exceeds 65+ population";
      "ERROR: 65+ ambulatory difficulty percentage exceeds 100%" ] /\
  snd (run w) = 1.
Proof. vm_compute. split; reflexivity. Qed.

(** C10, as the specification states it, fails: the response with negative
    estimates on one tract and an excess on the other gives nine
    messages. *)
Lemma nine_error_messages :
  let df := nine_errors_df in
  List.length (data_quality_checks df) = 9%nat /\
  ~ (List.length (data_quality_checks df) <= 6)%nat.
Proof. vm_compute. split; [reflexivity|]. lia. Qed.

(** C10 (amended): each of the nine checks, four of negative values by
    column and five comparisons, adds at most one message whatever the
    number of rows that violate it: the errors are at most nine, without
    repetition, each the message of a check, and a further copy of a row
    changes nothing. *)
Theorem errors_name_checks (df : list annotated_row) :
  let errors := data_quality_checks df in
  List.length checks = 9%nat /\
  (List.length errors <= 9)%nat /\
  NoDup errors /\
  incl errors (map fst checks) /\
  (forall r, In r df -> data_quality_checks (r :: df) = errors).
Proof.
  intros errors. unfold errors. split; [reflexivity|].
  rewrite data_quality_checks_violated. split; [|split; [|split]].
  - rewrite length_map.
    change 9%nat with (List.length checks). apply filter_length_le.
  - apply NoDup_map_filter, NoDup_messages.
  - intros m Hm. apply in_map_iff in Hm as (c & <- & Hc).
    apply filter_In in Hc as [Hc _]. now apply in_map.
  - intros r Hr. rewrite data_quality_checks_violated. f_equal.
    apply filter_ext_in. intros c _. unfold any. cbn [existsb].
    destruct (snd c r) eqn:E; [|reflexivity].
    symmetry. apply existsb_exists. eauto.
Qed.

Lemma errors_name_checks_witness :
  let r := hd {| annotated_tract := tract_108;
                 annotated_columns := missing_columns |} nine_errors_df in
  In r nine_errors_df /\
  data_quality_checks (r :: nine_errors_df)
  = data_quality_checks nine_errors_df.
Proof.
  intros r.
  assert (Hr : In r nine_errors_df) by (left; reflexivity).
  split; [exact Hr|].
  destruct (errors_name_checks nine_errors_df) as (_ & _ & _ & _ & H).
  apply (H r Hr).
Defined.

(** ** The order of the stages *)

(** A run gets its data, or it ends with status 1 before the merge: it
    writes no file and runs no check. *)
Lemma run_cases w :
  (exists tracts_df r, fetches w tracts_df r) \/
  (snd (run w) = 1 /\
   filter is_ToCsv (fst (run w)) = [] /\
   ~ In checks_header (fst (run w))).
Proof.
  destruct (tracts_csv w) as [[|t ts]|] eqn:Hcsv.
  - right. unfold run, main, read_csv, fetch_b18105_data. rewrite Hcsv. step.
    split; [reflexivity|]. split; [reflexivity|].
    unfold checks_header. simpl. intuition discriminate.
  - destruct (census_api w (request_url (t :: ts))) as [e|r] eqn:Hapi.
    + destruct (is_RequestException e) eqn:He.
      * right. rewrite (run_request_fails w (t :: ts) e Hcsv); try discriminate.
        2: now apply transport_failure.
        split; [reflexivity|]. cbn [fst]. split.
        -- rewrite filter_app. reflexivity.
        -- unfold checks_header. simpl. intuition discriminate.
      * right. unfold run, main, read_csv, fetch_b18105_data, requests_get.
        rewrite Hcsv. unfold request_url in Hapi. step. step.
        rewrite Hapi. step. rewrite He. step.
        split; [reflexivity|]. split; [reflexivity|].
        unfold checks_header. simpl. intuition discriminate.
    + destruct (error_status (status_code r)) eqn:Hst.
      * right.
        rewrite (run_request_fails w (t :: ts)
                   (HTTPError (status_code r) (reason r)
                      (request_url (t :: ts))) Hcsv); try discriminate.
        2: now apply (http_failure w _ r).
        split; [reflexivity|]. cbn [fst]. split.
        -- rewrite filter_app. reflexivity.
        -- unfold checks_header. simpl. intuition discriminate.
      * assert (Hne : t :: ts <> []) by discriminate.
        pose proof (run_answered w (t :: ts) r Hcsv Hne Hapi Hst) as Hrun.
        destruct (response_body r) as [|e|data].
        -- right. rewrite Hrun. split; [reflexivity|]. cbn [fst]. split.
           ++ rewrite filter_app. reflexivity.
           ++ unfold checks_header. simpl. intuition discriminate.
        -- right. rewrite Hrun. split; [reflexivity|]. cbn [fst]. split.
           ++ rewrite filter_app. reflexivity.
           ++ unfold checks_header. simpl. intuition discriminate.
        -- left. exists (t :: ts), r. exact Hrun.
  - right. unfold run, main, read_csv. rewrite Hcsv. step.
    split; [reflexivity|]. split; [reflexivity|].
    unfold checks_header. simpl. intuition discriminate.
Qed.

(** C3, as the specification states it, fails: on the response with 50
    seniors with a difficulty among 40 the checks fail, the run exits with
    status 1, and the output file has been written before the checks. *)
Lemma failed_checks_leave_output :
  let w := env_of [tract_108] [senior_excess_row] in
  let df := annotate [tract_108] [senior_excess_row] in
  data_quality_checks df <> [] /\
  snd (run w) = 1 /\
  filter is_ToCsv (fst (run w)) = [ToCsv output_file df] /\
  exists before after,
    fst (run w) = before ++ ToCsv output_file df :: after /\
    In checks_header after.
Proof.
  intros w df.
  assert (Hf : fetches w [tract_108]
                 {| status_code := 200; reason := "OK";
                    response_body := Table [senior_excess_row] |}).
  { repeat split. discriminate. }
  split; [vm_compute; discriminate|].
  split; [vm_compute; reflexivity|].
  split; [vm_compute; reflexivity|].
  rewrite (run_fetches _ _ _ Hf). cbn [fst json]. fold df.
  exists (events_load [tract_108]
          ++ events_fetch [tract_108] [senior_excess_row]
          ++ events_warning df ++ events_summary df),
         (Print (Saved output_file) :: events_checks df).
  split.
  - rewrite <- !app_assoc. reflexivity.
  - right. left. reflexivity.
Qed.

(** C3 (amended): a run that reaches the data quality checks has gone
    through its stages in the order of the source: load, fetch, merge,
    warning of missing data, summary, write of the output file, checks.  So
    a run whose checks fail exits with status 1 after it has written the
    output file. *)
Theorem checks_follow_save (w : env) :
  In checks_header (fst (run w)) ->
  exists tracts_df r,
    fetches w tracts_df r /\
    let df := annotate tracts_df (json r) in
    fst (run w) =
      events_load tracts_df ++ events_fetch tracts_df (json r)
      ++ events_warning df ++ events_summary df
      ++ events_save df ++ events_checks df /\
    filter is_ToCsv (fst (run w)) = [ToCsv output_file df] /\
    (data_quality_checks df <> [] ->
     snd (run w) = 1 /\
     last (fst (run w)) (Mkdir "") =
       Print (Line (String.concat newline (data_quality_checks df)))).
Proof.
  intros Hin.
  destruct (run_cases w) as [(tracts_df & r & Hf)|(_ & _ & Hno)];
    [|contradiction].
  exists tracts_df, r. split; [exact Hf|]. intros df.
  split; [|split].
  - rewrite (run_fetches w tracts_df r Hf). reflexivity.
  - rewrite (run_fetches w tracts_df r Hf). cbn [fst]. fold df.
    rewrite !filter_app.
    assert (Hw : filter is_ToCsv (events_warning df) = []).
    { unfold events_warning. destruct (missing_rows df); reflexivity. }
    assert (Hc : filter is_ToCsv (events_checks df) = []).
    { unfold events_checks. destruct (data_quality_checks df); reflexivity. }
    rewrite Hw, Hc. reflexivity.
  - apply run_fetches_fails, Hf.
Qed.

Lemma checks_follow_save_witness :
  let w := env_of [tract_108] [senior_excess_row] in
  exists tracts_df r,
    fetches w tracts_df r /\
    let df := annotate tracts_df (json r) in
    fst (run w) =
      events_load tracts_df ++ events_fetch tracts_df (json r)
      ++ events_warning df ++ events_summary df
      ++ events_save df ++ events_checks df /\
    filter is_ToCsv (fst (run w)) = [ToCsv output_file df] /\
    (data_quality_checks df <> [] ->
     snd (run w) = 1 /\
     last (fst (run w)) (Mkdir "") =
       Print (Line (String.concat newline (data_quality_checks df)))).
Proof.
  intros w. apply (checks_follow_save w).
  vm_compute. do 18 right. left. reflexivity.
Defined.

(** ** The left join *)

Lemma merge_cons t left right :
  merge (t :: left) right =
  match matching t right with
  | [] => [ {| annotated_tract := t; annotated_columns := missing_columns |} ]
  | ms => map (fun m : metrics_row =>
                 {| annotated_tract := t; annotated_columns := m |}) ms
  end ++ merge left right.
Proof. reflexivity. Qed.

(** The input rows of the merged table: the rows of the left table in their
    order, each once per matching right row and at least once. *)
Lemma merge_tracts left right :
  map annotated_tract (merge left right) =
  flat_map
    (fun t => repeat t (Nat.max 1 (List.length (matching t right)))) left.
Proof.
  induction left as [|t left IH]; [reflexivity|].
  rewrite merge_cons, map_app, IH. cbn [flat_map]. f_equal.
  destruct (matching t right) as [|m ms]; [reflexivity|].
  change (Nat.max 1 (List.length (m :: ms))) with (List.length (m :: ms)).
  generalize (m :: ms). intros l.
  induction l as [|x l IHl]; simpl; congruence.
Qed.

Lemma filter_key_unique {A} (key : A -> string) (k : string) (l : list A) :
  NoDup (map key l) ->
  (List.length (filter (fun a => String.eqb (key a) k) l) <= 1)%nat.
Proof.
  induction l as [|a l IH]; simpl; intros H; [lia|].
  inversion H as [|? ? Hn Hl]; subst.
  destruct (String.eqb_spec (key a) k) as [E|E]; [|auto].
  simpl. assert (Hnil : filter (fun a => String.eqb (key a) k) l = []).
  { destruct (filter _ l) as [|b bs] eqn:F; [reflexivity|].
    assert (Hb : In b (filter (fun a => String.eqb (key a) k) l))
      by (rewrite F; now left).
    apply filter_In in Hb as [Hb Hk]. apply String.eqb_eq in Hk.
    elim Hn. rewrite E, <- Hk. now apply in_map. }
  rewrite Hnil. simpl. lia.
Qed.

Lemma merge_unique_keys left right :
  NoDup (map metrics_GEOID right) ->
  map annotated_tract (merge left right) = left.
Proof.
  intros H. rewrite merge_tracts.
  induction left as [|t left IH]; [reflexivity|].
  cbn [flat_map]. rewrite IH.
  pose proof (filter_key_unique metrics_GEOID (tract_GEOID t) right H) as Hk.
  fold (matching t right) in Hk.
  destruct (List.length (matching t right)) as [|[|n]]; try lia; reflexivity.
Qed.

Lemma merge_columns left right r :
  In r (merge left right) ->
  In (annotated_tract r) left /\
  ((matching (annotated_tract r) right = [] /\
    annotated_columns r = missing_columns) \/
   exists m, In m (matching (annotated_tract r) right) /\
             annotated_columns r = metrics_columns m).
Proof.
  induction left as [|t left IH]; [intros []|].
  rewrite merge_cons. intros H. apply in_app_or in H as [H|H].
  - destruct (matching t right) as [|m ms] eqn:E.
    + destruct H as [<-|[]]. cbn. rewrite E. split; auto.
    + apply in_map_iff in H as (m' & <- & Hm'). cbn. rewrite E.
      split; [auto|]. right. exists m'. auto.
  - destruct (IH H) as [Hin Hc]. split; [now right|exact Hc].
Qed.

Lemma census_frame_GEOIDs data tract_geoids :
  map metrics_GEOID (calculate_metrics (census_frame data tract_geoids)) =
  filter (fun g => isin g tract_geoids) (map api_GEOID data).
Proof.
  unfold calculate_metrics, census_frame.
  induction data as [|r data IH]; [reflexivity|].
  cbn [map filter fst]. destruct (isin (api_GEOID r) tract_geoids); cbn.
  - f_equal. exact IH.
  - exact IH.
Qed.

Lemma matching_nil t right :
  ~ In (tract_GEOID t) (map metrics_GEOID right) -> matching t right = [].
Proof.
  intros H. unfold matching.
  destruct (filter _ right) as [|m ms] eqn:E; [reflexivity|].
  assert (Hm : In m (filter
                       (fun m => String.eqb (metrics_GEOID m) (tract_GEOID t))
                       right)) by (rewrite E; now left).
  apply filter_In in Hm as [Hm Hk]. apply String.eqb_eq in Hk.
  elim H. rewrite <- Hk. now apply in_map.
Qed.

(** A row without derived columns violates no check. *)
Lemma missing_violates_nothing r c :
  is_missing r = true -> In c checks -> snd c r = false.
Proof.
  unfold is_missing. intros H Hc.
  repeat (apply andb_prop in H as [H ?]).
  repeat match goal with
         | H : isna _ = true |- _ => apply isna_nan in H
         end.
  unfold checks in Hc. simpl in Hc.
  repeat (destruct Hc as [<-|Hc]); try contradiction; cbn [snd];
    unfold gtb, ltb;
    repeat match goal with H : _ = nan |- _ => rewrite H; clear H end;
    try reflexivity;
    match goal with
    | |- SFltb ?x nan = false => destruct x; reflexivity
    end.
Qed.

Lemma checks_skip_missing df :
  data_quality_checks (filter (fun r => negb (is_missing r)) df) =
  data_quality_checks df.
Proof.
  rewrite !data_quality_checks_violated. f_equal.
  apply filter_ext_in. intros c Hc. unfold any.
  induction df as [|r df IH]; [reflexivity|].
  simpl. destruct (is_missing r) eqn:E; simpl.
  - rewrite (missing_violates_nothing r c E Hc). exact IH.
  - rewrite IH. reflexivity.
Qed.

Lemma unique_response_keys data tract_geoids :
  NoDup (map api_GEOID data) ->
  NoDup (map metrics_GEOID
           (calculate_metrics (census_frame data tract_geoids))).
Proof.
  intros H. rewrite census_frame_GEOIDs. apply NoDup_filter, H.
Qed.

(** C9: the left join keeps the order of the input table: the input rows of
    the merged table are the rows of the input table in their order, each
    once per matching metrics row and at least once; with one metrics row
    per identifier they are the input table itself. *)
Theorem merge_preserves_order (left : list tract) (right : list metrics_row) :
  map annotated_tract (merge left right) =
    flat_map
      (fun t => repeat t (Nat.max 1 (List.length (matching t right)))) left /\
  (NoDup (map metrics_GEOID right) ->
   map annotated_tract (merge left right) = left).
Proof.
  split; [apply merge_tracts|apply merge_unique_keys].
Qed.

Lemma merge_preserves_order_witness :
  let left := [tract_108; tract_109] in
  let right :=
    calculate_metrics
      (census_frame [example_api_row] (map tract_GEOID left)) in
  map annotated_tract (merge left right) = left.
Proof.
  intros left right.
  apply (merge_preserves_order left right).
  repeat constructor. simpl. tauto.
Defined.

(** C4, as the specification states it, fails on a response that holds the
    row of a tract twice: the merged table has two rows for one input
    row. *)
Lemma repeated_response_row_repeats_tract :
  let tracts_df := [tract_108] in
  let df := annotate tracts_df [example_api_row; example_api_row] in
  List.length df = 2%nat /\
  List.length tracts_df = 1%nat /\
  List.length df <> List.length tracts_df.
Proof. vm_compute. repeat split. discriminate. Qed.

(** C4 (amended): when the response holds at most one row per identifier,
    however incomplete it is, the merged table holds every input row
    exactly once, so the row counts are equal; the six derived columns are
    missing in a row whose identifier is not in the response; and such a
    join miss is reported by a warning while the run goes on to write the
    table and to the exit status that the other rows give. *)
Theorem left_join_complete (tracts_df : list tract) (data : list api_row) :
  NoDup (map api_GEOID data) ->
  let df := annotate tracts_df data in
  map annotated_tract df = tracts_df /\
  List.length df = List.length tracts_df /\
  (forall r, In r df ->
     ~ In (tract_GEOID (annotated_tract r)) (map api_GEOID data) ->
     annotated_columns r = missing_columns) /\
  (forall w resp,
     fetches w tracts_df resp -> json resp = data ->
     (exists t, In t tracts_df /\
                ~ In (tract_GEOID t) (map api_GEOID data)) ->
     (exists n, (0 < n)%nat /\ In (Print (WarningMissing n)) (fst (run w))) /\
     In (ToCsv output_file df) (fst (run w)) /\
     snd (run w) =
       status_of_checks (filter (fun r => negb (is_missing r)) df)).
Proof.
  intros Hnd df.
  assert (Hmap : map annotated_tract df = tracts_df).
  { apply merge_unique_keys, unique_response_keys, Hnd. }
  assert (Hmiss : forall r, In r df ->
            ~ In (tract_GEOID (annotated_tract r)) (map api_GEOID data) ->
            annotated_columns r = missing_columns).
  { intros r Hr Hno. apply merge_columns in Hr as [_ [[_ Hc]|(m & Hm & _)]];
      [exact Hc|].
    rewrite matching_nil in Hm; [destruct Hm|].
    rewrite census_frame_GEOIDs. intros Hin.
    apply filter_In in Hin as [Hin _]. contradiction. }
  split; [exact Hmap|]. split.
  { rewrite <- (length_map annotated_tract df), Hmap. reflexivity. }
  split; [exact Hmiss|].
  intros w resp Hf Hjson (t & Ht & Hno).
  rewrite (run_fetches w tracts_df resp Hf). rewrite Hjson. fold df.
  cbn [fst snd].
  assert (Hrow : exists r, In r df /\ annotated_tract r = t).
  { rewrite <- Hmap in Ht. apply in_map_iff in Ht as (r & Hr & Hin). eauto. }
  destruct Hrow as (r & Hr & Hrt).
  assert (Hin : In r (missing_rows df)).
  { apply filter_In. split; [exact Hr|].
    rewrite (Hmiss r Hr); [reflexivity|]. now rewrite Hrt. }
  split; [|split].
  - exists (List.length (missing_rows df)). split.
    + destruct (missing_rows df); [destruct Hin|simpl; lia].
    + apply in_or_app. right. apply in_or_app. right.
      apply in_or_app. left. unfold events_warning.
      destruct (missing_rows df) as [|m ms]; [destruct Hin|]. now left.
  - apply in_or_app. right. apply in_or_app. right.
    apply in_or_app. right. apply in_or_app. right.
    apply in_or_app. left. now left.
  - unfold status_of_checks. now rewrite checks_skip_missing.
Qed.

Lemma left_join_complete_witness :
  let tracts_df := [tract_108; tract_109] in
  let data := [example_api_row] in
  let df := annotate tracts_df data in
  map annotated_tract df = tracts_df /\
  List.length df = List.length tracts_df /\
  (forall r, In r df ->
     ~ In (tract_GEOID (annotated_tract r)) (map api_GEOID data) ->
     annotated_columns r = missing_columns) /\
  (forall w resp,
     fetches w tracts_df resp -> json resp = data ->
     (exists t, In t tracts_df /\
                ~ In (tract_GEOID t) (map api_GEOID data)) ->
     (exists n, (0 < n)%nat /\ In (Print (WarningMissing n)) (fst (run w))) /\
     In (ToCsv output_file df) (fst (run w)) /\
     snd (run w) =
       status_of_checks (filter (fun r => negb (is_missing r)) df)).
Proof.
  intros tracts_df data.
  apply (left_join_complete tracts_df data).
  repeat constructor. simpl. tauto.
Defined.

(** The run on a response that misses one of two tracts: the warning counts
    one tract, the table of two rows is written, the exit status is 0. *)
Example join_miss_run :
  let w := env_of [tract_108; tract_109] [example_api_row] in
  let df := annotate [tract_108; tract_109] [example_api_row] in
  In (Print (WarningMissing 1)) (fst (run w)) /\
  filter is_ToCsv (fst (run w)) = [ToCsv output_file df] /\
  map is_missing df = [false; true] /\
  snd (run w) = 0.
Proof.
  vm_compute. split; [|repeat split].
  do 12 right. left. reflexivity.
Qed.

(** * Further properties *)

(** ** The percentage columns *)

Lemma fillna_isna v x : isna v = false -> isna (fillna v x) = false.
Proof. intros H. unfold fillna. destruct (isna x) eqn:E; assumption. Qed.

(** X1: neither percentage column of a row that [calculate_metrics] returns
    is missing, whatever the fetched cells are: the final [fillna(0)]
    replaces every NaN, also the one that a missing or empty denominator
    gives. *)
Theorem percentages_never_missing (df : list census_row) (m : metrics_row) :
  In m (calculate_metrics df) ->
  isna (total_amb_diff_pct m) = false /\
  isna (pop_65plus_amb_diff_pct m) = false.
Proof.
  unfold calculate_metrics. intros H.
  apply in_map_iff in H as (r & <- & _).
  destruct (calculate_metrics_row_columns r) as (_ & _ & _ & -> & _ & _ & ->).
  split; apply fillna_isna; reflexivity.
Qed.

Lemma percentages_never_missing_witness :
  isna (total_amb_diff_pct (calculate_metrics_row empty_tract_row)) = false /\
  isna (pop_65plus_amb_diff_pct (calculate_metrics_row empty_tract_row))
  = false.
Proof.
  apply (percentages_never_missing [empty_tract_row]). left. reflexivity.
Defined.

(** ** The fetched frame *)

Lemma isin_In v values : isin v values = true <-> In v values.
Proof.
  unfold isin. rewrite existsb_exists. split.
  - intros (x & Hx & E). apply String.eqb_eq in E. now subst.
  - intros H. exists v. split; [exact H|apply String.eqb_refl].
Qed.

Lemma census_frame_filter data tract_geoids :
  census_frame data tract_geoids =
  map (fun r => {| census_GEOID := api_GEOID r;
                   census_variables :=
                     map_variables to_numeric (api_variables r) |})
      (filter (fun r => isin (api_GEOID r) tract_geoids) data).
Proof.
  unfold census_frame.
  induction data as [|r data IH]; [reflexivity|].
  cbn [map filter fst snd]. destruct (isin (api_GEOID r) tract_geoids); cbn.
  - f_equal. exact IH.
  - exact IH.
Qed.

Lemma isin_ext tract_geoids tract_geoids' g :
  (forall g, In g tract_geoids <-> In g tract_geoids') ->
  isin g tract_geoids = isin g tract_geoids'.
Proof.
  intros H. destruct (isin g tract_geoids') eqn:E.
  - apply isin_In, H, isin_In, E.
  - destruct (isin g tract_geoids) eqn:E'; [|reflexivity].
    apply isin_In, H, isin_In in E'. congruence.
Qed.

(** X2: the table that [fetch_b18105_data] builds from a response holds,
    in the order of the response, one row for each response row whose GEOID
    (state, county and tract, joined) is among the requested ones, and no
    other row: that row has the GEOID and the fifteen variables of the
    response row, each made numeric.  Only the set of the requested GEOIDs
    matters, not their order or number, and the table never has more rows
    than the response. *)
Theorem census_frame_requested data tract_geoids :
  census_frame data tract_geoids =
    map (fun a => {| census_GEOID := api_GEOID a;
                     census_variables :=
                       map_variables to_numeric (api_variables a) |})
        (filter (fun a => isin (api_GEOID a) tract_geoids) data) /\
  (forall c, In c (census_frame data tract_geoids) <->
     exists a, In a data /\ In (api_GEOID a) tract_geoids /\
               census_GEOID c = api_GEOID a /\
               cells c = map to_numeric (cells (api_variables a))) /\
  (forall tract_geoids',
     (forall g, In g tract_geoids <-> In g tract_geoids') ->
     census_frame data tract_geoids' = census_frame data tract_geoids) /\
  (List.length (census_frame data tract_geoids) <= List.length data)%nat.
Proof.
  split; [apply census_frame_filter|]. split; [|split].
  - intros c. rewrite census_frame_filter, in_map_iff. split.
    + intros (a & <- & Ha). apply filter_In in Ha as [Ha Hin].
      exists a. split; [exact Ha|]. split; [apply isin_In, Hin|].
      split; reflexivity.
    + intros (a & Ha & Hin & Hg & Hc). exists a. split.
      * destruct c as [g v]. cbn in Hg, Hc. subst g. f_equal.
        destruct v, (api_variables a). cbn in Hc.
        injection Hc as -> -> -> -> -> -> -> -> -> -> -> -> -> -> ->.
        reflexivity.
      * apply filter_In. split; [exact Ha|apply isin_In, Hin].
  - intros tract_geoids' H. rewrite !census_frame_filter. f_equal.
    apply filter_ext. intros a. symmetry. apply isin_ext, H.
  - rewrite census_frame_filter, length_map. apply filter_length_le.
Qed.

(** ** Runs that end before the request *)

Lemma run_unreadable w :
  tracts_csv w = None ->
  run w =
  ([ Mkdir GENERATED_DIR;
     Print (Line "Reading generated/tracts_within_1mile.csv...");
     ReadCsv "generated/tracts_within_1mile.csv";
     PrintErr (Traceback
                 (FileNotFoundError "generated/tracts_within_1mile.csv")) ],
   1).
Proof.
  intros H. unfold run, main, read_csv. rewrite H. step. reflexivity.
Qed.

Lemma run_empty w :
  tracts_csv w = Some [] ->
  run w =
  ([ Mkdir GENERATED_DIR;
     Print (Line "Reading generated/tracts_within_1mile.csv...");
     ReadCsv "generated/tracts_within_1mile.csv";
     Print (Found 0);
     Print (Tracts []);
     Print (Line (newline ++ "Fetching Census B18105 data..."));
     PrintErr (Traceback IndexError) ],
   1).
Proof.
  intros H. unfold run, main, read_csv, fetch_b18105_data. rewrite H. step.
  reflexivity.
Qed.

Lemma run_transport_uncaught w tracts_df e :
  tracts_csv w = Some tracts_df ->
  tracts_df <> [] ->
  census_api w (request_url tracts_df) = inl e ->
  is_RequestException e = false ->
  run w =
  (events_load tracts_df
   ++ [Get (request_url tracts_df); PrintErr (Traceback e)], 1).
Proof.
  intros Hcsv Hne Hapi He.
  destruct tracts_df as [|t ts]; [congruence|].
  unfold run, main, read_csv, fetch_b18105_data, requests_get.
  rewrite Hcsv. unfold request_url in Hapi. step. step.
  rewrite Hapi. step. rewrite He. step. reflexivity.
Qed.

(** X3: when the tract table cannot be read, or is read and has no row, the
    run sends no request and writes no file; it ends with status 1 and a
    traceback as its last event, which for the empty table is the
    [IndexError] of [tract_geoids[0]]. *)
Theorem no_rows_no_request w :
  tracts_csv w = None \/ tracts_csv w = Some [] ->
  snd (run w) = 1 /\
  filter is_Get (fst (run w)) = [] /\
  filter is_ToCsv (fst (run w)) = [] /\
  exists e,
    last (fst (run w)) (Mkdir "") = PrintErr (Traceback e) /\
    (tracts_csv w = Some [] -> e = IndexError).
Proof.
  intros [H|H].
  - rewrite (run_unreadable w H). repeat split.
    eexists. split; [reflexivity|]. congruence.
  - rewrite (run_empty w H). repeat split.
    exists IndexError. split; reflexivity.
Qed.

Lemma no_rows_no_request_witness :
  let w := env_of [] [] in
  snd (run w) = 1 /\
  filter is_Get (fst (run w)) = [] /\
  filter is_ToCsv (fst (run w)) = [] /\
  exists e,
    last (fst (run w)) (Mkdir "") = PrintErr (Traceback e) /\
    (tracts_csv w = Some [] -> e = IndexError).
Proof. apply (no_rows_no_request (env_of [] [])). right. reflexivity. Defined.

(** ** The shape of every run *)

Lemma filter_events_load p :
  (forall path, p (Mkdir path) = false) ->
  (forall path, p (ReadCsv path) = false) ->
  (forall m, p (Print m) = false) ->
  forall tracts_df, filter p (events_load tracts_df) = [].
Proof.
  intros H1 H2 H3 tracts_df. unfold events_load. cbn [filter].
  now rewrite H1, H2, !H3.
Qed.

Lemma filter_prints p l :
  (forall m, p (Print m) = false) ->
  Forall (fun e => exists m, e = Print m) l ->
  filter p l = [].
Proof.
  intros Hp H. induction H as [|e l [m ->] _ IH]; [reflexivity|].
  cbn [filter]. now rewrite Hp.
Qed.

Lemma events_warning_prints df :
  Forall (fun e => exists m, e = Print m) (events_warning df).
Proof.
  unfold events_warning. destruct (missing_rows df); repeat constructor; eauto.
Qed.

Lemma events_summary_prints df :
  Forall (fun e => exists m, e = Print m) (events_summary df).
Proof. repeat constructor; eauto. Qed.

Lemma events_checks_prints df :
  Forall (fun e => exists m, e = Print m) (events_checks df).
Proof.
  unfold events_checks.
  destruct (data_quality_checks df); repeat constructor; eauto.
Qed.

(** A run that does not get its data ends with one message on the error
    stream, after events that write nothing. *)
Lemma run_shape w :
  (exists tracts_df r, fetches w tracts_df r) \/
  (exists pre m,
     run w = (pre ++ [PrintErr m], 1) /\
     hd_error pre = Some (Mkdir GENERATED_DIR) /\
     filter is_ToCsv pre = [] /\
     filter is_PrintErr pre = [] /\
     (List.length (filter is_Get pre) <= 1)%nat).
Proof.
  destruct (tracts_csv w) as [[|t ts]|] eqn:Hcsv.
  - right. rewrite (run_empty w Hcsv).
    eexists (_ :: _ :: _ :: _ :: _ :: [_]), _.
    split; [reflexivity|]. repeat split. cbn. lia.
  - assert (Hne : t :: ts <> []) by discriminate.
    assert (Hload : forall x,
              hd_error (events_load (t :: ts) ++ x)
              = Some (Mkdir GENERATED_DIR)) by reflexivity.
    destruct (census_api w (request_url (t :: ts))) as [e|r] eqn:Hapi.
    + right. exists (events_load (t :: ts) ++ [Get (request_url (t :: ts))]).
      destruct (is_RequestException e) eqn:He.
      * exists (ErrorFetching e).
        rewrite (run_request_fails w (t :: ts) e Hcsv Hne
                   (transport_failure w _ e Hapi He)).
        rewrite <- app_assoc. split; [reflexivity|].
        split; [apply Hload|]. rewrite !filter_app.
        repeat split. cbn. lia.
      * exists (Traceback e).
        rewrite (run_transport_uncaught w (t :: ts) e Hcsv Hne Hapi He).
        rewrite <- app_assoc. split; [reflexivity|].
        split; [apply Hload|]. rewrite !filter_app.
        repeat split. cbn. lia.
    + destruct (error_status (status_code r)) eqn:Hst.
      * right.
        exists (events_load (t :: ts) ++ [Get (request_url (t :: ts))]),
               (ErrorFetching (HTTPError (status_code r) (reason r)
                                 (request_url (t :: ts)))).
        rewrite (run_request_fails w (t :: ts) _ Hcsv Hne
                   (http_failure w _ r Hapi Hst)).
        rewrite <- app_assoc. split; [reflexivity|].
        split; [apply Hload|]. rewrite !filter_app.
        repeat split. cbn. lia.
      * pose proof (run_answered w (t :: ts) r Hcsv Hne Hapi Hst) as Hrun.
        destruct (response_body r) as [|e|data].
        -- right.
           exists (events_load (t :: ts) ++ [Get (request_url (t :: ts))]),
                  (ErrorFetching JSONDecodeError).
           rewrite Hrun, <- app_assoc. split; [reflexivity|].
           split; [apply Hload|]. rewrite !filter_app.
           repeat split. cbn. lia.
        -- right.
           exists (events_load (t :: ts) ++ [Get (request_url (t :: ts))]),
                  (Traceback (table_exn e)).
           rewrite Hrun, <- app_assoc. split; [reflexivity|].
           split; [apply Hload|]. rewrite !filter_app.
           repeat split. cbn. lia.
        -- left. exists (t :: ts), r. exact Hrun.
  - right. rewrite (run_unreadable w Hcsv).
    eexists (_ :: _ :: [_]), _.
    split; [reflexivity|]. repeat split. cbn. lia.
Qed.

Lemma run_fetches_effects w tracts_df r :
  fetches w tracts_df r ->
  let df := annotate tracts_df (json r) in
  hd_error (fst (run w)) = Some (Mkdir GENERATED_DIR) /\
  filter is_Get (fst (run w)) = [Get (request_url tracts_df)] /\
  filter is_ToCsv (fst (run w)) = [ToCsv output_file df] /\
  filter is_PrintErr (fst (run w)) = [] /\
  snd (run w) = status_of_checks df.
Proof.
  intros Hf df. rewrite (run_fetches w tracts_df r Hf). cbn [fst snd].
  fold df. split; [reflexivity|]. rewrite !filter_app.
  rewrite !(filter_prints _ _ (fun _ => eq_refl) (events_warning_prints df)).
  rewrite !(filter_prints _ _ (fun _ => eq_refl) (events_summary_prints df)).
  rewrite !(filter_prints _ _ (fun _ => eq_refl) (events_checks_prints df)).
  repeat split.
Qed.

Lemma status_of_checks_cases df :
  (data_quality_checks df = [] /\ status_of_checks df = 0) \/
  (data_quality_checks df <> [] /\ status_of_checks df = 1).
Proof.
  unfold status_of_checks.
  destruct (data_quality_checks df); [left|right]; split;
    try reflexivity; discriminate.
Qed.

(** X4: every run ends with status 0 or 1, and with 0 exactly when the tract
    table was read, the request was answered without an error status by a
    table, and the merged table fails none of the data quality checks. *)
Theorem exit_status w :
  (snd (run w) = 0 \/ snd (run w) = 1) /\
  (snd (run w) = 0 <->
   exists tracts_df r,
     fetches w tracts_df r /\
     data_quality_checks (annotate tracts_df (json r)) = []).
Proof.
  destruct (run_shape w) as [(tracts_df & r & Hf)|(pre & m & Hrun & _)].
  - destruct (run_fetches_effects w tracts_df r Hf) as (_ & _ & _ & _ & Hs).
    destruct (status_of_checks_cases (annotate tracts_df (json r)))
      as [[Hc H0]|[Hc H1]].
    + split; [left; congruence|]. split; [eauto|congruence].
    + split; [right; congruence|]. split; [congruence|].
      intros (tr' & r' & Hf' & Hc').
      assert (tr' = tracts_df)
        by (destruct Hf as [E _], Hf' as [E' _]; congruence).
      subst tr'.
      assert (r' = r)
        by (destruct Hf as (_ & _ & E & _), Hf' as (_ & _ & E' & _);
            congruence).
      subst r'. contradiction.
  - rewrite Hrun. cbn [snd]. split; [now right|]. split; [discriminate|].
    intros (tracts_df & r & Hf & _).
    destruct (run_fetches_effects w tracts_df r Hf) as (_ & _ & _ & H & _).
    rewrite Hrun in H. cbn [fst] in H. rewrite filter_app in H. cbn in H.
    destruct (filter is_PrintErr pre); discriminate.
Qed.

(** X5: every run starts by making the output directory, sends at most one
    request, to the URL of the tract table it has read, and writes at most
    one file, the annotated table of a run whose request was answered, to
    the output path. *)
Theorem run_effects w :
  hd_error (fst (run w)) = Some (Mkdir GENERATED_DIR) /\
  (List.length (filter is_Get (fst (run w))) <= 1)%nat /\
  (forall url, In (Get url) (fst (run w)) ->
     exists tracts_df, tracts_csv w = Some tracts_df /\
                       url = request_url tracts_df) /\
  (List.length (filter is_ToCsv (fst (run w))) <= 1)%nat /\
  (forall path df, In (ToCsv path df) (fst (run w)) ->
     path = output_file /\
     exists tracts_df r,
       fetches w tracts_df r /\ df = annotate tracts_df (json r)).
Proof.
  destruct (run_shape w)
    as [(tracts_df & r & Hf)|(pre & m & Hrun & Hhd & Hcsv & _ & Hget)].
  - destruct (run_fetches_effects w tracts_df r Hf)
      as (Hhd & Hget & Hcsv & _ & _).
    split; [exact Hhd|]. rewrite Hget, Hcsv. split; [cbn; lia|].
    split; [|split; [cbn; lia|]].
    + intros url Hin.
      assert (H : In (Get url) (filter is_Get (fst (run w))))
        by (apply filter_In; auto).
      rewrite Hget in H. destruct H as [H|[]]. injection H as <-.
      exists tracts_df. split; [apply Hf|reflexivity].
    + intros path df Hin.
      assert (H : In (ToCsv path df) (filter is_ToCsv (fst (run w))))
        by (apply filter_In; auto).
      rewrite Hcsv in H. destruct H as [H|[]]. injection H as <- <-.
      split; [reflexivity|]. eauto.
  - rewrite Hrun. cbn [fst].
    split; [destruct pre; [discriminate|exact Hhd]|].
    rewrite !filter_app, Hcsv. cbn [filter is_Get is_ToCsv app].
    rewrite app_nil_r. split; [exact Hget|].
    split; [|split; [cbn; lia|]].
    + intros url Hin.
      destruct (tracts_csv w) as [[|t ts]|] eqn:E.
      * rewrite (run_empty w E) in Hrun. injection Hrun as Hpre.
        rewrite <- Hpre in Hin. cbn in Hin.
        repeat (destruct Hin as [Hin|Hin]; try discriminate). destruct Hin.
      * exists (t :: ts). split; [reflexivity|].
        assert (Hne : t :: ts <> []) by discriminate.
        assert (Hg : filter is_Get (pre ++ [PrintErr m])
                     = [Get (request_url (t :: ts))]).
        { destruct (census_api w (request_url (t :: ts))) as [e|r] eqn:Hapi.
          - destruct (is_RequestException e) eqn:He.
            + rewrite (run_request_fails w (t :: ts) e E Hne
                         (transport_failure w _ e Hapi He)) in Hrun.
              injection Hrun as <-. reflexivity.
            + rewrite (run_transport_uncaught w (t :: ts) e E Hne Hapi He)
                in Hrun.
              injection Hrun as <-. reflexivity.
          - destruct (error_status (status_code r)) eqn:Hst.
            + rewrite (run_request_fails w (t :: ts) _ E Hne
                         (http_failure w _ r Hapi Hst)) in Hrun.
              injection Hrun as <-. reflexivity.
            + pose proof (run_answered w (t :: ts) r E Hne Hapi Hst) as Hf.
              destruct (response_body r) as [|e|data].
              * rewrite Hf in Hrun. injection Hrun as <-. reflexivity.
              * rewrite Hf in Hrun. injection Hrun as <-. reflexivity.
              * destruct (run_fetches_effects w _ r Hf)
                  as (_ & _ & _ & H & _).
                rewrite Hrun in H. cbn [fst] in H. rewrite filter_app in H.
                cbn in H. destruct (filter is_PrintErr pre); discriminate. }
        assert (H : In (Get url) (filter is_Get (pre ++ [PrintErr m])))
          by (apply filter_In; auto).
        rewrite Hg in H. destruct H as [H|[]]. now injection H as <-.
      * rewrite (run_unreadable w E) in Hrun. injection Hrun as Hpre.
        rewrite <- Hpre in Hin. cbn in Hin.
        repeat (destruct Hin as [Hin|Hin]; try discriminate). destruct Hin.
    + intros path df Hin.
      assert (H : In (ToCsv path df) (filter is_ToCsv (pre ++ [PrintErr m])))
        by (apply filter_In; auto).
      rewrite filter_app, Hcsv in H. destruct H.
Qed.

(** X6: a run prints nothing on the error stream exactly when its request
    was answered without an error status by a body that is a table; any
    other run ends with status 1 and prints exactly one message on the
    error stream, as its last event.  For an answer without an error status
    that message is the caught [JSONDecodeError] when the body is no JSON,
    and the traceback of the failing statement when the body is JSON but
    no table. *)
Theorem error_stream w :
  (filter is_PrintErr (fst (run w)) = [] <->
   exists tracts_df r, fetches w tracts_df r) /\
  (filter is_PrintErr (fst (run w)) <> [] ->
   snd (run w) = 1 /\
   exists m, filter is_PrintErr (fst (run w)) = [PrintErr m] /\
             last (fst (run w)) (Mkdir "") = PrintErr m) /\
  (forall tracts_df r,
     tracts_csv w = Some tracts_df -> tracts_df <> [] ->
     census_api w (request_url tracts_df) = inr r ->
     error_status (status_code r) = false ->
     match response_body r with
     | NotJson =>
         filter is_PrintErr (fst (run w))
         = [PrintErr (ErrorFetching JSONDecodeError)]
     | NotTable e =>
         filter is_PrintErr (fst (run w))
         = [PrintErr (Traceback (table_exn e))]
     | Table _ => filter is_PrintErr (fst (run w)) = []
     end).
Proof.
  assert (Hbody : forall tracts_df r,
     tracts_csv w = Some tracts_df -> tracts_df <> [] ->
     census_api w (request_url tracts_df) = inr r ->
     error_status (status_code r) = false ->
     match response_body r with
     | NotJson =>
         filter is_PrintErr (fst (run w))
         = [PrintErr (ErrorFetching JSONDecodeError)]
     | NotTable e =>
         filter is_PrintErr (fst (run w))
         = [PrintErr (Traceback (table_exn e))]
     | Table _ => filter is_PrintErr (fst (run w)) = []
     end).
  { intros tracts_df r Hcsv Hne Hapi Hst.
    pose proof (run_answered w tracts_df r Hcsv Hne Hapi Hst) as Hrun.
    destruct (response_body r) as [|e|data].
    - rewrite Hrun. cbn [fst]. rewrite filter_app, filter_events_load;
        reflexivity.
    - rewrite Hrun. cbn [fst]. rewrite filter_app, filter_events_load;
        reflexivity.
    - apply (run_fetches_effects w tracts_df r Hrun). }
  destruct (run_shape w)
    as [(tracts_df & r & Hf)|(pre & m & Hrun & _ & _ & Herr & _)].
  - destruct (run_fetches_effects w tracts_df r Hf) as (_ & _ & _ & H & _).
    split; [split; eauto|]. split; [|exact Hbody].
    intros Hne. contradiction.
  - assert (Hone : filter is_PrintErr (fst (run w)) = [PrintErr m]).
    { rewrite Hrun. cbn [fst]. rewrite filter_app, Herr. reflexivity. }
    split; [|split; [|exact Hbody]].
    + rewrite Hone. split; [discriminate|].
      intros (tracts_df & r & Hf).
      destruct (run_fetches_effects w tracts_df r Hf) as (_ & _ & _ & H & _).
      congruence.
    + intros _. rewrite Hone, Hrun. cbn [fst snd].
      split; [reflexivity|]. exists m. split; [reflexivity|apply last_last].
Qed.

(** ** The state and the county of the request *)

Lemma substring_prefix_5 s :
  substring 0 2 (substring 0 5 s) = substring 0 2 s /\
  substring 2 3 (substring 0 5 s) = substring 2 3 s.
Proof.
  destruct s as [|a [|b [|c [|d [|e [|f s]]]]]]; split; reflexivity.
Qed.

(** X7: the request URL is built from the first five characters of the
    first GEOID only: two tract tables whose first GEOIDs agree on them
    give the same request, whatever the other tracts are. *)
Theorem request_url_prefix t1 ts1 t2 ts2 :
  substring 0 5 (tract_GEOID t1) = substring 0 5 (tract_GEOID t2) ->
  request_url (t1 :: ts1) = request_url (t2 :: ts2).
Proof.
  intros H. unfold request_url.
  destruct (substring_prefix_5 (tract_GEOID t1)) as [<- <-].
  destruct (substring_prefix_5 (tract_GEOID t2)) as [<- <-].
  now rewrite H.
Qed.

Lemma request_url_prefix_witness :
  request_url [tract_108; tract_109] = request_url [tract_109].
Proof. apply request_url_prefix. reflexivity. Defined.

Lemma GEOID_prefix g tract :
  (5 <= String.length g)%nat ->
  substring 0 5 (substring 0 2 g ++ substring 2 3 g ++ tract)
  = substring 0 5 g.
Proof.
  destruct g as [|a [|b [|c [|d [|e s]]]]]; cbn [String.length];
    try lia. intros _. cbn. destruct s, tract; reflexivity.
Qed.

(** X8: the request asks for the county of the first tract only.  When the
    response holds rows of that state and county, a tract of the table
    whose GEOID starts with another state or county finds no row, and its
    derived columns are all missing. *)
Theorem other_county_unmatched t0 ts data r :
  (5 <= String.length (tract_GEOID t0))%nat ->
  Forall (fun a => api_state a = substring 0 2 (tract_GEOID t0) /\
                   api_county a = substring 2 3 (tract_GEOID t0)) data ->
  In r (annotate (t0 :: ts) data) ->
  substring 0 5 (tract_GEOID (annotated_tract r))
    <> substring 0 5 (tract_GEOID t0) ->
  annotated_columns r = missing_columns.
Proof.
  intros Hlen Hdata Hr Hpre.
  apply merge_columns in Hr as [_ [[_ Hc]|(m & Hm & _)]]; [exact Hc|].
  rewrite matching_nil in Hm; [destruct Hm|].
  rewrite census_frame_GEOIDs. intros Hin.
  apply filter_In in Hin as [Hin _].
  apply in_map_iff in Hin as (a & Ha & Hina).
  rewrite Forall_forall in Hdata. destruct (Hdata a Hina) as [Hs Hc].
  apply Hpre. rewrite <- Ha. unfold api_GEOID. rewrite Hs, Hc.
  apply GEOID_prefix, Hlen.
Qed.

Lemma other_county_unmatched_witness :
  let r := {| annotated_tract := tract_6001;
              annotated_columns := missing_columns |} in
  In r (annotate [tract_108; tract_6001] [example_api_row]) /\
  annotated_columns r = missing_columns.
Proof.
  assert (H : In {| annotated_tract := tract_6001;
                    annotated_columns := missing_columns |}
                (annotate [tract_108; tract_6001] [example_api_row])).
  { vm_compute. right. left. reflexivity. }
  split; [exact H|].
  apply (other_county_unmatched tract_108 [tract_6001] [example_api_row]).
  - cbn. lia.
  - repeat constructor.
  - exact H.
  - cbn. discriminate.
Defined.

(** ** The rows of the left join *)

Lemma matching_In t right m :
  In m (matching t right) <->
  In m right /\ metrics_GEOID m = tract_GEOID t.
Proof.
  unfold matching. rewrite filter_In, String.eqb_eq. reflexivity.
Qed.

Lemma matching_nil_iff t right :
  matching t right = [] <->
  forall m, In m right -> metrics_GEOID m <> tract_GEOID t.
Proof.
  split.
  - intros H m Hm E.
    assert (Hin : In m (matching t right)) by (apply matching_In; auto).
    rewrite H in Hin. destruct Hin.
  - intros H. destruct (matching t right) as [|m ms] eqn:E; [reflexivity|].
    assert (Hin : In m (matching t right)) by (rewrite E; now left).
    apply matching_In in Hin as [Hin Hk]. elim (H m Hin Hk).
Qed.

Lemma merge_In left right t c :
  In {| annotated_tract := t; annotated_columns := c |} (merge left right) <->
  In t left /\
  ((exists m, In m right /\ metrics_GEOID m = tract_GEOID t /\
              c = metrics_columns m) \/
   ((forall m, In m right -> metrics_GEOID m <> tract_GEOID t) /\
    c = missing_columns)).
Proof.
  induction left as [|t' left IH]; [cbn; tauto|].
  rewrite merge_cons, in_app_iff, IH. clear IH. cbn [In].
  assert (Hhead :
    In {| annotated_tract := t; annotated_columns := c |}
       match matching t' right with
       | [] => [ {| annotated_tract := t';
                    annotated_columns := missing_columns |} ]
       | ms => map (fun m : metrics_row =>
                      {| annotated_tract := t';
                         annotated_columns := m |}) ms
       end <->
    t' = t /\
    ((exists m, In m right /\ metrics_GEOID m = tract_GEOID t /\
                c = metrics_columns m) \/
     ((forall m, In m right -> metrics_GEOID m <> tract_GEOID t) /\
      c = missing_columns))).
  { destruct (matching t' right) as [|m0 ms] eqn:E.
    - split.
      + intros [H|[]]. injection H as -> <-. split; [reflexivity|].
        right. split; [|reflexivity]. now apply matching_nil_iff.
      + intros [-> [(m & Hm & Hk & _)|[_ ->]]]; [|now left].
        elim (proj1 (matching_nil_iff _ _) E m Hm Hk).
    - rewrite <- E. rewrite in_map_iff. split.
      + intros (m & H & Hm). injection H as -> <-.
        apply matching_In in Hm as [Hm Hk]. split; [reflexivity|].
        left. eauto.
      + intros [-> [(m & Hm & Hk & ->)|[Hno _]]].
        * exists m. split; [reflexivity|]. now apply matching_In.
        * apply (proj2 (matching_nil_iff _ _)) in Hno. congruence. }
  rewrite Hhead. tauto.
Qed.

(** X9: every row of the merged table of a run is a tract of the input
    table with the numbers of its own tract: its six columns are computed
    from a response row with the GEOID of the tract, or they are all
    missing and the response has no row with that GEOID.  Conversely each
    such pairing is a row of the merged table: the selection of the
    requested rows drops no row that a tract of the table needs. *)
Theorem annotated_rows_sound tracts_df data t c :
  In {| annotated_tract := t; annotated_columns := c |}
     (annotate tracts_df data) <->
  In t tracts_df /\
  ((exists a, In a data /\ api_GEOID a = tract_GEOID t /\
              c = metrics_columns
                    (calculate_metrics_row
                       {| census_GEOID := api_GEOID a;
                          census_variables :=
                            map_variables to_numeric (api_variables a) |})) \/
   ((forall a, In a data -> api_GEOID a <> tract_GEOID t) /\
    c = missing_columns)).
Proof.
  unfold annotate. rewrite merge_In.
  set (right := calculate_metrics
                  (census_frame data (map tract_GEOID tracts_df))).
  assert (Hright : forall m, In m right <->
            exists a, In a data /\
              isin (api_GEOID a) (map tract_GEOID tracts_df) = true /\
              m = calculate_metrics_row
                    {| census_GEOID := api_GEOID a;
                       census_variables :=
                         map_variables to_numeric (api_variables a) |}).
  { intros m. unfold right, calculate_metrics.
    rewrite census_frame_filter, map_map, in_map_iff. split.
    - intros (a & <- & Ha). apply filter_In in Ha as [Ha Hin]. eauto.
    - intros (a & Ha & Hin & ->). exists a. split; [reflexivity|].
      apply filter_In. auto. }
  split; intros [Ht H]; (split; [exact Ht|]).
  - destruct H as [(m & Hm & Hk & ->)|[Hno ->]].
    + apply Hright in Hm as (a & Ha & _ & ->). left. exists a.
      split; [exact Ha|]. split; [exact Hk|reflexivity].
    + right. split; [|reflexivity]. intros a Ha Hk.
      apply (Hno (calculate_metrics_row
                    {| census_GEOID := api_GEOID a;
                       census_variables :=
                         map_variables to_numeric (api_variables a) |})).
      * apply Hright. exists a. split; [exact Ha|]. split; [|reflexivity].
        apply isin_In. rewrite Hk. now apply in_map.
      * exact Hk.
  - destruct H as [(a & Ha & Hk & ->)|[Hno ->]].
    + left. eexists. split; [|split; [|reflexivity]].
      * apply Hright. exists a. split; [exact Ha|]. split; [|reflexivity].
        apply isin_In. rewrite Hk. now apply in_map.
      * exact Hk.
    + right. split; [|reflexivity]. intros m Hm Hk.
      apply Hright in Hm as (a & Ha & _ & ->). exact (Hno a Ha Hk).
Qed.

(** ** Comparisons of binary64 numbers *)

Lemma SFcompare_antisym x y :
  SFcompare y x = option_map CompOpp (SFcompare x y).
Proof.
  destruct x as [sx|sx| |sx mx ex], y as [sy|sy| |sy my ey];
    try reflexivity; cbn [SFcompare option_map];
    try (destruct sx, sy; reflexivity);
    try (destruct sx; reflexivity); try (destruct sy; reflexivity).
  destruct sx, sy; try reflexivity; f_equal;
    rewrite (Z.compare_antisym ex ey);
    destruct (Z.compare ex ey); try reflexivity; cbn [CompOpp];
    change (Pos.compare_cont Eq my mx) with (Pos.compare my mx);
    change (Pos.compare_cont Eq mx my) with (Pos.compare mx my);
    rewrite (Pos.compare_antisym mx my);
    destruct (Pos.compare mx my); reflexivity.
Qed.

Lemma leb_not_gtb x y : leb x y = true -> gtb x y = false.
Proof.
  unfold leb, gtb, SFleb, SFltb. rewrite (SFcompare_antisym x y).
  destruct (SFcompare x y) as [[| |]|]; try discriminate; reflexivity.
Qed.

Lemma SFcompare_defined x y :
  isna x = false -> isna y = false -> SFcompare x y <> None.
Proof.
  destruct x as [sx|sx| |sx mx ex]; try discriminate;
    destruct y as [sy|sy| |sy my ey]; try discriminate; intros _ _;
    cbn [SFcompare]; try (destruct sx; discriminate);
    try (destruct sy; discriminate); try (destruct sx, sy; discriminate).
Qed.

Lemma not_gtb_leb x y :
  isna x = false -> isna y = false -> gtb x y = false -> leb x y = true.
Proof.
  intros Hx Hy. pose proof (SFcompare_defined x y Hx Hy) as Hd.
  unfold leb, gtb, SFleb, SFltb. rewrite (SFcompare_antisym x y).
  destruct (SFcompare x y) as [[| |]|]; cbn; congruence.
Qed.

(** ** The checks on plausible responses *)

Lemma count_cell_split xs :
  Forall count_cell xs ->
  Exists (fun x => isna x = true) xs \/ (Forall valid xs /\ Forall nonneg xs).
Proof.
  induction 1 as [|x xs [Hx|[Hv Hn]] _ [IH|[IHv IHn]]].
  - right. split; constructor.
  - left. now left.
  - left. now left.
  - left. now right.
  - right. split; constructor; assumption.
Qed.

Lemma sum_count_cell x xs :
  Forall count_cell (x :: xs) -> count_cell (sum (x :: xs)).
Proof.
  intros H. destruct (count_cell_split _ H) as [Hna|[Hv Hn]].
  - left. rewrite (sum_nan _ Hna). reflexivity.
  - right. apply sum_valid_nonneg; assumption.
Qed.

Lemma count_cell_not_negative x : count_cell x -> ltb x (of_Z 0) = false.
Proof.
  intros [Hx|[_ Hn]].
  - apply isna_nan in Hx. subst x. reflexivity.
  - exact (leb_not_gtb _ _ Hn).
Qed.

Lemma percentage_nan_l d : percentage nan d = nan.
Proof. reflexivity. Qed.

(** A stored percentage above 100 comes from a count above its
    denominator. *)
Lemma count_cell_percentage c d :
  count_cell c -> count_cell d ->
  gtb (fillna (of_Z 0) (percentage c d)) (of_Z 100) = true ->
  gtb c d = true.
Proof.
  intros [Hc|[Hvc Hnc]].
  { apply isna_nan in Hc. subst c. rewrite percentage_nan_l. discriminate. }
  intros [Hd|[Hvd Hnd]].
  { apply isna_nan in Hd. subst d. rewrite percentage_nan_r. discriminate. }
  intros Hp. destruct (gtb c d) eqn:E; [reflexivity|].
  assert (Hle : leb c d = true).
  { apply not_gtb_leb; [| |exact E].
    - destruct c; try reflexivity. discriminate Hnc.
    - destruct d; try reflexivity. discriminate Hnd. }
  destruct (percentage_in_range c d Hvc Hvd Hnc Hle) as [_ H100].
  apply leb_not_gtb in H100. congruence.
Qed.

(** The derived columns of a row of the merged table: missing, or computed
    from a row of the response. *)
Lemma annotate_columns tracts_df data r :
  In r (annotate tracts_df data) ->
  annotated_columns r = missing_columns \/
  exists a, In a data /\
    annotated_columns r =
    metrics_columns
      (calculate_metrics_row
         {| census_GEOID := api_GEOID a;
            census_variables :=
              map_variables to_numeric (api_variables a) |}).
Proof.
  intros H. apply merge_columns in H as [_ [[_ H]|(m & Hm & H)]]; [now left|].
  right. apply filter_In in Hm as [Hm _].
  unfold calculate_metrics in Hm. apply in_map_iff in Hm as (c & <- & Hc).
  rewrite census_frame_filter in Hc.
  apply in_map_iff in Hc as (a & <- & Ha). apply filter_In in Ha as [Ha _].
  exists a. split; assumption.
Qed.

(** A check is reported exactly when a row of the table violates it. *)
Lemma reported_iff c df :
  In c checks ->
  (In (fst c) (data_quality_checks df) <->
   exists r, In r df /\ snd c r = true).
Proof.
  intros Hc. rewrite data_quality_checks_violated.
  rewrite (In_map_filter_NoDup fst _ checks c NoDup_messages Hc).
  apply any_exists.
Qed.

Lemma count_cells_row a :
  count_cells a ->
  let m := calculate_metrics_row
             {| census_GEOID := api_GEOID a;
                census_variables :=
                  map_variables to_numeric (api_variables a) |} in
  count_cell (total_pop_5plus m) /\ count_cell (total_amb_diff m) /\
  count_cell (pop_65plus m) /\ count_cell (pop_65plus_amb_diff m) /\
  (gtb (total_amb_diff_pct m) (of_Z 100) = true ->
   gtb (total_amb_diff m) (total_pop_5plus m) = true) /\
  (gtb (pop_65plus_amb_diff_pct m) (of_Z 100) = true ->
   gtb (pop_65plus_amb_diff m) (pop_65plus m) = true).
Proof.
  intros H m.
  set (df := {| census_GEOID := api_GEOID a;
                census_variables :=
                  map_variables to_numeric (api_variables a) |}) in *.
  destruct (cells_Forall _ df H) as (H1 & Hw & Hs & Hsw).
  destruct (calculate_metrics_row_columns df)
    as (_ & Htp & Hta & Htpct & Hsp & Hsa & Hspct).
  fold m in Htp, Hta, Htpct, Hsp, Hsa, Hspct.
  assert (C1 : count_cell (total_pop_5plus m)) by (rewrite Htp; exact H1).
  assert (C2 : count_cell (total_amb_diff m))
    by (rewrite Hta; exact (sum_count_cell _ _ Hw)).
  assert (C3 : count_cell (pop_65plus m))
    by (rewrite Hsp; exact (sum_count_cell _ _ Hs)).
  assert (C4 : count_cell (pop_65plus_amb_diff m))
    by (rewrite Hsa; exact (sum_count_cell _ _ Hsw)).
  clearbody m. clear Htp Hta Hsp Hsa.
  split; [exact C1|]. split; [exact C2|]. split; [exact C3|].
  split; [exact C4|]. split.
  - rewrite Htpct. apply count_cell_percentage; assumption.
  - rewrite Hspct. apply count_cell_percentage; assumption.
Qed.

(** On binary64 cells: when every cell of the response is missing,
    unreadable or a non-negative number, the checks report no negative
    column, and a percentage above 100 only together with the count that
    exceeds its population. *)
Lemma count_cells_errors tracts_df data :
  Forall count_cells data ->
  let errors := data_quality_checks (annotate tracts_df data) in
  (forall col column, In (col, column) numeric_cols ->
     ~ In ("ERROR: Negative values found in " ++ col)%string errors) /\
  (In "ERROR: Total ambulatory difficulty percentage exceeds 100%" errors ->
   In "ERROR: Total ambulatory difficulty exceeds total population" errors) /\
  (In "ERROR: 65+ ambulatory difficulty percentage exceeds 100%" errors ->
   In "ERROR: 65+ ambulatory difficulty exceeds 65+ population" errors).
Proof.
  intros Hdata errors. subst errors.
  assert (Hrow : forall r, In r (annotate tracts_df data) ->
            is_missing r = true \/
            exists a, count_cells a /\
              annotated_columns r =
              metrics_columns
                (calculate_metrics_row
                   {| census_GEOID := api_GEOID a;
                      census_variables :=
                        map_variables to_numeric (api_variables a) |})).
  { intros r Hr. apply annotate_columns in Hr as [Hr|(a & Ha & Hr)].
    - left. unfold is_missing. rewrite Hr. reflexivity.
    - right. exists a. split; [|exact Hr].
      rewrite Forall_forall in Hdata. auto. }
  split; [|split].
  - intros col column Hcol Hin.
    set (c := (("ERROR: Negative values found in " ++ col)%string,
               fun r : annotated_row => ltb (column r) (of_Z 0))).
    assert (Hc : In c checks).
    { unfold checks. apply in_or_app. left.
      apply in_map_iff. exists (col, column). split; [reflexivity|exact Hcol]. }
    destruct (proj1 (reported_iff c _ Hc) Hin) as (r & Hr & Hv).
    destruct (Hrow r Hr) as [Hm|(a & Ha & Hcols)].
    + rewrite (missing_violates_nothing r c Hm Hc) in Hv. discriminate.
    + unfold c in Hv. cbn [snd] in Hv.
      destruct (count_cells_row a Ha) as (H1 & H2 & H3 & H4 & _).
      rewrite <- Hcols in H1, H2, H3, H4.
      unfold numeric_cols in Hcol. cbn [In] in Hcol.
      destruct Hcol as [E|[E|[E|[E|[]]]]]; injection E as <- <-;
        [rewrite (count_cell_not_negative _ H1) in Hv
        |rewrite (count_cell_not_negative _ H2) in Hv
        |rewrite (count_cell_not_negative _ H3) in Hv
        |rewrite (count_cell_not_negative _ H4) in Hv]; discriminate.
  - set (p := ("ERROR: Total ambulatory difficulty percentage exceeds 100%",
               fun r : annotated_row =>
                 gtb (total_amb_diff_pct r) (of_Z 100))).
    set (c := ("ERROR: Total ambulatory difficulty exceeds total population",
               fun r : annotated_row =>
                 gtb (total_amb_diff r) (total_pop_5plus r))).
    assert (Hp : In p checks)
      by (unfold checks; apply in_or_app; right; cbn [In]; auto 10).
    assert (Hc : In c checks)
      by (unfold checks; apply in_or_app; right; cbn [In]; auto 10).
    intros Hin. destruct (proj1 (reported_iff p _ Hp) Hin) as (r & Hr & Hv).
    apply (proj2 (reported_iff c _ Hc)). exists r. split; [exact Hr|].
    destruct (Hrow r Hr) as [Hm|(a & Ha & Hcols)].
    + rewrite (missing_violates_nothing r p Hm Hp) in Hv. discriminate.
    + unfold p in Hv. unfold c. cbn [snd] in *.
      destruct (count_cells_row a Ha) as (_ & _ & _ & _ & H5 & _).
      rewrite <- Hcols in H5. exact (H5 Hv).
  - set (p := ("ERROR: 65+ ambulatory difficulty percentage exceeds 100%",
               fun r : annotated_row =>
                 gtb (pop_65plus_amb_diff_pct r) (of_Z 100))).
    set (c := ("ERROR: 65+ ambulatory difficulty exceeds 65+ population",
               fun r : annotated_row =>
                 gtb (pop_65plus_amb_diff r) (pop_65plus r))).
    assert (Hp : In p checks)
      by (unfold checks; apply in_or_app; right; cbn [In]; auto 10).
    assert (Hc : In c checks)
      by (unfold checks; apply in_or_app; right; cbn [In]; auto 10).
    intros Hin. destruct (proj1 (reported_iff p _ Hp) Hin) as (r & Hr & Hv).
    apply (proj2 (reported_iff c _ Hc)). exists r. split; [exact Hr|].
    destruct (Hrow r Hr) as [Hm|(a & Ha & Hcols)].
    + rewrite (missing_violates_nothing r p Hm Hp) in Hv. discriminate.
    + unfold p in Hv. unfold c. cbn [snd] in *.
      destruct (count_cells_row a Ha) as (_ & _ & _ & _ & _ & H6).
      rewrite <- Hcols in H6. exact (H6 Hv).
Qed.

Lemma of_Z_count_cell z : 0 <= z -> count_cell (of_Z z).
Proof.
  intros Hz. right. unfold valid, of_Z, binary_normalize.
  destruct z as [|p|p]; try lia.
  - split; reflexivity.
  - split; [apply binary_round_valid, prec_pos|].
    pose proof (binary_round_sign prec emax prec_pos false p 0) as H.
    apply nonneg_cases.
    destruct (binary_round prec emax false p 0) as [s|s| |s m e];
      try contradiction; subst; exact I.
Qed.

Lemma plausible_count_cells a : plausible a -> count_cells a.
Proof.
  intros (v & Hv & _). unfold count_cells.
  change (cells (map_variables to_numeric (api_variables a)))
    with (map to_numeric (cells (api_variables a))).
  induction Hv as [|c z cs zs Hc _ IH]; [constructor|].
  cbn [map]. constructor; [|exact IH].
  destruct c as [|x|g]; cbn in *.
  - left. reflexivity.
  - destruct Hc as [Hz ->]. apply of_Z_count_cell, Hz.
  - left. reflexivity.
Qed.

(** X10: when every cell of the response is missing, unreadable or a
    non-negative whole number, and the whole numbers of a row add up to
    less than [2 ^ 53], the checks report no negative column, and they
    report a percentage above 100 only together with the count that exceeds
    its population. *)
Theorem plausible_response_errors tracts_df data :
  Forall plausible data ->
  let errors := data_quality_checks (annotate tracts_df data) in
  (forall col column, In (col, column) numeric_cols ->
     ~ In ("ERROR: Negative values found in " ++ col)%string errors) /\
  (In "ERROR: Total ambulatory difficulty percentage exceeds 100%" errors ->
   In "ERROR: Total ambulatory difficulty exceeds total population" errors) /\
  (In "ERROR: 65+ ambulatory difficulty percentage exceeds 100%" errors ->
   In "ERROR: 65+ ambulatory difficulty exceeds 65+ population" errors).
Proof.
  intros Hdata. apply count_cells_errors.
  eapply Forall_impl; [|exact Hdata]. exact plausible_count_cells.
Qed.

Lemma plausible_response_errors_witness :
  let errors := data_quality_checks senior_excess_df in
  (forall col column, In (col, column) numeric_cols ->
     ~ In ("ERROR: Negative values found in " ++ col)%string errors) /\
  (In "ERROR: Total ambulatory difficulty percentage exceeds 100%" errors ->
   In "ERROR: Total ambulatory difficulty exceeds total population" errors) /\
  (In "ERROR: 65+ ambulatory difficulty percentage exceeds 100%" errors ->
   In "ERROR: 65+ ambulatory difficulty exceeds 65+ population" errors).
Proof.
  apply (plausible_response_errors [tract_108] [senior_excess_row]).
  constructor; [|constructor]. exists senior_excess_counts. split.
  - repeat (constructor; [split; [discriminate|reflexivity]|]). constructor.
  - reflexivity.
Defined.

(** ** Whole numbers *)

Lemma binary_round_aux_exact s mx ex k e1 :
  0 < k -> ex <= e1 -> mx = k * 2 ^ (e1 - ex) ->
  fexp prec emax (Zdigits2 mx + ex) = e1 -> e1 <= emax - prec ->
  binary_round_aux prec emax s mx ex loc_Exact =
  S754_finite s (Z.to_pos k) e1.
Proof.
  intros Hk He Hmx Hf Hmax.
  assert (Hp : 0 < 2 ^ (e1 - ex)) by (apply pow2_pos; lia).
  assert (Hmx0 : 0 <= mx) by nia.
  destruct (binary_round_aux_steps prec emax prec_pos s mx ex loc_Exact Hmx0)
    as (_ & _ & _ & _ & ->); [lia|].
  destruct (shr_fexp_spec prec emax mx ex loc_Exact Hmx0) as [_ Hm1]; [lia|].
  rewrite Hf in *.
  assert (Hq : mx / 2 ^ (e1 - ex) = k) by (subst mx; apply Z.div_mul; lia).
  rewrite Hq in Hm1.
  assert (Hl : loc_of_shr_record (fst (shr_fexp prec emax mx ex loc_Exact))
               = loc_Exact).
  { apply loc_of_exact_record. unfold shr_fexp, shr. rewrite Hf.
    destruct (e1 - ex) as [|p|p] eqn:E; cbn [fst].
    - split; reflexivity.
    - apply (iter_shr_1_exact p _ k); [split; reflexivity|exact Hmx0|].
      exact Hmx.
    - split; reflexivity. }
  rewrite Hl, Hm1. cbn [round_nearest_even].
  assert (Hd : Zdigits2 k + e1 = Zdigits2 mx + ex).
  { subst mx. rewrite Zdigits2_mul_pow2 by lia. lia. }
  rewrite Hd, Hf, Z.sub_diag. change (2 ^ 0) with 1. rewrite Z.div_1_r.
  destruct k as [|p|p]; try lia.
  apply Z.leb_le in Hmax. rewrite Hmax. reflexivity.
Qed.

Lemma fexp_small d : 0 < d <= 53 -> fexp prec emax d = d - 53.
Proof. unfold fexp, emin, prec, emax. lia. Qed.

(** A positive whole number below [2 ^ 53] is rounded to itself, in the one
    form the format has for it. *)
Lemma binary_round_integer mx ex n :
  0 < n < 2 ^ 53 -> ex <= 0 -> Zpos mx = n * 2 ^ (- ex) ->
  binary_round prec emax false mx ex =
  S754_finite false (Z.to_pos (n * 2 ^ (53 - Zdigits2 n))) (Zdigits2 n - 53).
Proof.
  intros Hn Hex Hmx.
  assert (Hd : 0 < Zdigits2 n <= 53).
  { split; [apply Zdigits2_pos; lia|apply Zdigits2_le_of_lt; lia]. }
  destruct (binary_round_aligned prec emax false mx ex)
    as (mz & ez & -> & Hz & Hle & Hez & Hmz).
  assert (Hdx : Zdigits2 (Zpos mx) + ex = Zdigits2 n).
  { rewrite Hmx, Zdigits2_mul_pow2 by lia. lia. }
  rewrite Hdx, fexp_small in Hez by exact Hd.
  assert (Hmz' : Zpos mz = n * 2 ^ (- ez)).
  { rewrite Hmz, Hmx, <- Z.mul_assoc, <- pow2_split by lia.
    f_equal. f_equal. lia. }
  apply binary_round_aux_exact.
  - pose proof (pow2_pos (53 - Zdigits2 n) ltac:(lia)). nia.
  - lia.
  - rewrite Hmz', <- Z.mul_assoc, <- pow2_split by lia.
    f_equal. f_equal. lia.
  - rewrite Hmz', Zdigits2_mul_pow2 by lia.
    replace (Zdigits2 n + - ez + ez) with (Zdigits2 n) by lia.
    apply fexp_small, Hd.
  - unfold emax, prec. lia.
Qed.

Lemma of_Z_0 : of_Z 0 = S754_zero false.
Proof. reflexivity. Qed.

Lemma of_Z_canonical n :
  0 < n < 2 ^ 53 ->
  of_Z n =
  S754_finite false (Z.to_pos (n * 2 ^ (53 - Zdigits2 n))) (Zdigits2 n - 53).
Proof.
  intros Hn. destruct n as [|p|p]; try lia.
  unfold of_Z, binary_normalize.
  apply binary_round_integer; [exact Hn|lia|].
  change (2 ^ (- 0)) with 1. lia.
Qed.

Lemma shl_align_fst mx ex ez :
  ez <= ex -> Zpos (fst (shl_align mx ex ez)) = Zpos mx * 2 ^ (ex - ez).
Proof.
  intros H. unfold shl_align.
  destruct (ez - ex) as [|d|d] eqn:E; cbn [fst].
  - replace (ex - ez) with 0 by lia. change (2 ^ 0) with 1. lia.
  - lia.
  - unfold shift_pos. rewrite iter_xO. f_equal. f_equal. lia.
Qed.

(** Adding two whole numbers is exact while the sum stays below
    [2 ^ 53]. *)
Lemma add_of_Z a b :
  0 <= a -> 0 <= b -> a + b < 2 ^ 53 ->
  add (of_Z a) (of_Z b) = of_Z (a + b).
Proof.
  intros Ha Hb Hab.
  destruct (Z.eq_dec a 0) as [->|Ha0].
  { rewrite of_Z_0, Z.add_0_l.
    destruct (Z.eq_dec b 0) as [->|Hb0]; [reflexivity|].
    rewrite of_Z_canonical by lia. reflexivity. }
  destruct (Z.eq_dec b 0) as [->|Hb0].
  { rewrite of_Z_0, Z.add_0_r. rewrite of_Z_canonical by lia. reflexivity. }
  rewrite (of_Z_canonical a), (of_Z_canonical b), (of_Z_canonical (a + b))
    by lia.
  assert (Hda : 0 < Zdigits2 a <= 53).
  { split; [apply Zdigits2_pos; lia|apply Zdigits2_le_of_lt; lia]. }
  assert (Hdb : 0 < Zdigits2 b <= 53).
  { split; [apply Zdigits2_pos; lia|apply Zdigits2_le_of_lt; lia]. }
  pose proof (pow2_pos (53 - Zdigits2 a) ltac:(lia)) as Hpa.
  pose proof (pow2_pos (53 - Zdigits2 b) ltac:(lia)) as Hpb.
  unfold add. cbn [SFadd cond_Zopp].
  set (ma := Z.to_pos (a * 2 ^ (53 - Zdigits2 a))).
  set (mb := Z.to_pos (b * 2 ^ (53 - Zdigits2 b))).
  set (ez := Z.min (Zdigits2 a - 53) (Zdigits2 b - 53)).
  assert (Hma : Zpos (fst (shl_align ma (Zdigits2 a - 53) ez))
                = a * 2 ^ (- ez)).
  { rewrite shl_align_fst by lia. unfold ma. rewrite Z2Pos.id by nia.
    rewrite <- Z.mul_assoc, <- pow2_split by lia. f_equal. f_equal. lia. }
  assert (Hmb : Zpos (fst (shl_align mb (Zdigits2 b - 53) ez))
                = b * 2 ^ (- ez)).
  { rewrite shl_align_fst by lia. unfold mb. rewrite Z2Pos.id by nia.
    rewrite <- Z.mul_assoc, <- pow2_split by lia. f_equal. f_equal. lia. }
  cbn [Z.add binary_normalize].
  apply binary_round_integer; [lia|lia|].
  rewrite Pos2Z.inj_add, Hma, Hmb. lia.
Qed.

Lemma fold_add_ge zs : forall b,
  Forall (fun z => 0 <= z) zs -> b <= fold_left Z.add zs b.
Proof.
  induction zs as [|x zs IH]; intros b H; cbn [fold_left]; [lia|].
  inversion H as [|? ? Hx Hzs]; subst. specialize (IH (b + x) Hzs). lia.
Qed.

Lemma Zsum_nonneg zs : Forall (fun z => 0 <= z) zs -> 0 <= Zsum zs.
Proof. apply fold_add_ge. Qed.

Lemma fold_add_of_Z zs : forall a,
  0 <= a -> Forall (fun z => 0 <= z) zs -> fold_left Z.add zs a < 2 ^ 53 ->
  fold_left add (map of_Z zs) (of_Z a) = of_Z (fold_left Z.add zs a).
Proof.
  induction zs as [|z zs IH]; intros a Ha Hzs Hlt; [reflexivity|].
  inversion Hzs as [|? ? Hz Hzs']; subst. cbn [map fold_left] in *.
  pose proof (fold_add_ge zs (a + z) Hzs').
  rewrite add_of_Z by lia. apply IH; [lia|assumption|assumption].
Qed.

Lemma sum_of_Z zs :
  Forall (fun z => 0 <= z) zs -> Zsum zs < 2 ^ 53 ->
  sum (map of_Z zs) = of_Z (Zsum zs).
Proof.
  unfold Zsum. destruct zs as [|z zs]; [reflexivity|].
  intros H Hlt. inversion H; subst. cbn [map sum fold_left] in *.
  apply fold_add_of_Z; assumption.
Qed.

(** Two whole numbers below [2 ^ 53] compare as binary64 numbers the way
    they compare as integers. *)
Lemma SFcompare_of_Z a b :
  0 <= a < 2 ^ 53 -> 0 <= b < 2 ^ 53 ->
  SFcompare (of_Z a) (of_Z b) = Some (a ?= b).
Proof.
  intros Ha Hb.
  destruct (Z.eq_dec a 0) as [->|Ha0].
  { rewrite of_Z_0. destruct (Z.eq_dec b 0) as [->|Hb0]; [reflexivity|].
    rewrite of_Z_canonical by lia. cbn [SFcompare].
    destruct b; try lia. reflexivity. }
  destruct (Z.eq_dec b 0) as [->|Hb0].
  { rewrite of_Z_0, of_Z_canonical by lia. cbn [SFcompare].
    destruct a; try lia. reflexivity. }
  rewrite (of_Z_canonical a), (of_Z_canonical b) by lia.
  assert (Hda : 0 < Zdigits2 a <= 53).
  { split; [apply Zdigits2_pos; lia|apply Zdigits2_le_of_lt; lia]. }
  assert (Hdb : 0 < Zdigits2 b <= 53).
  { split; [apply Zdigits2_pos; lia|apply Zdigits2_le_of_lt; lia]. }
  destruct (Zdigits2_bounds a ltac:(lia)) as [Hloa Hhia].
  destruct (Zdigits2_bounds b ltac:(lia)) as [Hlob Hhib].
  pose proof (pow2_pos (53 - Zdigits2 a) ltac:(lia)) as Hpa.
  pose proof (pow2_pos (53 - Zdigits2 b) ltac:(lia)) as Hpb.
  cbn [SFcompare].
  destruct (Z.compare_spec (Zdigits2 a - 53) (Zdigits2 b - 53)) as [E|E|E].
  - assert (Ed : Zdigits2 a = Zdigits2 b) by lia. rewrite Ed.
    change (Pos.compare_cont Eq ?x ?y) with (Pos.compare x y).
    rewrite <- Z2Pos.inj_compare by nia. f_equal.
    rewrite Ed in Hpa.
    destruct (Z.compare_spec a b) as [C|C|C].
    + subst. apply Z.compare_refl.
    + apply Z.compare_lt_iff. nia.
    + apply Z.compare_gt_iff. nia.
  - f_equal. symmetry. apply Z.compare_lt_iff.
    assert (2 ^ Zdigits2 a <= 2 ^ (Zdigits2 b - 1))
      by (apply Z.pow_le_mono_r; lia).
    lia.
  - f_equal. symmetry. apply Z.compare_gt_iff.
    assert (2 ^ Zdigits2 b <= 2 ^ (Zdigits2 a - 1))
      by (apply Z.pow_le_mono_r; lia).
    lia.
Qed.

Lemma gtb_of_Z a b :
  0 <= a < 2 ^ 53 -> 0 <= b < 2 ^ 53 -> gtb (of_Z a) (of_Z b) = (b <? a).
Proof.
  intros Ha Hb. unfold gtb, SFltb, Z.ltb.
  rewrite (SFcompare_of_Z b a Hb Ha). reflexivity.
Qed.

Lemma leb_of_Z a b :
  0 <= a < 2 ^ 53 -> 0 <= b < 2 ^ 53 -> leb (of_Z a) (of_Z b) = (a <=? b).
Proof.
  intros Ha Hb. unfold leb, SFleb, Z.leb.
  rewrite (SFcompare_of_Z a b Ha Hb). destruct (a ?= b); reflexivity.
Qed.

Lemma whole_row_sums (geoid : string) (v : variables Z) :
  Forall (fun z => 0 <= z) (cells v) ->
  Zsum (whole_with_difficulty v) < 2 ^ 53 ->
  Zsum (whole_senior_totals v) < 2 ^ 53 ->
  let m := calculate_metrics_row (whole_row geoid v) in
  (total_pop_5plus m = of_Z (B18105_001E v) /\
   total_amb_diff m = of_Z (Zsum (whole_with_difficulty v)) /\
   pop_65plus m = of_Z (Zsum (whole_senior_totals v)) /\
   pop_65plus_amb_diff m = of_Z (Zsum (whole_senior_with_difficulty v))) /\
  0 <= B18105_001E v /\
  0 <= Zsum (whole_with_difficulty v) /\
  0 <= Zsum (whole_senior_totals v) /\
  0 <= Zsum (whole_senior_with_difficulty v) /\
  Zsum (whole_senior_with_difficulty v) <= Zsum (whole_with_difficulty v).
Proof.
  intros Hv Hw Hs m.
  assert (H1 : 0 <= B18105_001E v).
  { unfold cells in Hv. inversion Hv; assumption. }
  assert (Hfw : Forall (fun z => 0 <= z) (whole_with_difficulty v)).
  { unfold cells in Hv. unfold whole_with_difficulty.
    repeat match goal with
           | H : Forall _ (_ :: _) |- _ => inversion_clear H
           end.
    repeat constructor; assumption. }
  assert (Hfs : Forall (fun z => 0 <= z) (whole_senior_totals v)).
  { unfold cells in Hv. unfold whole_senior_totals.
    repeat match goal with
           | H : Forall _ (_ :: _) |- _ => inversion_clear H
           end.
    repeat constructor; assumption. }
  assert (Hfd : Forall (fun z => 0 <= z) (whole_senior_with_difficulty v)).
  { unfold cells in Hv. unfold whole_senior_with_difficulty.
    repeat match goal with
           | H : Forall _ (_ :: _) |- _ => inversion_clear H
           end.
    repeat constructor; assumption. }
  assert (Hd : Zsum (whole_senior_with_difficulty v)
               <= Zsum (whole_with_difficulty v)).
  { unfold cells in Hv. unfold Zsum, whole_senior_with_difficulty,
      whole_with_difficulty. cbn [fold_left].
    repeat match goal with
           | H : Forall _ (_ :: _) |- _ => inversion_clear H
           end.
    lia. }
  pose proof (Zsum_nonneg _ Hfw) as Hw0.
  pose proof (Zsum_nonneg _ Hfs) as Hs0.
  pose proof (Zsum_nonneg _ Hfd) as Hd0.
  destruct (calculate_metrics_row_columns (whole_row geoid v))
    as (_ & Htp & Hta & _ & Hsp & Hsa & _).
  fold m in Htp, Hta, Hsp, Hsa.
  change (B18105_001E (whole_row geoid v)) with (of_Z (B18105_001E v)) in Htp.
  change (with_difficulty (whole_row geoid v))
    with (map of_Z (whole_with_difficulty v)) in Hta.
  change (senior_totals (whole_row geoid v))
    with (map of_Z (whole_senior_totals v)) in Hsp.
  change (senior_with_difficulty (whole_row geoid v))
    with (map of_Z (whole_senior_with_difficulty v)) in Hsa.
  rewrite sum_of_Z in Hta, Hsp, Hsa by (assumption || lia).
  clearbody m.
  split; [split; [exact Htp|]; split; [exact Hta|]; split; assumption|].
  split; [exact H1|]. split; [exact Hw0|]. split; [exact Hs0|].
  split; [exact Hd0|exact Hd].
Qed.

(** X11: on a row of non-negative whole numbers whose sums stay below
    [2 ^ 53], the four count columns are the whole-number sums exactly, with
    no rounding, and the three comparisons of [main] between them decide
    the comparisons of the whole numbers. *)
Theorem whole_counts_exact (geoid : string) (v : variables Z) :
  Forall (fun z => 0 <= z) (cells v) ->
  B18105_001E v < 2 ^ 53 ->
  Zsum (whole_with_difficulty v) < 2 ^ 53 ->
  Zsum (whole_senior_totals v) < 2 ^ 53 ->
  let m := calculate_metrics_row (whole_row geoid v) in
  total_pop_5plus m = of_Z (B18105_001E v) /\
  total_amb_diff m = of_Z (Zsum (whole_with_difficulty v)) /\
  pop_65plus m = of_Z (Zsum (whole_senior_totals v)) /\
  pop_65plus_amb_diff m = of_Z (Zsum (whole_senior_with_difficulty v)) /\
  gtb (total_amb_diff m) (total_pop_5plus m) =
    (B18105_001E v <? Zsum (whole_with_difficulty v)) /\
  gtb (pop_65plus_amb_diff m) (pop_65plus m) =
    (Zsum (whole_senior_totals v) <? Zsum (whole_senior_with_difficulty v)) /\
  gtb (pop_65plus m) (total_pop_5plus m) =
    (B18105_001E v <? Zsum (whole_senior_totals v)).
Proof.
  intros Hv Hu Hw Hs m.
  destruct (whole_row_sums geoid v Hv Hw Hs)
    as ((Htp & Hta & Hsp & Hsa) & H1 & Hw0 & Hs0 & Hd0 & Hd).
  fold m in Htp, Hta, Hsp, Hsa. clearbody m.
  rewrite Htp, Hta, Hsp, Hsa.
  split; [reflexivity|]. split; [reflexivity|]. split; [reflexivity|].
  split; [reflexivity|].
  split; [apply gtb_of_Z; lia|]. split; apply gtb_of_Z; lia.
Qed.

Lemma whole_counts_exact_witness :
  let m := calculate_metrics_row (whole_row "06075010800" example_counts) in
  total_pop_5plus m = of_Z 1000 /\
  total_amb_diff m = of_Z (Zsum (whole_with_difficulty example_counts)) /\
  pop_65plus m = of_Z (Zsum (whole_senior_totals example_counts)) /\
  pop_65plus_amb_diff m
  = of_Z (Zsum (whole_senior_with_difficulty example_counts)) /\
  gtb (total_amb_diff m) (total_pop_5plus m) =
    (1000 <? Zsum (whole_with_difficulty example_counts)) /\
  gtb (pop_65plus_amb_diff m) (pop_65plus m) =
    (Zsum (whole_senior_totals example_counts)
     <? Zsum (whole_senior_with_difficulty example_counts)) /\
  gtb (pop_65plus m) (total_pop_5plus m) =
    (1000 <? Zsum (whole_senior_totals example_counts)).
Proof.
  apply (whole_counts_exact "06075010800" example_counts).
  - repeat (constructor; [discriminate|]). constructor.
  - reflexivity.
  - reflexivity.
  - reflexivity.
Defined.

(** ** Consistent responses *)

Lemma filter_none {A} (f : A -> bool) l :
  (forall x, In x l -> f x = false) -> filter f l = [].
Proof.
  induction l as [|x l IH]; intros H; [reflexivity|]. cbn [filter].
  rewrite (H x (or_introl eq_refl)). apply IH. intros y Hy. apply H. now right.
Qed.

Lemma any_none mask df :
  (forall r, In r df -> mask r = false) -> any mask df = false.
Proof.
  intros H. unfold any. induction df as [|r df IH]; [reflexivity|].
  cbn [existsb]. rewrite (H r (or_introl eq_refl)). apply IH.
  intros y Hy. apply H. now right.
Qed.

Lemma consistent_row a :
  consistent a ->
  let m := calculate_metrics_row
             {| census_GEOID := api_GEOID a;
                census_variables :=
                  map_variables to_numeric (api_variables a) |} in
  forall c t, In c checks ->
    snd c {| annotated_tract := t; annotated_columns := m |} = false.
Proof.
  intros (v & Hv & Hnn & Hu & H1 & H2 & H3) m c t Hc.
  assert (Hm : m = calculate_metrics_row (whole_row (api_GEOID a) v)).
  { unfold m, whole_row. rewrite Hv. reflexivity. }
  assert (Hfs : Forall (fun z => 0 <= z) (whole_senior_totals v)).
  { unfold cells in Hnn. unfold whole_senior_totals.
    repeat match goal with
           | H : Forall _ (_ :: _) |- _ => inversion_clear H
           end.
    repeat constructor; assumption. }
  assert (Hfd : Forall (fun z => 0 <= z) (whole_senior_with_difficulty v)).
  { unfold cells in Hnn. unfold whole_senior_with_difficulty.
    repeat match goal with
           | H : Forall _ (_ :: _) |- _ => inversion_clear H
           end.
    repeat constructor; assumption. }
  assert (Hfw : Forall (fun z => 0 <= z) (whole_with_difficulty v)).
  { unfold cells in Hnn. unfold whole_with_difficulty.
    repeat match goal with
           | H : Forall _ (_ :: _) |- _ => inversion_clear H
           end.
    repeat constructor; assumption. }
  assert (H0 : 0 <= B18105_001E v).
  { unfold cells in Hnn. inversion Hnn; assumption. }
  pose proof (Zsum_nonneg _ Hfw) as Hw0.
  pose proof (Zsum_nonneg _ Hfs) as Hs0.
  pose proof (Zsum_nonneg _ Hfd) as Hd0.
  destruct (whole_row_sums (api_GEOID a) v Hnn)
    as ((Htp & Hta & Hsp & Hsa) & _); [lia|lia|].
  destruct (calculate_metrics_row_columns (whole_row (api_GEOID a) v))
    as (_ & _ & _ & Htpct & _ & _ & Hspct).
  rewrite <- Hm in Htp, Hta, Hsp, Hsa, Htpct, Hspct.
  clear Hm. clearbody m.
  assert (Zt : gtb (total_amb_diff m) (total_pop_5plus m) = false)
    by (rewrite Hta, Htp, gtb_of_Z by lia; apply Z.ltb_ge; lia).
  assert (Zs : gtb (pop_65plus_amb_diff m) (pop_65plus m) = false)
    by (rewrite Hsa, Hsp, gtb_of_Z by lia; apply Z.ltb_ge; lia).
  assert (Zp : gtb (pop_65plus m) (total_pop_5plus m) = false)
    by (rewrite Hsp, Htp, gtb_of_Z by lia; apply Z.ltb_ge; lia).
  unfold checks, numeric_cols in Hc. cbn [map app In] in Hc.
  destruct Hc as [<-|[<-|[<-|[<-|[<-|[<-|[<-|[<-|[<-|[]]]]]]]]]];
    cbn [snd annotated_columns].
  - rewrite Htp. apply count_cell_not_negative, of_Z_count_cell, H0.
  - rewrite Hta. apply count_cell_not_negative, of_Z_count_cell, Hw0.
  - rewrite Hsp. apply count_cell_not_negative, of_Z_count_cell, Hs0.
  - rewrite Hsa. apply count_cell_not_negative, of_Z_count_cell, Hd0.
  - exact Zt.
  - exact Zs.
  - exact Zp.
  - destruct (gtb (total_amb_diff_pct m) (of_Z 100)) eqn:E; [|reflexivity].
    rewrite Htpct in E. apply count_cell_percentage in E; [congruence| |].
    + rewrite Hta. apply of_Z_count_cell, Hw0.
    + rewrite Htp. apply of_Z_count_cell, H0.
  - destruct (gtb (pop_65plus_amb_diff_pct m) (of_Z 100)) eqn:E;
      [|reflexivity].
    rewrite Hspct in E. apply count_cell_percentage in E; [congruence| |].
    + rewrite Hsa. apply of_Z_count_cell, Hd0.
    + rewrite Hsp. apply of_Z_count_cell, Hs0.
Qed.

(** X12: when the response holds whole numbers below [2 ^ 53] in which the
    people with a difficulty are at most the universe, the seniors with a
    difficulty at most the seniors and the seniors at most the universe, no
    check reports an error and the run ends with status 0. *)
Theorem consistent_response_passes w tracts_df r :
  fetches w tracts_df r ->
  Forall consistent (json r) ->
  data_quality_checks (annotate tracts_df (json r)) = [] /\
  snd (run w) = 0.
Proof.
  intros Hf Hdata.
  assert (He : data_quality_checks (annotate tracts_df (json r)) = []).
  { rewrite data_quality_checks_violated.
    rewrite (filter_none _ checks); [reflexivity|].
    intros c Hc. apply any_none. intros row Hrow.
    destruct (annotate_columns _ _ _ Hrow) as [Hmiss|(a & Ha & Hcols)].
    - apply missing_violates_nothing; [|exact Hc].
      unfold is_missing. rewrite Hmiss. reflexivity.
    - rewrite Forall_forall in Hdata.
      pose proof (consistent_row a (Hdata a Ha) c (annotated_tract row) Hc)
        as H.
      rewrite <- Hcols in H. destruct row. exact H. }
  split; [exact He|].
  destruct (run_fetches_effects w tracts_df r Hf) as (_ & _ & _ & _ & ->).
  unfold status_of_checks. rewrite He. reflexivity.
Qed.

Lemma consistent_response_passes_witness :
  let w := env_of [tract_108] [example_api_row] in
  data_quality_checks (annotate [tract_108] [example_api_row]) = [] /\
  snd (run w) = 0.
Proof.
  apply (consistent_response_passes
           (env_of [tract_108] [example_api_row]) [tract_108]
           {| status_code := 200; reason := "OK";
              response_body := Table [example_api_row] |}).
  - split; [reflexivity|]. split; [discriminate|].
    split; [reflexivity|]. split; reflexivity.
  - constructor; [|constructor]. exists example_counts.
    split; [reflexivity|].
    split; [repeat (constructor; [discriminate|]); constructor|].
    split; [reflexivity|].
    split; [discriminate|]. split; discriminate.
Defined.

(** ** The warning about missing data *)

Lemma isin_false v values : isin v values = false <-> ~ In v values.
Proof.
  rewrite <- isin_In. destruct (isin v values); intuition congruence.
Qed.

Lemma missing_rows_merge left right :
  Forall (fun m : metrics_row => isna (total_pop_5plus m) = false) right ->
  map (fun r => tract_GEOID (annotated_tract r))
      (missing_rows (merge left right)) =
  filter (fun g => negb (isin g (map metrics_GEOID right)))
         (map tract_GEOID left).
Proof.
  intros Hright. rewrite Forall_forall in Hright.
  induction left as [|t left IH]; [reflexivity|].
  rewrite merge_cons. unfold missing_rows in *.
  rewrite filter_app, map_app, IH.
  destruct (matching t right) as [|m ms] eqn:E.
  - cbn [map filter]. assert (Hno : isin (tract_GEOID t) (map metrics_GEOID right) = false).
    { apply isin_false. intros Hin. apply in_map_iff in Hin as (m & Hk & Hm).
      exact (proj1 (matching_nil_iff t right) E m Hm Hk). }
    rewrite Hno. reflexivity.
  - assert (Hyes : isin (tract_GEOID t) (map metrics_GEOID right) = true).
    { apply isin_In. apply in_map_iff. exists m.
      assert (Hm : In m (matching t right)) by (rewrite E; now left).
      apply matching_In in Hm as [Hm Hk]. split; [exact Hk|exact Hm]. }
    rewrite (filter_none _ (map _ (m :: ms))).
    { cbn [map filter app]. rewrite Hyes. reflexivity. }
    intros r Hr. apply in_map_iff in Hr as (m' & <- & Hm').
    cbn [annotated_columns]. apply Hright.
    rewrite <- E in Hm'. apply matching_In in Hm' as [Hm' _]. exact Hm'.
Qed.

(** X13: when the universe cell of every response row is a number, the
    rows that the warning of [main] counts as missing Census data are the
    tracts whose GEOID is not in the response, in the order of the tract
    table. *)
Theorem warning_lists_unanswered tracts_df data :
  Forall universe_known data ->
  map (fun r => tract_GEOID (annotated_tract r))
      (missing_rows (annotate tracts_df data)) =
  filter (fun g => negb (isin g (map api_GEOID data)))
         (map tract_GEOID tracts_df).
Proof.
  intros Hdata. unfold annotate. rewrite missing_rows_merge.
  - rewrite census_frame_GEOIDs. apply filter_ext_in. intros g Hg. f_equal.
    destruct (isin g (map api_GEOID data)) eqn:E.
    + apply isin_In. apply filter_In. split; [apply isin_In, E|].
      apply isin_In, Hg.
    + apply isin_false. intros Hin. apply filter_In in Hin as [Hin _].
      apply isin_In in Hin. congruence.
  - rewrite Forall_forall in *. intros m Hm.
    unfold calculate_metrics in Hm. apply in_map_iff in Hm as (c & <- & Hc).
    rewrite census_frame_filter in Hc.
    apply in_map_iff in Hc as (a & <- & Ha). apply filter_In in Ha as [Ha _].
    exact (Hdata a Ha).
Qed.

Lemma warning_lists_unanswered_witness :
  map (fun r => tract_GEOID (annotated_tract r))
      (missing_rows (annotate [tract_108; tract_109] [example_api_row])) =
  filter (fun g => negb (isin g (map api_GEOID [example_api_row])))
         (map tract_GEOID [tract_108; tract_109]).
Proof.
  apply (warning_lists_unanswered [tract_108; tract_109] [example_api_row]).
  constructor; [reflexivity|constructor].
Defined.

(** * The counts of the census *)

(** ** int64 and float64 columns *)

Lemma wrap_int64_small z : - 2 ^ 63 <= z < 2 ^ 63 -> wrap_int64 z = z.
Proof. intros H. unfold wrap_int64. rewrite Z.mod_small; lia. Qed.

Lemma add_int64_small a b :
  0 <= a -> 0 <= b -> a + b < 2 ^ 53 -> add_int64 a b = a + b.
Proof. intros Ha Hb H. unfold add_int64. apply wrap_int64_small. lia. Qed.

Lemma cells_nonneg (v : variables Z) :
  Forall (fun z => 0 <= z) (cells v) ->
  0 <= B18105_001E v /\
  (0 <= B18105_004E v /\ 0 <= B18105_007E v /\ 0 <= B18105_010E v /\
   0 <= B18105_013E v /\ 0 <= B18105_016E v /\
   0 <= B18105_020E v /\ 0 <= B18105_023E v /\ 0 <= B18105_026E v /\
   0 <= B18105_029E v /\ 0 <= B18105_032E v) /\
  (0 <= B18105_012E v /\ 0 <= B18105_015E v /\
   0 <= B18105_028E v /\ 0 <= B18105_031E v).
Proof.
  unfold cells. intros H.
  repeat match goal with
         | H : Forall _ (_ :: _) |- _ => inversion_clear H
         end.
  tauto.
Qed.

(** While the sums stay below [2 ^ 53] the int64 columns hold the sums of
    the whole numbers, and the int64 and the float64 columns hold the same
    numbers. *)
Lemma int64_agrees (geoid : string) (v : variables Z) :
  Forall (fun z => 0 <= z) (cells v) ->
  B18105_001E v < 2 ^ 53 ->
  Zsum (whole_with_difficulty v) < 2 ^ 53 ->
  Zsum (whole_senior_totals v) < 2 ^ 53 ->
  let m := calculate_metrics_row (whole_row geoid v) in
  let i := calculate_metrics_row_int64 v in
  (int64_total_pop_5plus i = B18105_001E v /\
   int64_total_amb_diff i = Zsum (whole_with_difficulty v) /\
   int64_pop_65plus i = Zsum (whole_senior_totals v) /\
   int64_pop_65plus_amb_diff i = Zsum (whole_senior_with_difficulty v)) /\
  (total_pop_5plus m = of_Z (int64_total_pop_5plus i) /\
   total_amb_diff m = of_Z (int64_total_amb_diff i) /\
   total_amb_diff_pct m = int64_total_amb_diff_pct i /\
   pop_65plus m = of_Z (int64_pop_65plus i) /\
   pop_65plus_amb_diff m = of_Z (int64_pop_65plus_amb_diff i) /\
   pop_65plus_amb_diff_pct m = int64_pop_65plus_amb_diff_pct i).
Proof.
  intros Hv Hu Hw Hs m i.
  destruct (whole_row_sums geoid v Hv Hw Hs)
    as ((Htp & Hta & Hsp & Hsa) & _ & _ & _ & _ & Hd).
  fold m in Htp, Hta, Hsp, Hsa.
  destruct (calculate_metrics_row_columns (whole_row geoid v))
    as (_ & _ & _ & Htpct & _ & _ & Hspct).
  fold m in Htpct, Hspct. clearbody m.
  destruct (cells_nonneg v Hv)
    as (H1 & (H4 & H7 & H10 & H13 & H16 & H20 & H23 & H26 & H29 & H32)
           & (H12 & H15 & H28 & H31)).
  assert (Ei : (int64_total_pop_5plus i = B18105_001E v /\
                int64_total_amb_diff i = Zsum (whole_with_difficulty v) /\
                int64_pop_65plus i = Zsum (whole_senior_totals v) /\
                int64_pop_65plus_amb_diff i
                = Zsum (whole_senior_with_difficulty v))).
  { unfold Zsum, whole_with_difficulty, whole_senior_totals,
      whole_senior_with_difficulty in *.
    cbn [fold_left] in *. rewrite !Z.add_0_l in *.
    unfold i, calculate_metrics_row_int64.
    cbn [int64_total_pop_5plus int64_total_amb_diff int64_pop_65plus
         int64_pop_65plus_amb_diff].
    split; [reflexivity|].
    repeat (rewrite add_int64_small by lia). auto. }
  split; [exact Ei|].
  destruct Ei as (Ep & Ea & Es & Ed).
  assert (Et : int64_total_amb_diff_pct i
               = fillna (of_Z 0)
                   (percentage (of_Z (int64_total_amb_diff i))
                      (of_Z (int64_total_pop_5plus i)))) by reflexivity.
  assert (Ec : int64_pop_65plus_amb_diff_pct i
               = fillna (of_Z 0)
                   (percentage (of_Z (int64_pop_65plus_amb_diff i))
                      (of_Z (int64_pop_65plus i)))) by reflexivity.
  clearbody i.
  rewrite Et, Ec, Htpct, Hspct, Htp, Hta, Hsp, Hsa, Ep, Ea, Es, Ed.
  split; [reflexivity|]. split; [reflexivity|]. split; [reflexivity|].
  split; [reflexivity|]. split; reflexivity.
Qed.

Lemma cells_below (v : variables Z) :
  Forall (fun z => 0 <= z) (cells v) ->
  B18105_001E v < 2 ^ 53 ->
  Zsum (whole_with_difficulty v) < 2 ^ 53 ->
  Zsum (whole_senior_totals v) < 2 ^ 53 ->
  Forall (fun z => 0 <= z < 2 ^ 53) (cells v).
Proof.
  intros Hv Hu Hw Hs.
  destruct (cells_nonneg v Hv)
    as (H1 & (H4 & H7 & H10 & H13 & H16 & H20 & H23 & H26 & H29 & H32)
           & (H12 & H15 & H28 & H31)).
  unfold Zsum, whole_with_difficulty, whole_senior_totals in *.
  cbn [fold_left] in *. unfold cells.
  repeat (constructor; [lia|]). constructor.
Qed.

Lemma of_Z_defined z : 0 <= z < 2 ^ 53 -> defined (of_Z z).
Proof.
  intros H. destruct (Z.eq_dec z 0) as [->|Hz]; [reflexivity|].
  rewrite of_Z_canonical by lia. reflexivity.
Qed.

Lemma of_Z_nonzero z : 0 < z < 2 ^ 53 -> nonzero (of_Z z).
Proof. intros H. rewrite of_Z_canonical by lia. split; reflexivity. Qed.

Lemma of_Z_valid z : valid (of_Z z).
Proof.
  unfold valid, of_Z, binary_normalize.
  destruct z as [|p|p]; [reflexivity|apply binary_round_valid, prec_pos..].
Qed.

Lemma of_Z_nonneg z : 0 <= z -> nonneg (of_Z z).
Proof.
  intros Hz. apply nonneg_cases. unfold of_Z, binary_normalize.
  destruct z as [|p|p].
  - exact I.
  - pose proof (binary_round_sign prec emax prec_pos false p 0) as H.
    destruct (binary_round prec emax false p 0) as [s|s| |s m e];
      try contradiction; subst; exact I.
  - lia.
Qed.

Lemma whole_row_cells (P : cell -> Prop) (geoid : string) (v : variables Z) :
  Forall (fun z => P (of_Z z)) (cells v) -> Forall P (cells (whole_row geoid v)).
Proof.
  intros H. change (cells (whole_row geoid v)) with (map of_Z (cells v)).
  apply Forall_map. exact H.
Qed.

(** C1 (amended): for every fetched row of non-negative whole numbers whose
    sums stay below [2 ^ 53], [calculate_metrics] returns the universe
    variable as the total population, the sum of the ten with-difficulty
    variables, the sum of the four senior totals and the sum of the four
    senior with-difficulty variables, on int64 and on float64 columns alike;
    each percentage is [round(count / denominator * 100, 2)] when its
    denominator is not 0, and 0 when count and denominator are both 0.  The
    row with universe 1000 and sums 150, 200 and 40 yields
    (1000, 150, 15.00, 200, 40, 20.00). *)
Theorem calculate_metrics_row_correct (geoid : string) (v : variables Z) :
  Forall (fun z => 0 <= z) (cells v) ->
  B18105_001E v < 2 ^ 53 ->
  Zsum (whole_with_difficulty v) < 2 ^ 53 ->
  Zsum (whole_senior_totals v) < 2 ^ 53 ->
  let m := calculate_metrics_row (whole_row geoid v) in
  let i := calculate_metrics_row_int64 v in
  let universe := B18105_001E v in
  let with_difficulty := Zsum (whole_with_difficulty v) in
  let seniors := Zsum (whole_senior_totals v) in
  let seniors_with_difficulty := Zsum (whole_senior_with_difficulty v) in
  (int64_total_pop_5plus i = universe /\
   int64_total_amb_diff i = with_difficulty /\
   int64_pop_65plus i = seniors /\
   int64_pop_65plus_amb_diff i = seniors_with_difficulty) /\
  (total_pop_5plus m = of_Z universe /\
   total_amb_diff m = of_Z with_difficulty /\
   pop_65plus m = of_Z seniors /\
   pop_65plus_amb_diff m = of_Z seniors_with_difficulty) /\
  (int64_total_amb_diff_pct i = total_amb_diff_pct m /\
   int64_pop_65plus_amb_diff_pct i = pop_65plus_amb_diff_pct m) /\
  (universe <> 0 ->
   total_amb_diff_pct m = percentage (of_Z with_difficulty) (of_Z universe)) /\
  (seniors <> 0 ->
   pop_65plus_amb_diff_pct m =
     percentage (of_Z seniors_with_difficulty) (of_Z seniors)) /\
  (with_difficulty = 0 -> universe = 0 -> total_amb_diff_pct m = of_Z 0) /\
  (seniors_with_difficulty = 0 -> seniors = 0 ->
   pop_65plus_amb_diff_pct m = of_Z 0) /\
  (universe = 1000 -> with_difficulty = 150 -> seniors = 200 ->
   seniors_with_difficulty = 40 ->
   metrics_columns m =
     {| total_pop_5plus := of_Z 1000;
        total_amb_diff := of_Z 150;
        total_amb_diff_pct := of_Z 15;
        pop_65plus := of_Z 200;
        pop_65plus_amb_diff := of_Z 40;
        pop_65plus_amb_diff_pct := of_Z 20 |}).
Proof.
  intros Hv Hu Hw Hs m i universe with_difficulty seniors
    seniors_with_difficulty.
  destruct (int64_agrees geoid v Hv Hu Hw Hs)
    as ((Ep & Ea & Es & Ed) & (Htp & Hta & Htpct & Hsp & Hsa & Hspct)).
  fold m i in Ep, Ea, Es, Ed, Htp, Hta, Htpct, Hsp, Hsa, Hspct.
  fold universe in Ep. fold with_difficulty in Ea. fold seniors in Es.
  fold seniors_with_difficulty in Ed.
  rewrite Ep in Htp. rewrite Ea in Hta. rewrite Es in Hsp. rewrite Ed in Hsa.
  destruct (whole_row_sums geoid v Hv Hw Hs)
    as (_ & H1 & Hw0 & Hs0 & Hd0 & Hd).
  fold universe in H1, Hu. fold with_difficulty in Hw0, Hw, Hd.
  fold seniors in Hs0, Hs. fold seniors_with_difficulty in Hd0, Hd.
  assert (Hdef : Forall defined (cells (whole_row geoid v))).
  { apply whole_row_cells.
    eapply Forall_impl; [|exact (cells_below v Hv Hu Hw Hs)].
    intros z Hz. apply of_Z_defined, Hz. }
  destruct (calculate_metrics_row_float64 (whole_row geoid v) Hdef)
    as (_ & _ & _ & _ & Pt & Ps & Zt & Zs & _).
  fold m in Pt, Ps, Zt, Zs.
  clearbody m i.
  split; [split; [exact Ep|]; split; [exact Ea|]; split; assumption|].
  split; [split; [exact Htp|]; split; [exact Hta|]; split; assumption|].
  split; [split; symmetry; assumption|].
  split; [|split; [|split; [|split]]].
  - intros Hnz. rewrite <- Hta, <- Htp. apply Pt. rewrite Htp.
    apply of_Z_nonzero. lia.
  - intros Hnz. rewrite <- Hsa, <- Hsp. apply Ps. rewrite Hsp.
    apply of_Z_nonzero. lia.
  - intros Hc Hz. apply Zt.
    + rewrite Hta, Hc. reflexivity.
    + rewrite Htp, Hz. reflexivity.
  - intros Hc Hz. apply Zs.
    + rewrite Hsa, Hc. reflexivity.
    + rewrite Hsp, Hz. reflexivity.
  - intros E1 E2 E3 E4.
    rewrite (metrics_eta m), Pt, Ps, Htp, Hta, Hsp, Hsa, E1, E2, E3, E4.
    + vm_compute. reflexivity.
    + rewrite Hsp, E3. split; reflexivity.
    + rewrite Htp, E1. split; reflexivity.
Qed.

Lemma calculate_metrics_row_correct_witness :
  metrics_columns (calculate_metrics_row (whole_row "06075010800" example_counts))
  = {| total_pop_5plus := of_Z 1000;
       total_amb_diff := of_Z 150;
       total_amb_diff_pct := of_Z 15;
       pop_65plus := of_Z 200;
       pop_65plus_amb_diff := of_Z 40;
       pop_65plus_amb_diff_pct := of_Z 20 |}.
Proof.
  apply (calculate_metrics_row_correct "06075010800" example_counts).
  - repeat (constructor; [discriminate|]). constructor.
  - reflexivity.
  - reflexivity.
  - reflexivity.
  - reflexivity.
  - reflexivity.
  - reflexivity.
  - reflexivity.
Defined.

(** ** The range of the percentages *)

(** C8, as the specification states it, fails on int64 columns: in the row
    with [2 ^ 62] people with a difficulty in each of two age bands, among
    [10 ^ 19] people, every variable is non-negative and the people with a
    difficulty are at most the universe; their int64 sum wraps around to
    [- 2 ^ 63], and the percentage is -92.23. *)
Lemma int64_sum_wraps_percentage :
  Forall (fun z => 0 <= z) (cells wrapped_row) /\
  Zsum (whole_with_difficulty wrapped_row) <= B18105_001E wrapped_row /\
  Zsum (whole_senior_with_difficulty wrapped_row)
    <= Zsum (whole_senior_totals wrapped_row) /\
  let i := calculate_metrics_row_int64 wrapped_row in
  Zsum (whole_with_difficulty wrapped_row) = 2 ^ 63 /\
  int64_total_amb_diff i = - 2 ^ 63 /\
  int64_total_amb_diff_pct i = div (of_Z (-9223)) (of_Z 100) /\
  leb (of_Z 0) (int64_total_amb_diff_pct i) = false /\
  ~ in_range (int64_total_amb_diff_pct i).
Proof.
  split; [repeat (constructor; [discriminate|]); constructor|].
  split; [discriminate|]. split; [discriminate|].
  split; [reflexivity|]. split; [reflexivity|].
  split; [vm_compute; reflexivity|]. split; [vm_compute; reflexivity|].
  intros [H _]. vm_compute in H. discriminate.
Qed.

(** C8 (amended): when the fifteen variables of a row are non-negative whole
    numbers whose sums stay below [2 ^ 53], and each count with a difficulty
    is at most its population, the two percentages are between 0 and 100
    after rounding, on int64 and on float64 columns alike. *)
Theorem percentages_in_range (geoid : string) (v : variables Z) :
  Forall (fun z => 0 <= z) (cells v) ->
  B18105_001E v < 2 ^ 53 ->
  Zsum (whole_senior_totals v) < 2 ^ 53 ->
  Zsum (whole_with_difficulty v) <= B18105_001E v ->
  Zsum (whole_senior_with_difficulty v) <= Zsum (whole_senior_totals v) ->
  let m := calculate_metrics_row (whole_row geoid v) in
  let i := calculate_metrics_row_int64 v in
  (in_range (total_amb_diff_pct m) /\
   in_range (pop_65plus_amb_diff_pct m)) /\
  (in_range (int64_total_amb_diff_pct i) /\
   in_range (int64_pop_65plus_amb_diff_pct i)).
Proof.
  intros Hv Hu Hs Hwu Hds m i.
  assert (Hw : Zsum (whole_with_difficulty v) < 2 ^ 53) by lia.
  destruct (int64_agrees geoid v Hv Hu Hw Hs)
    as (_ & (_ & _ & Htpct & _ & _ & Hspct)).
  fold m i in Htpct, Hspct. rewrite <- Htpct, <- Hspct.
  destruct (whole_row_sums geoid v Hv Hw Hs)
    as ((Htp & Hta & Hsp & Hsa) & H1 & Hw0 & Hs0 & Hd0 & _).
  fold m in Htp, Hta, Hsp, Hsa.
  assert (Hval : Forall valid (cells (whole_row geoid v))).
  { apply whole_row_cells. apply Forall_forall. intros z _. apply of_Z_valid. }
  assert (Hnn : Forall nonneg (cells (whole_row geoid v))).
  { apply whole_row_cells. eapply Forall_impl; [|exact Hv].
    intros z Hz. apply of_Z_nonneg, Hz. }
  assert (R : in_range (total_amb_diff_pct m) /\
              in_range (pop_65plus_amb_diff_pct m)).
  { apply (percentages_in_range_float64 (whole_row geoid v) Hval Hnn);
      fold m.
    - rewrite Hta, Htp, leb_of_Z by lia. apply Z.leb_le. exact Hwu.
    - rewrite Hsa, Hsp, leb_of_Z by lia. apply Z.leb_le. exact Hds. }
  split; exact R.
Qed.

Lemma percentages_in_range_witness :
  let m := calculate_metrics_row (whole_row "06075010800" example_counts) in
  let i := calculate_metrics_row_int64 example_counts in
  (in_range (total_amb_diff_pct m) /\
   in_range (pop_65plus_amb_diff_pct m)) /\
  (in_range (int64_total_amb_diff_pct i) /\
   in_range (int64_pop_65plus_amb_diff_pct i)).
Proof.
  apply (percentages_in_range "06075010800" example_counts).
  - repeat (constructor; [discriminate|]). constructor.
  - reflexivity.
  - reflexivity.
  - discriminate.
  - discriminate.
Defined.
